(** * The session engine of the auth module: [Auth]

    A shallow embedding of the class [Auth] as it is written in the two
    copies this repository carries:

    - [lib/core/auth.js]                       (module [Core] below);
    - a second copy of the same class, which adds [updateUser],
      [refreshToken] and [getDBAuth]           (module [Alt] below).

    The methods the two copies share word for word are embedded once, in
    module [Engine].  JavaScript values, the storage collaborator and the
    promise discipline come first. *)

From Stdlib Require Import ZArith String Ascii List Bool Lia.
From Stdlib Require Import DecimalString.
From stdpp Require Import base option gmap strings.

Import ListNotations.
Open Scope string_scope.
Open Scope Z_scope.

Set Warnings "-register-all".

(* ===================================================================== *)
(** ** JavaScript values *)
(* ===================================================================== *)

Module JS.

(** Numbers are the integers the program computes with (epoch times,
    lifetimes, HTTP status codes) plus [NaN]; objects are plain data, a
    list of own properties in insertion order. *)
Inductive value : Type :=
| VUndefined
| VNull
| VBool (b : bool)
| VNum (n : Z)
| VNaN
| VStr (s : string)
| VArr (xs : list value)
| VObj (fields : list (string * value)).

(** Completion of a synchronous piece of code: a value or a thrown
    exception. *)
Inductive Res (A : Type) : Type :=
| Ok (a : A)
| Throw (e : value).
Arguments Ok {A} a.
Arguments Throw {A} e.

(** How a promise settles. *)
Inductive Settle : Type :=
| Resolved (v : value)
| Rejected (e : value).

Definition TypeError (msg : string) : value :=
  VObj [("name", VStr "TypeError"); ("message", VStr msg)].

Definition ReferenceError (msg : string) : value :=
  VObj [("name", VStr "ReferenceError"); ("message", VStr msg)].

(** [ToBoolean]. *)
Definition truthy (v : value) : bool :=
  match v with
  | VUndefined | VNull | VNaN => false
  | VBool b => b
  | VNum n => negb (n =? 0)
  | VStr s => negb (String.eqb s EmptyString)
  | VArr _ | VObj _ => true
  end.

(** [Boolean(v)]. *)
Definition Boolean (v : value) : value := VBool (truthy v).

Definition string_of_Z (n : Z) : string :=
  NilZero.string_of_int (Z.to_int n).

(** [ToString]; an array joins its elements with commas, [null] and
    [undefined] elements printing as nothing. *)
Fixpoint to_string (v : value) : string :=
  match v with
  | VUndefined => "undefined"
  | VNull => "null"
  | VBool true => "true"
  | VBool false => "false"
  | VNum n => string_of_Z n
  | VNaN => "NaN"
  | VStr s => s
  | VArr xs =>
      (fix join (l : list value) : string :=
         match l with
         | [] => EmptyString
         | x :: r =>
             let sx := match x with
                       | VUndefined | VNull => EmptyString
                       | _ => to_string x
                       end in
             match r with
             | [] => sx
             | _ :: _ => sx ++ "," ++ join r
             end
         end) xs
  | VObj _ => "[object Object]"
  end.

(** [v === undefined || v === null]. *)
Definition nullish (v : value) : bool :=
  match v with
  | VUndefined | VNull => true
  | _ => false
  end.

(** [typeof v === 'object'] ([null] included). *)
Definition typeof_object (v : value) : bool :=
  match v with
  | VNull | VArr _ | VObj _ => true
  | _ => false
  end.

(** Own property lookup in a property list: the first binding of a key is
    the live one. *)
Fixpoint assoc (k : string) (fs : list (string * value)) : option value :=
  match fs with
  | [] => None
  | (k', v) :: r => if String.eqb k k' then Some v else assoc k r
  end.

Fixpoint remove_key (k : string) (fs : list (string * value))
  : list (string * value) :=
  match fs with
  | [] => []
  | (k', v) :: r =>
      if String.eqb k k' then remove_key k r else (k', v) :: remove_key k r
  end.

(** [o[k] = v] on a property list: an existing key keeps its position. *)
Fixpoint put (k : string) (v : value) (fs : list (string * value))
  : list (string * value) :=
  match fs with
  | [] => [(k, v)]
  | (k', v') :: r =>
      if String.eqb k k' then (k, v) :: remove_key k r
      else (k', v') :: put k v r
  end.

(** [o.k]: reading a property of [undefined] or [null] throws; a
    primitive or an array has none of the properties this program reads. *)
Definition get (o : value) (k : string) : Res value :=
  match o with
  | VUndefined =>
      Throw (TypeError ("Cannot read property '" ++ k ++ "' of undefined"))
  | VNull =>
      Throw (TypeError ("Cannot read property '" ++ k ++ "' of null"))
  | VObj fs => Ok (default VUndefined (assoc k fs))
  | _ => Ok VUndefined
  end.

(** [o.k = v] (module code is strict: assigning a property of a primitive
    throws); an array is kept as its elements, a named property put on it
    is not represented. *)
Definition set (o : value) (k : string) (v : value) : Res value :=
  match o with
  | VObj fs => Ok (VObj (put k v fs))
  | VArr xs => Ok (VArr xs)
  | _ => Throw (TypeError ("Cannot create property '" ++ k ++ "'"))
  end.

(** Own enumerable properties copied by [Object.assign]. *)
Definition own_props (v : value) : list (string * value) :=
  match v with
  | VObj fs => fs
  | VArr xs => imap (fun i x => (string_of_Z (Z.of_nat i), x)) xs
  | VStr s =>
      imap (fun i c => (string_of_Z (Z.of_nat i), VStr (String c EmptyString)))
           (list_ascii_of_string s)
  | _ => []
  end.

(** [Object.assign({}, a, b)]. *)
Definition assign2 (a b : value) : value :=
  VObj (fold_left (fun acc kv => put kv.1 kv.2 acc)
                  (own_props a ++ own_props b) []).

(** [a === b] against a string. *)
Definition strict_eq_str (s : string) (v : value) : bool :=
  match v with
  | VStr s' => String.eqb s s'
  | _ => false
  end.

(** [s.split(sep)] for a non-empty separator: [skip] counts the
    characters of a separator just matched that are still to be dropped. *)
Fixpoint split_go (sep : string) (skip : nat) (cur : string) (s : string)
  : list string :=
  match s with
  | EmptyString => [String.rev cur]
  | String c r =>
      match skip with
      | S k => split_go sep k cur r
      | O =>
          if String.prefix sep s
          then String.rev cur
               :: split_go sep (Nat.pred (String.length sep)) EmptyString r
          else split_go sep O (String c cur) r
      end
  end.

Definition split_str (sep : string) (s : string) : list string :=
  split_go sep O EmptyString s.

(** [v.split(sep)]: only a string has the method. *)
Definition split (v : value) (sep : string) : Res (list string) :=
  match v with
  | VStr s => Ok (split_str sep s)
  | VUndefined =>
      Throw (TypeError "Cannot read property 'split' of undefined")
  | VNull => Throw (TypeError "Cannot read property 'split' of null")
  | _ => Throw (TypeError "split is not a function")
  end.

(** [xs[i]] on the result of a split. *)
Definition nth_str (i : nat) (xs : list string) : value :=
  match nth_error xs i with
  | Some s => VStr s
  | None => VUndefined
  end.

(** [Array.isArray]. *)
Definition isArray (v : value) : bool :=
  match v with VArr _ => true | _ => false end.

(** SameValueZero, the comparison of [Array.prototype.includes]; two
    objects are the same only by identity, which no element of a freshly
    built array has with an argument. *)
Definition same_value_zero (a b : value) : bool :=
  match a, b with
  | VUndefined, VUndefined => true
  | VNull, VNull => true
  | VBool x, VBool y => Bool.eqb x y
  | VNum x, VNum y => x =? y
  | VNaN, VNaN => true
  | VStr x, VStr y => String.eqb x y
  | _, _ => false
  end.

(** [arr.includes(x)]. *)
Definition includes (arr : list value) (x : value) : bool :=
  existsb (fun y => same_value_zero y x) arr.

(** [x | 0]: the 32-bit two's complement reading of an integer. *)
Definition to_int32 (x : Z) : Z :=
  (x + 2147483648) mod 4294967296 - 2147483648.

Section Numbers.
(** StringToNumber belongs to the host; its result is a number or
    [NaN]. *)
Variable string_to_number : string -> value.

(** [ToNumber]. *)
Definition to_number (v : value) : value :=
  match v with
  | VUndefined => VNaN
  | VNull => VNum 0
  | VBool b => VNum (if b then 1 else 0)
  | VNum n => VNum n
  | VNaN => VNaN
  | VStr s => string_to_number s
  | VArr _ | VObj _ => string_to_number (to_string v)
  end.

Definition is_stringish (v : value) : bool :=
  match v with
  | VStr _ | VArr _ | VObj _ => true
  | _ => false
  end.

(** [a + b]. *)
Definition add (a b : value) : value :=
  if is_stringish a || is_stringish b
  then VStr (to_string a ++ to_string b)
  else match to_number a, to_number b with
       | VNum x, VNum y => VNum (x + y)
       | _, _ => VNaN
       end.

(** [a * b]. *)
Definition mul (a b : value) : value :=
  match to_number a, to_number b with
  | VNum x, VNum y => VNum (x * y)
  | _, _ => VNaN
  end.

(** [n >= v] for a number [n] on the left. *)
Definition num_ge (n : Z) (v : value) : bool :=
  match to_number v with
  | VNum m => m <=? n
  | _ => false
  end.

(** [v == n] for a number [n] on the right. *)
Definition loose_eq_num (v : value) (n : Z) : bool :=
  match v with
  | VUndefined | VNull => false
  | _ => match to_number v with
         | VNum m => m =? n
         | _ => false
         end
  end.
End Numbers.

(** A host StringToNumber for plain decimal numerals, enough to run the
    model on examples. *)
Fixpoint decimal_go (acc : Z) (s : string) : value :=
  match s with
  | EmptyString => VNum acc
  | String c r =>
      let d := Z.of_nat (nat_of_ascii c) - 48 in
      if (0 <=? d) && (d <=? 9) then decimal_go (10 * acc + d) r else VNaN
  end.

Definition decimal_to_number (s : string) : value := decimal_go 0 s.

End JS.

(* ===================================================================== *)
(** ** The machine: store, trace, synchronous code and promises *)
(* ===================================================================== *)

Module Machine.
Import JS.

(** The four places where the engine calls [ctx.app.$axios.request]. *)
Inductive Site : Type :=
| SiteRefresh      (* the token-endpoint exchange *)
| SiteCredentials  (* the per-user credential fetch of [getDBAuth] *)
| SiteProfile      (* the profile synchronisation of [updateUser] *)
| SiteDispatch.    (* the caller's request, in [completeRequest] *)

(** What the engine does to its collaborators, in the order it does it,
    and the entries into those of its own methods that the properties
    count ([mounted], [refreshToken], [getDBAuth]). *)
Inductive Event : Type :=
| EvAxios (site : Site) (req : value)        (* [$axios.request(req)] *)
| EvSetUniversal (key : string) (v : value)  (* [$storage.setUniversal] *)
| EvSetState (key : string) (v : value)      (* [$storage.setState] *)
| EvCall (method : string)                   (* [this.method()] entered *)
| EvHook (hook : string) (args : list value) (* [this.strategy.hook(...)] *)
| EvSetTokenHook (token : value)             (* [this.strategy._setToken] *)
| EvListener (index : nat) (err : value) (payload : value)
                                             (* a listener called *)
| EvLoading (what : string)                  (* [$loading().what()] *)
| EvCookieRemove (key : string)              (* [$cookies.remove(key)] *)
| EvCtxRedirect (to : value)                 (* [ctx.redirect(to)] *)
| EvLocationReplace (to : value).            (* [window.location.replace] *)

(** Modelled from the spec: the Key-Value Sync Store ([./storage] is not
    among the sources).  It has a reactive in-memory tier ([$state]) and
    the persisted tiers behind the universal keys; a universal write goes
    to every tier, a universal read takes the in-memory value and falls
    back to the persisted one. *)
Record Data : Type := mkData {
  state : gmap string value;
  persisted : gmap string value;
  error : value;                    (* [this.error] *)
  cookies : gmap string value       (* [ctx.app.$cookies] *)
}.

Record World : Type := mkWorld {
  data : Data;
  trace : list Event;
  clock_reads : nat
}.

Definition with_data (d : Data) (w : World) : World :=
  mkWorld d (trace w) (clock_reads w).

(** The world after one more reading of the clock. *)
Definition tick (w : World) : World :=
  mkWorld (data w) (trace w) (S (clock_reads w)).

(** Synchronous code: it runs on the world and completes or throws. *)
Definition M (A : Type) : Type := World -> Res A * World.

(** A promise is the rest of an asynchronous computation: run on the world
    in which its turn comes, it settles.  What starting it did
    synchronously (a request sent, a hook entered) has happened before. *)
Definition Promise : Type := World -> Settle * World.

Definition ret {A} (a : A) : M A := fun w => (Ok a, w).
Definition throw {A} (e : value) : M A := fun w => (Throw e, w).
Definition lift {A} (r : Res A) : M A := fun w => (r, w).

Definition bind {A B} (m : M A) (k : A -> M B) : M B :=
  fun w =>
    match m w with
    | (Ok a, w1) => k a w1
    | (Throw e, w1) => (Throw e, w1)
    end.

Declare Scope js_scope.
Delimit Scope js_scope with js.
Notation "'do' x <- m ; k" := (bind m (fun x => k))
  (at level 10, x name, m at level 100, k at level 200) : js_scope.
Notation "m ;; k" := (bind m (fun _ => k))
  (at level 100, k at level 200, only parsing, right associativity)
  : js_scope.
Open Scope js_scope.

Definition emit (e : Event) : M unit :=
  fun w => (Ok tt, mkWorld (data w) (trace w ++ [e]) (clock_reads w)).

Definition modify (f : Data -> Data) : M unit :=
  fun w => (Ok tt, with_data (f (data w)) w).

Definition read {A} (f : Data -> A) : M A :=
  fun w => (Ok (f (data w)), w).

(** [Promise.resolve(v)], [Promise.reject(e)]. *)
Definition resolved (v : value) : Promise := fun w => (Resolved v, w).
Definition rejected (e : value) : Promise := fun w => (Rejected e, w).

(** [p.then(f)]: the handler is synchronous code that returns a promise
    (a plain return value [v] is [resolved v]); a throw in it rejects. *)
Definition then_ (p : Promise) (f : value -> M Promise) : Promise :=
  fun w =>
    match p w with
    | (Resolved v, w1) =>
        match f v w1 with
        | (Ok q, w2) => q w2
        | (Throw e, w2) => (Rejected e, w2)
        end
    | (Rejected e, w1) => (Rejected e, w1)
    end.

(** [p.catch(f)]. *)
Definition catch_ (p : Promise) (f : value -> M Promise) : Promise :=
  fun w =>
    match p w with
    | (Resolved v, w1) => (Resolved v, w1)
    | (Rejected e, w1) =>
        match f e w1 with
        | (Ok q, w2) => q w2
        | (Throw e', w2) => (Rejected e', w2)
        end
    end.

(** The body of an [async] function: a throw becomes a rejection. *)
Definition async (body : M Promise) : M Promise :=
  fun w =>
    match body w with
    | (Ok p, w1) => (Ok p, w1)
    | (Throw e, w1) => (Ok (rejected e), w1)
    end.

(** What a caller who awaits a call observes. *)
Inductive Outcome : Type :=
| Threw (e : value)          (* the call threw before returning *)
| Settled (s : Settle).

Definition await (m : M Promise) : World -> Outcome * World :=
  fun w =>
    match m w with
    | (Ok p, w1) => let '(s, w2) := p w1 in (Settled s, w2)
    | (Throw e, w1) => (Threw e, w1)
    end.

(** *** The collaborators *)

(** A strategy hook runs its synchronous part on the engine's data and
    either throws or hands back a promise. *)
Inductive HookRes : Type :=
| HThrow (e : value) (d : Data)
| HReturn (p : Data -> Settle * Data) (d : Data).

Definition Hook : Type := list value -> Data -> HookRes.

(** An error listener returns or throws ([Some e]). *)
Definition Listener : Type := value -> value -> Data -> option value * Data.

Record Strategy : Type := mkStrategy {
  s_name : value;                               (* [strategy.name] *)
  s_options : value;                            (* [strategy.options] *)
  s_mounted : option Hook;
  s_login : option Hook;
  s_fetchUser : option Hook;
  s_logout : option Hook;
  s_reset : option Hook;
  s_setToken : option (value -> Data -> Data)   (* [strategy._setToken] *)
}.

Record Options : Type := mkOptions {
  token_prefix : string;            (* [options.token.prefix] *)
  refresh_token_prefix : string;    (* [options.refresh_token.prefix] *)
  opt_redirect : value;             (* [options.redirect] *)
  fullPathRedirect : value;
  rewriteRedirects : value
}.

(** Everything the engine is given: its configuration, the registry, the
    listeners, the route, and the code it imports that is not among the
    sources ([./utilities], [dotprop], the HTTP transport, the clock). *)
Record Env : Type := mkEnv {
  options : Options;
  strategies : gmap string Strategy;
  errorListeners : list Listener;
  route_path : value;               (* [ctx.route.path] *)
  route_fullPath : value;           (* [ctx.route.fullPath] *)
  BASE_URL : value;                 (* [ctx.env.BASE_URL] *)
  process_server : bool;
  process_browser : bool;
  window_defined : bool;
  isSet : value -> bool;
  isRelativeURL : value -> bool;
  isSameURL : value -> value -> bool;
  encodeQuery : value -> value;
  getProp : value -> value -> value;
  string_to_number : string -> value;
  (** the settlement of the [n]-th request the engine sends *)
  axios : nat -> value -> Settle;
  (** the [n]-th reading of the clock, in milliseconds *)
  clock : nat -> Z
}.

End Machine.

(* ===================================================================== *)
(** ** The methods both copies of [Auth] share *)
(* ===================================================================== *)

Module Engine.
Import JS Machine.
Open Scope js_scope.

Section WithEnv.
Variable env : Env.

(** *** Storage ([this.$storage], [this.$state]) *)

(** Modelled from the spec: [getState] reads the in-memory tier; a key
    never written reads as [undefined]. *)
Definition getState (key : string) : M value :=
  read (fun d => default VUndefined (state d !! key)).

(** Modelled from the spec: [setState] writes the in-memory tier only. *)
Definition setState (key : string) (v : value) : M value :=
  emit (EvSetState key v) ;;
  modify (fun d =>
    mkData (<[key := v]> (state d)) (persisted d) (error d) (cookies d)) ;;
  ret v.

(** Modelled from the spec: the value a universal read finds, the
    in-memory one when there is one, else the persisted one. *)
Definition universal (d : Data) (key : string) : value :=
  match state d !! key with
  | Some v => v
  | None => default VUndefined (persisted d !! key)
  end.

(** Modelled from the spec: [getUniversal]. *)
Definition getUniversal (key : string) : M value :=
  read (fun d => universal d key).

(** Modelled from the spec: [setUniversal] writes every tier. *)
Definition setUniversal (key : string) (v : value) : M value :=
  emit (EvSetUniversal key v) ;;
  modify (fun d =>
    mkData (<[key := v]> (state d)) (<[key := v]> (persisted d))
           (error d) (cookies d)) ;;
  ret v.

(** *** Collaborators *)

(** [new Date()], [Date.now()]. *)
Definition now : M Z :=
  fun w => (Ok (clock env (clock_reads w)), tick w).

Definition is_axios (e : Event) : bool :=
  match e with EvAxios _ _ => true | _ => false end.

Definition requests_sent (t : list Event) : nat :=
  length (filter (fun e => is_axios e = true) t).

(** [this.ctx.app.$axios.request(req)]: the request leaves now, the
    promise settles as the transport decides. *)
Definition axios_request (site : Site) (req : value) : M Promise :=
  fun w =>
    let n := requests_sent (trace w) in
    (Ok (fun w' => (axios env n req, w')),
     mkWorld (data w) (trace w ++ [EvAxios site req]) (clock_reads w)).

Definition promise_of (p : Data -> Settle * Data) : Promise :=
  fun w => let '(s, d) := p (data w) in (s, with_data d w).

(** [this.strategy.hook(...args)]. *)
Definition call_hook (name : string) (h : Hook) (args : list value)
  : M Promise :=
  emit (EvHook name args) ;;
  fun w =>
    match h args (data w) with
    | HThrow e d => (Throw e, with_data d w)
    | HReturn p d => (Ok (promise_of p), with_data d w)
    end.

(** [typeof defaults === 'object' ? Object.assign({}, defaults, endpoint)
    : endpoint], the first statement of [completeRequest]. *)
Definition merged (endpoint defaults : value) : value :=
  if typeof_object defaults then assign2 defaults endpoint else endpoint.

(** *** Strategy and scheme *)

(** The functions every plain object inherits from [Object.prototype]
    under their own names. *)
Definition prototype_functions : list string :=
  ["__defineGetter__"; "__defineSetter__"; "__lookupGetter__";
   "__lookupSetter__"; "hasOwnProperty"; "isPrototypeOf";
   "propertyIsEnumerable"; "toLocaleString"; "toString"; "valueOf"].

(** What a plain object has under a name nobody assigned: [this.strategies]
    is [{}], so such a read finds what [Object.prototype] holds, a built-in
    function (whose [name] is its own, ["Object"] for [constructor]) or,
    under [__proto__], the prototype itself.  Read as a strategy, these
    have neither hooks nor [options] nor [_setToken]. *)
Definition inherited (name : string) : option Strategy :=
  let member (n : value) :=
    Some (mkStrategy n VUndefined None None None None None None) in
  if String.eqb name "__proto__" then member VUndefined
  else if String.eqb name "constructor" then member (VStr "Object")
  else if existsb (String.eqb name) prototype_functions
       then member (VStr name)
  else None.

(** [this.strategies[name]]: the strategy registered under the name, or
    else what the object inherits. *)
Definition registered (name : string) : option Strategy :=
  match strategies env !! name with
  | Some s => Some s
  | None => inherited name
  end.

(** [get strategy ()]. *)
Definition strategy : M (option Strategy) :=
  do name <- getState "strategy";
  ret (registered (to_string name)).

(** The strategy [this.strategy] finds in a given store. *)
Definition active (d : Data) : option Strategy :=
  registered (to_string (default VUndefined (state d !! "strategy"))).

(** [this.strategy.prop]: reading a property of a strategy that is not
    there throws. *)
Definition strategy_dot (prop : string) : M Strategy :=
  do s <- strategy;
  match s with
  | Some s => ret s
  | None =>
      throw (TypeError ("Cannot read property '" ++ prop ++ "' of undefined"))
  end.

(** [this.strategy._setToken(token)]. *)
Definition strategy_setToken (token : value) : M unit :=
  do s <- strategy_dot "_setToken";
  match s_setToken s with
  | Some f => emit (EvSetTokenHook token) ;; modify (f token)
  | None => throw (TypeError "this.strategy._setToken is not a function")
  end.

(** *** Error bus *)

Fixpoint callListeners (i : nat) (ls : list Listener) (err payload : value)
  : M unit :=
  match ls with
  | [] => ret tt
  | fn :: rest =>
      emit (EvListener i err payload) ;;
      (fun w =>
         match fn err payload (data w) with
         | (None, d) => (Ok tt, with_data d w)
         | (Some e, d) => (Throw e, with_data d w)
         end) ;;
      callListeners (S i) rest err payload
  end.

Definition payload_of (method : string) : value :=
  VObj [("method", VStr method)].

(** [callOnError(error, { method })]. *)
Definition callOnError (err : value) (method : string) : M unit :=
  modify (fun d => mkData (state d) (persisted d) err (cookies d)) ;;
  callListeners 0 (errorListeners env) err (payload_of method).

(** What [callOnError] adds to the trace when every listener returns:
    one delivery per listener, in registration order. *)
Definition deliveries (i : nat) (ls : list Listener) (err payload : value)
  : list Event :=
  imap (fun j _ => EvListener (i + j) err payload) ls.

Definition notifications (err : value) (method : string) : list Event :=
  deliveries 0 (errorListeners env) err (payload_of method).

(** No listener throws. *)
Definition listeners_return : Prop :=
  forall fn err payload d,
    In fn (errorListeners env) -> (fn err payload d).1 = None.

(** *** Token helpers *)

Definition token_key (strategy : value) : string :=
  token_prefix (options env) ++ to_string strategy.
Definition refresh_token_key (strategy : value) : string :=
  refresh_token_prefix (options env) ++ to_string strategy.
Definition expiration_key (strategy : value) : string :=
  (token_prefix (options env) ++ "expiration.") ++ to_string strategy.
Definition scope_key (strategy : value) : string :=
  (token_prefix (options env) ++ "scope.") ++ to_string strategy.

Definition getToken (strategy : value) : M value :=
  getUniversal (token_key strategy).
Definition setToken (strategy token : value) : M value :=
  setUniversal (token_key strategy) token.

Definition getRefreshToken (strategy : value) : M value :=
  getUniversal (refresh_token_key strategy).
Definition setRefreshToken (strategy refreshToken : value) : M value :=
  setUniversal (refresh_token_key strategy) refreshToken.

Definition getTokenExpiration (strategy : value) : M value :=
  getUniversal (expiration_key strategy).
Definition setTokenExpiration (strategy tokenExpiration : value) : M value :=
  setUniversal (expiration_key strategy) tokenExpiration.

(** [return this.$storage.getUniversal(_key).split(' ')]. *)
Definition getTokenScope (strategy : value) : M value :=
  do stored <- getUniversal (scope_key strategy);
  do parts <- lift (split stored " ");
  ret (VArr (map VStr parts)).

Definition setTokenScope (strategy tokenScope : value) : M value :=
  setUniversal (scope_key strategy) tokenScope.

(** *** Session *)

(** [get user ()], [get loggedIn ()], [get busy ()]. *)
Definition user : M value := getState "user".
Definition loggedIn : M value := getState "loggedIn".
Definition busy : M value := getState "busy".

Definition fetchUser (args : list value) : M Promise :=
  do s <- strategy_dot "fetchUser";
  match s_fetchUser s with
  | None => ret (resolved VUndefined)
  | Some h =>
      do p <- call_hook "fetchUser" h args;
      ret (catch_ p (fun err =>
             callOnError err "fetchUser" ;;
             ret (rejected err)))
  end.

Definition fetchUserOnce (args : list value) : M Promise :=
  do u <- user;
  if negb (truthy u) then fetchUser args
  else ret (resolved VUndefined).

Definition mounted (args : list value) : M Promise :=
  emit (EvCall "mounted") ;;
  do s <- strategy_dot "mounted";
  match s_mounted s with
  | None => fetchUserOnce []
  | Some h =>
      do p <- call_hook "mounted" h args;
      ret (catch_ p (fun err =>
             callOnError err "mounted" ;;
             ret (rejected err)))
  end.

Definition setStrategy (name : string) : M Promise :=
  do current <- getUniversal "strategy";
  if strict_eq_str name current then ret (resolved VUndefined)
  else
    setUniversal "strategy" (VStr name) ;;
    mounted [].

Definition wrapLogin (promise : Promise) : M Promise :=
  setState "busy" (VBool true) ;;
  modify (fun d => mkData (state d) (persisted d) VNull (cookies d)) ;;
  ret (catch_
         (then_ promise (fun _ =>
            setState "busy" (VBool false) ;;
            ret (resolved VUndefined)))
         (fun err =>
            setState "busy" (VBool false) ;;
            ret (rejected err))).

(** [return this.wrapLogin(this.strategy.login(...arguments)).catch(...)]:
    the argument of [wrapLogin] is evaluated first, so the strategy's
    [login] has been entered, and has returned its promise, when
    [wrapLogin] starts. *)
Definition login (args : list value) : M Promise :=
  do s <- strategy_dot "login";
  match s_login s with
  | None => ret (resolved VUndefined)
  | Some h =>
      do p <- call_hook "login" h args;
      do q <- wrapLogin p;
      ret (catch_ q (fun err =>
             callOnError err "login" ;;
             ret (rejected err)))
  end.

Definition loginWith (name : string) (args : list value) : M Promise :=
  do p <- setStrategy name;
  ret (then_ p (fun _ => login args)).

(** *** Scopes *)

Definition hasScope (scope : value) : M value :=
  do s <- strategy_dot "name";
  do userScopes <- getTokenScope (s_name s);
  if negb (truthy userScopes) then ret VUndefined
  else
    match userScopes with
    | VArr xs => ret (VBool (includes xs scope))
    | _ => ret (Boolean (getProp env userScopes scope))
    end.

(** *** Redirects *)

Definition cookie_get (key : string) : M value :=
  read (fun d => default VUndefined (cookies d !! key)).

Definition cookie_remove (key : string) : M unit :=
  emit (EvCookieRemove key) ;;
  modify (fun d =>
    mkData (state d) (persisted d) (error d) (delete key (cookies d))).

(** The current location the loop check compares with. *)
Definition redirect_from : value :=
  if truthy (fullPathRedirect (options env))
  then route_fullPath env else route_path env.

(** The target of [redirect(name)] once the rewrites are applied: the
    body of [redirect] down to the loop check; [None] is an early
    return. *)
Definition redirect_target (name : string) : M (option value) :=
  if negb (truthy (opt_redirect (options env))) then ret None
  else
    let from := redirect_from in
    do to <- lift (get (opt_redirect (options env)) name);
    if negb (truthy to) then ret None
    else if truthy (rewriteRedirects (options env)) then
      (if String.eqb name "login" && isRelativeURL env from
          && negb (isSameURL env to from)
       then setUniversal "redirect" from ;; ret tt
       else ret tt) ;;
      if String.eqb name "home" then
        do stored <- getUniversal "redirect";
        do cookie <- cookie_get "oauth-redirect";
        do redirect <-
          (if truthy cookie && negb (truthy stored)
           then cookie_remove "oauth-redirect" ;; ret cookie
           else ret stored);
        setUniversal "redirect" VNull ;;
        if isRelativeURL env redirect then ret (Some redirect)
        else ret (Some to)
      else ret (Some to)
    else ret (Some to).

Definition redirect (name : string) (noRouter : bool) : M unit :=
  do target <- redirect_target name;
  match target with
  | None => ret tt
  | Some to =>
      if isSameURL env to redirect_from then ret tt
      else if process_browser env then
        if noRouter then emit (EvLocationReplace to)
        else emit (EvCtxRedirect to)
      else emit (EvCtxRedirect to)
  end.

End WithEnv.
End Engine.

(* ===================================================================== *)
(** ** [lib/core/auth.js] *)
(* ===================================================================== *)

Module Core.
Import JS Machine Engine.
Open Scope js_scope.

Section WithEnv.
Variable env : Env.

(** [$loading().what()]: the expression reads [window], which only a
    browser defines. *)
Definition loading (what : string) : M unit :=
  if window_defined env then emit (EvLoading what)
  else throw (ReferenceError "window is not defined").

(** [strategy.name] for the local [let strategy = this.strategy]. *)
Definition dot_name (s : option Strategy) : M value :=
  match s with
  | Some s => ret (s_name s)
  | None => throw (TypeError "Cannot read property 'name' of undefined")
  end.

Definition dot_options (s : option Strategy) : M value :=
  match s with
  | Some s => ret (s_options s)
  | None => throw (TypeError "Cannot read property 'options' of undefined")
  end.

Definition completeRequest (endpoint defaults : value) : M Promise :=
  let _endpoint := merged endpoint defaults in
  do p <- axios_request env SiteDispatch _endpoint;
  ret (catch_
         (then_ p (fun response =>
            loading "finish" ;;
            do propertyName <- lift (get _endpoint "propertyName");
            if truthy propertyName then
              do body <- lift (get response "data");
              ret (resolved (getProp env body propertyName))
            else
              do body <- lift (get response "data");
              ret (resolved body)))
         (fun err =>
            loading "fail" ;;
            callOnError env err "completeRequest" ;;
            ret (rejected err))).

(** [now.getTime() / 1000 | 0]. *)
Definition seconds (ms : Z) : Z := to_int32 (Z.quot ms 1000).

(** The pre-flight test of [request]. *)
Definition expired (expiration refresh_token : value) (ms : Z) : bool :=
  truthy expiration && truthy refresh_token
  && num_ge (string_to_number env) (seconds ms) expiration.

(** Whether [request], entered on data [d] with the clock about to read
    [ms], takes the refresh branch for strategy [s]. *)
Definition stale (d : Data) (ms : Z) (s : Strategy) : bool :=
  expired (universal d (expiration_key env (s_name s)))
          (universal d (refresh_token_key env (s_name s))) ms.

Definition request (endpoint defaults : value) : M Promise :=
  async (
    do strategy <- strategy env;
    do name <- dot_name strategy;
    do expiration <- getTokenExpiration env name;
    do name <- dot_name strategy;
    do refresh_token <- getRefreshToken env name;
    do ms <- now env;
    if expired expiration refresh_token ms then
      do opts <- dot_options strategy;
      do url <- lift (get opts "access_token_endpoint");
      do opts <- dot_options strategy;
      do client_id <- lift (get opts "client_id");
      do p <- axios_request env SiteRefresh
                (VObj [("method", VStr "post");
                       ("url", url);
                       ("baseURL", VBool false);
                       ("data", encodeQuery env
                          (VObj [("client_id", client_id);
                                 ("refresh_token", refresh_token);
                                 ("grant_type", VStr "refresh_token")]))]);
      ret (catch_
             (then_ p (fun response =>
                do body <- lift (get response "data");
                do token_type <- lift (get body "token_type");
                do body <- lift (get response "data");
                do token <- lift (get body "access_token");
                let access_token :=
                  add (string_to_number env)
                      (add (string_to_number env) token_type (VStr " "))
                      token in
                do body <- lift (get response "data");
                do refresh_token <- lift (get body "refresh_token");
                do body <- lift (get response "data");
                do expires_in <- lift (get body "expires_in");
                let expires :=
                  add (string_to_number env) expires_in (VNum (seconds ms)) in
                do body <- lift (get response "data");
                do scope <- lift (get body "scope");
                do name <- dot_name strategy;
                setToken env name access_token ;;
                do name <- dot_name strategy;
                setRefreshToken env name refresh_token ;;
                do name <- dot_name strategy;
                setTokenExpiration env name expires ;;
                do name <- dot_name strategy;
                setTokenScope env name scope ;;
                strategy_setToken env access_token ;;
                completeRequest endpoint defaults))
             (fun _ => completeRequest endpoint defaults))
    else completeRequest endpoint defaults).

(** [setUser] ends with [this.request(payload)]; the promise it returns
    is dropped, so what its handlers do belongs to a later turn and not
    to this call. *)
Definition setUser (user : value) : M unit :=
  setState "loggedIn" (Boolean user) ;;
  setState "user" user ;;
  let url := add (string_to_number env) (BASE_URL env)
                 (VStr "/api/users/update/") in
  do s <- strategy_dot env "name";
  do token <- getToken env (s_name s);
  do parts <- lift (split token "Bearer ");
  let access_token := nth_str 1 parts in
  do s <- strategy_dot env "name";
  do refresh_token <- getRefreshToken env (s_name s);
  do s <- strategy_dot env "name";
  do scope <- getTokenScope env (s_name s);
  do _ <- request
            (VObj [("method", VStr "post");
                   ("url", url);
                   ("data", VObj [("user", user);
                                  ("access_token", access_token);
                                  ("refresh_token", refresh_token);
                                  ("scope", scope)])])
            VUndefined;
  ret tt.

Definition reset (args : list value) : M Promise :=
  do s <- strategy_dot env "reset";
  match s_reset s with
  | None =>
      setUser (VBool false) ;;
      do name <- getState "strategy";
      setToken env name (VBool false) ;;
      do name <- getState "strategy";
      setRefreshToken env name (VBool false) ;;
      ret (resolved VUndefined)
  | Some h =>
      do p <- call_hook "reset" h args;
      ret (catch_ p (fun err =>
             callOnError env err "reset" ;;
             ret (rejected err)))
  end.

Definition logout (args : list value) : M Promise :=
  do s <- strategy_dot env "logout";
  match s_logout s with
  | None =>
      do _ <- reset [];
      ret (resolved VUndefined)
  | Some h =>
      do p <- call_hook "logout" h args;
      ret (catch_ p (fun err =>
             callOnError env err "logout" ;;
             ret (rejected err)))
  end.

(** The endpoint [requestWith] hands to [request]. *)
Definition requestWith_endpoint (token endpoint defaults : value)
  : M value :=
  let _endpoint := assign2 defaults endpoint in
  do headers <- lift (get _endpoint "headers");
  do _endpoint <-
    (if negb (truthy headers) then lift (set _endpoint "headers" (VObj []))
     else ret _endpoint);
  do headers <- lift (get _endpoint "headers");
  do authorization <- lift (get headers "Authorization");
  if negb (truthy authorization) && isSet env token && truthy token then
    do headers <- lift (set headers "Authorization" token);
    lift (set _endpoint "headers" headers)
  else ret _endpoint.

Definition requestWith (strategy endpoint defaults : value) : M Promise :=
  do token <- getToken env strategy;
  do _endpoint <- requestWith_endpoint token endpoint defaults;
  request _endpoint VUndefined.

End WithEnv.
End Core.

(* ===================================================================== *)
(** ** The second copy of [Auth], with [refreshToken] and [getDBAuth] *)
(* ===================================================================== *)

Module Alt.
Import JS Machine Engine.
Open Scope js_scope.

Section WithEnv.
Variable env : Env.

(** [if (!process.server) { $loading().what() }]. *)
Definition loading (what : string) : M unit :=
  if negb (process_server env) then
    if window_defined env then emit (EvLoading what)
    else throw (ReferenceError "window is not defined")
  else ret tt.

(** [updateUser] sends the profile synchronisation and drops its
    promise. *)
Definition updateUser (user : value) : M unit :=
  let url := add (string_to_number env) (BASE_URL env)
                 (VStr "/api/users/update/") in
  do s <- strategy_dot env "name";
  do token <- getToken env (s_name s);
  do parts <- lift (split token "Bearer ");
  let access_token := nth_str 1 parts in
  do s <- strategy_dot env "name";
  do refresh_token <- getRefreshToken env (s_name s);
  do s <- strategy_dot env "name";
  do scope <- getTokenScope env (s_name s);
  do _ <- axios_request env SiteProfile
            (VObj [("method", VStr "post");
                   ("url", url);
                   ("baseURL", VBool false);
                   ("data", VObj [("user", user);
                                  ("access_token", access_token);
                                  ("refresh_token", refresh_token);
                                  ("scope", scope)])]);
  ret tt.

Definition setUser (user : value) : M unit :=
  setState "loggedIn" (Boolean user) ;;
  setState "user" user ;;
  updateUser user.

Definition completeRequest (endpoint defaults : value) : M Promise :=
  let _endpoint := merged endpoint defaults in
  do p <- axios_request env SiteDispatch _endpoint;
  ret (then_ p (fun response =>
         loading "finish" ;;
         do propertyName <- lift (get _endpoint "propertyName");
         if truthy propertyName then
           do body <- lift (get response "data");
           ret (resolved (getProp env body propertyName))
         else
           do body <- lift (get response "data");
           ret (resolved body))).

Definition refreshToken : M Promise :=
  emit (EvCall "refreshToken") ;;
  do s <- strategy_dot env "options";
  do url <- lift (get (s_options s) "access_token_endpoint");
  do s <- strategy_dot env "options";
  do client_id <- lift (get (s_options s) "client_id");
  do s <- strategy_dot env "name";
  do refresh_token <- getRefreshToken env (s_name s);
  do p <- axios_request env SiteRefresh
            (VObj [("method", VStr "post");
                   ("url", url);
                   ("baseURL", VBool false);
                   ("headers",
                    VObj [("Content-Type",
                           VStr "application/x-www-form-urlencoded")]);
                   ("data", encodeQuery env
                      (VObj [("client_id", client_id);
                             ("refresh_token", refresh_token);
                             ("grant_type", VStr "refresh_token")]))]);
  ret (then_ p (fun response =>
         do _ <- now env;
         do body <- lift (get response "data");
         do token_type <- lift (get body "token_type");
         do body <- lift (get response "data");
         do token <- lift (get body "access_token");
         let accessToken :=
           add (string_to_number env)
               (add (string_to_number env) token_type (VStr " "))
               token in
         do body <- lift (get response "data");
         do refreshToken <- lift (get body "refresh_token");
         do body <- lift (get response "data");
         do expires_in <- lift (get body "expires_in");
         do ms <- now env;
         let expires :=
           add (string_to_number env)
               (mul (string_to_number env) expires_in (VNum 1000))
               (VNum ms) in
         do body <- lift (get response "data");
         do scope <- lift (get body "scope");
         do s <- strategy_dot env "name";
         setToken env (s_name s) accessToken ;;
         do s <- strategy_dot env "name";
         setRefreshToken env (s_name s) refreshToken ;;
         do s <- strategy_dot env "name";
         setTokenExpiration env (s_name s) expires ;;
         do s <- strategy_dot env "name";
         setTokenScope env (s_name s) scope ;;
         strategy_setToken env accessToken ;;
         do u <- user;
         updateUser u ;;
         ret (resolved VUndefined))).

Definition getDBAuth : M Promise :=
  emit (EvCall "getDBAuth") ;;
  do u <- user;
  if negb (truthy u) then ret (rejected VUndefined)
  else
    do u <- user;
    do user_id <- lift (get u "user_id");
    do p <- axios_request env SiteCredentials
              (VObj [("method", VStr "get");
                     ("url",
                      add (string_to_number env)
                          (add (string_to_number env) (BASE_URL env)
                               (VStr "/api/users/get/auth/?user_id="))
                          user_id);
                     ("baseURL", VBool false)]);
    ret (then_ p (fun auth =>
           do s <- strategy_dot env "name";
           do access_token <- lift (get auth "access_token");
           setToken env (s_name s) access_token ;;
           do s <- strategy_dot env "name";
           do refresh_token <- lift (get auth "refresh_token");
           setRefreshToken env (s_name s) refresh_token ;;
           do access_token <- lift (get auth "access_token");
           strategy_setToken env access_token ;;
           do p <- refreshToken;
           ret (then_ p (fun _ => ret (resolved VUndefined))))).

(** The handler both failure branches of [request] end with. *)
Definition report (err : value) : M Promise :=
  loading "fail" ;;
  callOnError env err "completeRequest" ;;
  ret (rejected err).

(** What [report] adds to the trace when nothing in it throws. *)
Definition report_events (err : value) : list Event :=
  (if negb (process_server env) then [EvLoading "fail"] else [])
  ++ notifications env err "completeRequest".

(** The trace ends with the report of [err]. *)
Definition reported (err : value) (t : list Event) : Prop :=
  exists before, t = (before ++ report_events err)%list.

(** [$loading()] can be evaluated wherever the code evaluates it. *)
Definition loading_returns : Prop :=
  process_server env = false -> window_defined env = true.

(** The pre-flight test of [request]; the clock is read only when the
    two stored values are truthy. *)
Definition expired (expiration refreshToken : value) : M bool :=
  if truthy expiration && truthy refreshToken then
    do ms <- now env;
    ret (num_ge (string_to_number env) ms expiration)
  else ret false.

(** Whether [request], entered on data [d] with the clock about to read
    [ms], takes the refresh branch for strategy [s]. *)
Definition stale (d : Data) (ms : Z) (s : Strategy) : bool :=
  truthy (universal d (expiration_key env (s_name s)))
  && truthy (universal d (refresh_token_key env (s_name s)))
  && num_ge (string_to_number env) ms
       (universal d (expiration_key env (s_name s))).

(** The branch of [request] for a refresh refused with status 400: "if
    the local token is expired, try db token". *)
Definition recovery (endpoint defaults : value) : M Promise :=
  do q <- getDBAuth;
  ret (catch_
         (then_ q (fun _ =>
            do r <- refreshToken;
            ret (then_ r (fun _ => completeRequest endpoint defaults))))
         report).

(** The [catch] handler [request] puts after the refresh and the
    dispatch that follows it. *)
Definition on_refresh_error (endpoint defaults : value) (err : value)
  : M Promise :=
  do response <- lift (get err "response");
  do status <- lift (get response "status");
  if loose_eq_num (string_to_number env) status 400
  then recovery endpoint defaults
  else report err.

Definition request (endpoint defaults : value) : M Promise :=
  async (
    do s <- strategy_dot env "name";
    do expiration <- getTokenExpiration env (s_name s);
    do s <- strategy_dot env "name";
    do refreshToken_ <- getRefreshToken env (s_name s);
    do stale <- expired expiration refreshToken_;
    if stale then
      do p <- refreshToken;
      ret (catch_
             (then_ p (fun _ => completeRequest endpoint defaults))
             (on_refresh_error endpoint defaults))
    else
      do p <- completeRequest endpoint defaults;
      ret (catch_ p report)).

(** [requestWith] reads the token and does not use it. *)
Definition requestWith (strategy endpoint defaults : value) : M Promise :=
  do token <- getToken env strategy;
  let _endpoint := assign2 defaults endpoint in
  do headers <- lift (get _endpoint "headers");
  do _endpoint <-
    (if negb (truthy headers) then lift (set _endpoint "headers" (VObj []))
     else ret _endpoint);
  request _endpoint VUndefined.

Definition reset (args : list value) : M Promise :=
  do s <- strategy_dot env "reset";
  match s_reset s with
  | None =>
      setUser (VBool false) ;;
      do name <- getState "strategy";
      setToken env name (VBool false) ;;
      do name <- getState "strategy";
      setRefreshToken env name (VBool false) ;;
      ret (resolved VUndefined)
  | Some h =>
      do p <- call_hook "reset" h args;
      ret (catch_ p (fun err =>
             callOnError env err "reset" ;;
             ret (rejected err)))
  end.

Definition logout (args : list value) : M Promise :=
  do s <- strategy_dot env "logout";
  match s_logout s with
  | None =>
      do _ <- reset [];
      ret (resolved VUndefined)
  | Some h =>
      do p <- call_hook "logout" h args;
      ret (catch_ p (fun err =>
             callOnError env err "logout" ;;
             ret (rejected err)))
  end.

End WithEnv.
End Alt.

(* ===================================================================== *)
(** ** What the properties observe *)
(* ===================================================================== *)

(** Projections of the trace and named pieces of the store, used to state
    the properties below. *)
Module Observe.
Import JS Machine Engine.

(** The navigations in a trace: router pushes and full-page replaces,
    each with its target. *)
Definition nav_target (e : Event) : option value :=
  match e with
  | EvCtxRedirect to => Some to
  | EvLocationReplace to => Some to
  | _ => None
  end.

Definition navigations (t : list Event) : list value := omap nav_target t.

(** The steps of the refresh protocol as they show in the trace. *)
Inductive Step : Type :=
| RefreshCall      (* [refreshToken()] entered *)
| Exchange         (* a request to the token endpoint *)
| RecoveryCall     (* [getDBAuth()] entered *)
| CredentialFetch  (* a request to the per-user credential endpoint *)
| Dispatch.        (* the caller's request *)

Definition step_of (e : Event) : option Step :=
  match e with
  | EvCall "refreshToken" => Some RefreshCall
  | EvCall "getDBAuth" => Some RecoveryCall
  | EvAxios SiteRefresh _ => Some Exchange
  | EvAxios SiteCredentials _ => Some CredentialFetch
  | EvAxios SiteDispatch _ => Some Dispatch
  | _ => None
  end.

Definition steps (t : list Event) : list Step := omap step_of t.

(** Everything [request] can do after a refresh refused with status 400,
    in order. *)
Definition recovery_script : list Step :=
  [RecoveryCall; CredentialFetch; RefreshCall; Exchange;
   RefreshCall; Exchange; Dispatch].




(** The store as [wrapLogin] leaves it when it returns, and as its
    handlers leave it when the login promise settles. *)
Definition bracket_open (d : Data) : Data :=
  mkData (<["busy" := VBool true]> (state d)) (persisted d) VNull (cookies d).

Definition bracket_close (d : Data) : Data :=
  mkData (<["busy" := VBool false]> (state d)) (persisted d) (error d)
         (cookies d).

(** [this.user]. *)
Definition cached_user (d : Data) : value :=
  default VUndefined (state d !! "user").

(** What [undefined.split(' ')] throws. *)
Definition split_error : value :=
  TypeError "Cannot read property 'split' of undefined".

(** The [Authorization] header of a request, if it can be read. *)
Definition authorization (req : value) : Res value :=
  match get req "headers" with
  | Ok headers => get headers "Authorization"
  | Throw e => Throw e
  end.

End Observe.

(* ===================================================================== *)
(** ** A concrete session *)
(* ===================================================================== *)

(** One configuration of the engine and a few stores, on which the model
    is run. *)
Module Examples.
Import JS Machine.

Definition ex_options : Options :=
  mkOptions "_token." "_refresh_token."
            (VObj [("login", VStr "/login"); ("home", VStr "/")])
            (VBool false) (VBool true).

(** An OAuth strategy without hooks of its own. *)
Definition ex_strategy : Strategy :=
  mkStrategy (VStr "social")
             (VObj [("access_token_endpoint", VStr "https://idp/token");
                    ("client_id", VStr "cid")])
             None None None None None (Some (fun _ d => d)).

(** A [login] that notes, on entry, the value of [busy] it finds, and
    returns a promise that resolves. *)
Definition ex_login : Hook :=
  fun _ d =>
    HReturn (fun d' => (Resolved VUndefined, d'))
            (mkData (<["busy_at_entry" :=
                         default VUndefined (state d !! "busy")]> (state d))
                    (persisted d) (error d) (cookies d)).

Definition ex_mounted : Hook :=
  fun _ d => HReturn (fun d' => (Resolved VUndefined, d')) d.

(** A password strategy with [mounted] and [login] hooks. *)
Definition ex_local : Strategy :=
  mkStrategy (VStr "local") (VObj [])
             (Some ex_mounted) (Some ex_login) None None None
             (Some (fun _ d => d)).

(** A strategy whose [login] is a plain function that throws. *)
Definition ex_broken : Strategy :=
  mkStrategy (VStr "broken") (VObj [])
             None (Some (fun _ d => HThrow (VStr "boom") d)) None None None
             None.

Definition ex_registry : gmap string Strategy :=
  {[ "social" := ex_strategy; "local" := ex_local; "broken" := ex_broken ]}.

(** A listener that returns. *)
Definition ex_listener : Listener := fun _ _ d => (None, d).

Definition ex_tokens : value :=
  VObj [("data",
         VObj [("token_type", VStr "Bearer");
               ("access_token", VStr "fresh");
               ("refresh_token", VStr "r2");
               ("expires_in", VNum 3600);
               ("scope", VStr "read write")])].

(** A transport that refuses the first request with status 400 and
    serves every later one: credentials, then tokens, then payloads. *)
Definition ex_transport (n : nat) (req : value) : Settle :=
  match n with
  | 0%nat => Rejected (VObj [("response", VObj [("status", VNum 400)])])
  | 1%nat =>
      Resolved (VObj [("access_token", VStr "Bearer db");
                      ("refresh_token", VStr "rdb")])
  | 2%nat | 4%nat => Resolved ex_tokens
  | _ => Resolved (VObj [("data", VStr "payload")])
  end.

(** A transport that serves every request. *)
Definition ex_serving (n : nat) (req : value) : Settle :=
  Resolved (VObj [("data", VStr "payload")]).

Definition ex_isSet (v : value) : bool := negb (nullish v).

Definition ex_isSameURL (a b : value) : bool := same_value_zero a b.

Definition ex_env_with (transport : nat -> value -> Settle) : Env :=
  mkEnv ex_options ex_registry [ex_listener]
        (VStr "/") (VStr "/?tab=1") (VStr "https://api")
        false true true
        ex_isSet (fun _ => false) ex_isSameURL (fun v => v) (fun o _ => o)
        decimal_to_number transport (fun n => 2000 + Z.of_nat n).

Definition ex_env : Env := ex_env_with ex_transport.

(** A signed-in session whose token expired long ago. *)
Definition ex_data : Data :=
  mkData {[ "strategy" := VStr "social";
            "user" := VObj [("user_id", VNum 7)];
            "loggedIn" := VBool true;
            "_token.social" := VStr "Bearer old";
            "_refresh_token.social" := VStr "r1";
            "_token.expiration.social" := VNum 1;
            "_token.scope.social" := VStr "read write" ]}
         ∅ VNull ∅.

Definition with_state (key : string) (v : value) (d : Data) : Data :=
  mkData (<[key := v]> (state d)) (persisted d) (error d) (cookies d).

Definition without_state (key : string) (d : Data) : Data :=
  mkData (delete key (state d)) (persisted d) (error d) (cookies d).

Definition world_of (d : Data) : World := mkWorld d [] 0.

Definition ex_world : World := world_of ex_data.

(** The same session with a token that expires in the far future. *)
Definition ex_fresh_world : World :=
  world_of (with_state "_token.expiration.social" (VNum 99999999999999)
                       ex_data).

(** The same session with no scope recorded, as after a sign-in that
    yields none. *)
Definition ex_unscoped_world : World :=
  world_of (without_state "_token.scope.social" ex_data).

(** Sessions under the other two strategies. *)
Definition ex_local_world : World :=
  world_of (with_state "strategy" (VStr "local") ex_data).

Definition ex_broken_world : World :=
  world_of (with_state "strategy" (VStr "broken") ex_data).

Definition ex_endpoint : value := VObj [("url", VStr "/me")].

End Examples.

(* ===================================================================== *)
(** ** Scripts: what a piece of the engine may add to the trace *)
(* ===================================================================== *)

(** A projection [proj] picks the events of interest; a script [c] lists
    them in order.  Code "runs [c] down to [r]" when, whatever the world,
    it only appends to the trace, the selected events it appends are the
    front of [c] and, if it completes, exactly [r] is left; if it throws
    or rejects it has added a prefix of [c]. *)
Module Script.
Import JS Machine Engine.
Open Scope js_scope.
Open Scope list_scope.

Section Script.
Context {X : Type} (proj : Event -> option X).

Definition skel (evs : list Event) : list X := omap proj evs.

Definition M_runs {A} (c r : list X) (post : A -> Prop) (m : M A) : Prop :=
  forall w, exists evs,
    trace (m w).2 = trace w ++ evs /\
    match (m w).1 with
    | Ok a => skel evs ++ r = c /\ post a
    | Throw _ => skel evs `prefix_of` c
    end.

Definition P_runs (c r : list X) (p : Promise) : Prop :=
  forall w, exists evs,
    trace (p w).2 = trace w ++ evs /\
    match (p w).1 with
    | Resolved _ => skel evs ++ r = c
    | Rejected _ => skel evs `prefix_of` c
    end.

(** A promise that adds nothing of interest and never resolves. *)
Definition P_fails (p : Promise) : Prop :=
  forall w, exists evs,
    trace (p w).2 = trace w ++ evs /\ skel evs = [] /\
    exists e, (p w).1 = Rejected e.

(** The same for a call that is awaited. *)
Definition A_runs (c r : list X) (m : M Promise) : Prop :=
  forall w, exists evs,
    trace (await m w).2 = trace w ++ evs /\
    match (await m w).1 with
    | Settled (Resolved _) => skel evs ++ r = c
    | _ => skel evs `prefix_of` c
    end.

(** Synchronous code that returns a promise, the two taken together:
    what is left of the script when the call returns is for the promise
    to run. *)
Definition MP_runs (c r : list X) (m : M Promise) : Prop :=
  forall w, exists evs,
    trace (m w).2 = trace w ++ evs /\
    match (m w).1 with
    | Ok p => exists r1, skel evs ++ r1 = c /\ P_runs r1 r p
    | Throw _ => skel evs `prefix_of` c
    end.

(** Synchronous code that adds nothing of interest and whose promise, if
    it returns one, never resolves: an error handler that rejects again. *)
Definition MP_fails (m : M Promise) : Prop :=
  forall w, exists evs,
    trace (m w).2 = trace w ++ evs /\ skel evs = [] /\
    match (m w).1 with
    | Ok p => P_fails p
    | Throw _ => True
    end.

End Script.

(** The projection that selects nothing: under it a script judgement says
    only that the trace grows. *)
Definition nothing (e : Event) : option Empty_set := None.

(** A promise that leaves the trace alone. *)
Definition P_silent (p : Promise) : Prop :=
  forall w, trace (p w).2 = trace w.

(** The postcondition that asks nothing. *)
Definition any {A : Type} : A -> Prop := fun _ => True.

End Script.

(* ===================================================================== *)
(** ** Registration, and the vocabulary of the further properties *)
(* ===================================================================== *)

Module Registry.
Import JS Machine Engine.

(** [onError(listener)]: [this._errorListeners.push(listener)]. *)
Definition onError (env : Env) (listener : Listener) : Env :=
  mkEnv (options env) (strategies env) (errorListeners env ++ [listener])
        (route_path env) (route_fullPath env) (BASE_URL env)
        (process_server env) (process_browser env) (window_defined env)
        (isSet env) (isRelativeURL env) (isSameURL env) (encodeQuery env)
        (getProp env) (string_to_number env) (axios env) (clock env).

(** [registerStrategy(name, strategy)]:
    [this.strategies[name] = strategy]. *)
Definition registerStrategy (env : Env) (name : value) (strategy : Strategy)
  : Env :=
  mkEnv (options env) (<[to_string name := strategy]> (strategies env))
        (errorListeners env)
        (route_path env) (route_fullPath env) (BASE_URL env)
        (process_server env) (process_browser env) (window_defined env)
        (isSet env) (isRelativeURL env) (isSameURL env) (encodeQuery env)
        (getProp env) (string_to_number env) (axios env) (clock env).

(** The engine on another page: [ctx.route] is the router's. *)
Definition at_route (env : Env) (path fullPath : value) : Env :=
  mkEnv (options env) (strategies env) (errorListeners env)
        path fullPath (BASE_URL env)
        (process_server env) (process_browser env) (window_defined env)
        (isSet env) (isRelativeURL env) (isSameURL env) (encodeQuery env)
        (getProp env) (string_to_number env) (axios env) (clock env).

End Registry.

Module Views.
Import JS Machine Engine Observe.
Open Scope js_scope.

(** What a call comes to that only hands over to a strategy hook: a throw
    of the hook escapes as it is; a promise it returns is awaited, its
    value passed on, its rejection delivered to the listeners under the
    method's name and raised again. *)
Definition delegated (env : Env) (name : string) (h : Hook)
    (args : list value) (w : World) (r : Outcome * World) : Prop :=
  let entered := (trace w ++ [EvHook name args])%list in
  match h args (data w) with
  | HThrow e d => r = (Threw e, mkWorld d entered (clock_reads w))
  | HReturn p d =>
      match p d with
      | (Resolved v, d') =>
          r = (Settled (Resolved v), mkWorld d' entered (clock_reads w))
      | (Rejected e, d') =>
          r.1 = Settled (Rejected e) /\
          trace r.2 = (entered ++ notifications env e name)%list
      end
  end.

(** The store after [this.error = error]. *)
Definition with_error (err : value) (d : Data) : Data :=
  mkData (state d) (persisted d) err (cookies d).

(** The store after the listeners [ls] have been called on it with the
    error and the payload, the first of the list first, each on the store
    the one before it left. *)
Definition heard (ls : list Listener) (err payload : value) (d : Data)
  : Data :=
  fold_left (fun d fn => (fn err payload d).2) ls d.

(** The world in which [setStrategy(name)] enters [mounted]. *)
Definition strategy_written (name : string) (w : World) : World :=
  mkWorld (mkData (<["strategy" := VStr name]> (state (data w)))
                  (<["strategy" := VStr name]> (persisted (data w)))
                  (error (data w)) (cookies (data w)))
          (trace w ++ [EvSetUniversal "strategy" (VStr name);
                       EvCall "mounted"])
          (clock_reads w).

(** The session [setUser(user)] leaves in the store. *)
Definition signed (u : value) (d : Data) : Data :=
  mkData (<["user" := u]> (<["loggedIn" := Boolean u]> (state d)))
         (persisted d) (error d) (cookies d).

(** The token records are kept apart from the session keys: both key
    prefixes start with an underscore, as the defaults ["_token."] and
    ["_refresh_token."] do. *)
Definition prefixed_keys (env : Env) : bool :=
  String.prefix "_" (token_prefix (options env))
  && String.prefix "_" (refresh_token_prefix (options env)).

Definition is_string (v : value) : bool :=
  match v with VStr _ => true | _ => false end.

(** Whether a string has a space in it. *)
Fixpoint has_space (s : string) : bool :=
  match s with
  | EmptyString => false
  | String c r => Ascii.eqb c " " || has_space r
  end.

(** What [redirect] may do to its collaborators: write the key
    ["redirect"], remove the cookie ["oauth-redirect"], navigate. *)
Definition redirect_event (replace_allowed : bool) (e : Event) : bool :=
  match e with
  | EvSetUniversal k _ => String.eqb k "redirect"
  | EvCookieRemove k => String.eqb k "oauth-redirect"
  | EvCtxRedirect _ => true
  | EvLocationReplace _ => replace_allowed
  | _ => false
  end.

(** The projection that selects what [allowed] rejects: a script that
    stays empty under it says that only allowed events are added. *)
Definition forbid (allowed : Event -> bool) (e : Event) : option Event :=
  if allowed e then None else Some e.

(** Code that leaves the store as it is. *)
Definition keeps {A} (m : M A) : Prop := forall w, data (m w).2 = data w.

(** The world after [$storage.setUniversal(key, v)]. *)
Definition written (key : string) (v : value) (w : World) : World :=
  mkWorld (mkData (<[key := v]> (state (data w)))
                  (<[key := v]> (persisted (data w)))
                  (error (data w)) (cookies (data w)))
          (trace w ++ [EvSetUniversal key v]) (clock_reads w).

(** The four records of a strategy have keys of their own. *)
Definition separate_records (env : Env) (n : value) : bool :=
  bool_decide (NoDup [token_key env n; refresh_token_key env n;
                      expiration_key env n; scope_key env n]).

(** The token the refresh protocol stores: [token_type + ' ' +
    access_token]. *)
Definition bearer (env : Env) (token_type access_token : value) : value :=
  add (string_to_number env)
      (add (string_to_number env) token_type (VStr " ")) access_token.

(** The request [refreshToken] sends for a given refresh token. *)
Definition exchange_request (env : Env) (s : Strategy) (refresh_token : value)
  : Res value :=
  match get (s_options s) "access_token_endpoint",
        get (s_options s) "client_id" with
  | Ok url, Ok client_id =>
      Ok (VObj [("method", VStr "post");
                ("url", url);
                ("baseURL", VBool false);
                ("headers",
                 VObj [("Content-Type",
                        VStr "application/x-www-form-urlencoded")]);
                ("data", encodeQuery env
                   (VObj [("client_id", client_id);
                          ("refresh_token", refresh_token);
                          ("grant_type", VStr "refresh_token")]))])
  | Throw e, _ => Throw e
  | _, Throw e => Throw e
  end.

(** The world the second copy's [refreshToken] leaves when the exchange
    [req] has been answered: the request has left, the clock has been read
    twice, the four records are written, the strategy has been given the
    token and the profile has been sent. *)
Definition refreshed (env : Env)
    (name token refresh_token expires scope req profile : value) (w : World)
  : World :=
  let sent :=
    mkWorld (data w)
            ((trace w ++ [EvCall "refreshToken"])
               ++ [EvAxios SiteRefresh req])%list
            (clock_reads w) in
  let w4 :=
    written (scope_key env name) scope
      (written (expiration_key env name) expires
         (written (refresh_token_key env name) refresh_token
            (written (token_key env name) token (tick (tick sent))))) in
  mkWorld (data w4)
          ((trace w4 ++ [EvSetTokenHook token])
             ++ [EvAxios SiteProfile profile])%list
          (clock_reads w4).


(** What [$loading()] throws where there is no [window]. *)
Definition window_error : value := ReferenceError "window is not defined".

Definition not_listener (e : Event) : bool :=
  match e with EvListener _ _ _ => false | _ => true end.

(** What [completeRequest] resolves with. *)
Definition payload (env : Env) (propertyName body : value) : value :=
  if truthy propertyName then getProp env body propertyName else body.

Section Sat.
Context {X : Type} (proj : Event -> option X).

(** An awaited call whose selected events, however it ends, satisfy
    [Q]. *)
Definition A_sat (Q : list X -> Prop) (m : M Promise) : Prop :=
  forall w, exists evs,
    trace (await m w).2 = (trace w ++ evs)%list /\
    Q (Script.skel proj evs).

End Sat.

Definition step_eqb (a b : Step) : bool :=
  match a, b with
  | RefreshCall, RefreshCall
  | Exchange, Exchange
  | RecoveryCall, RecoveryCall
  | CredentialFetch, CredentialFetch
  | Dispatch, Dispatch => true
  | _, _ => false
  end.

(** How often a step occurs. *)
Definition occurs (s : Step) (l : list Step) : nat :=
  length (filter (fun x => step_eqb s x = true) l).

(** The steps one call of the second copy's [request] can take: a direct
    dispatch; or the refresh protocol and the dispatch, followed, when
    that fails, by the recovery. *)
Definition alt_request_steps (l : list Step) : Prop :=
  l `prefix_of` [Dispatch] \/
  exists a b, l = (a ++ b)%list /\
    a `prefix_of` [RefreshCall; Exchange; Dispatch] /\
    b `prefix_of` recovery_script.

(** The same for [lib/core/auth.js]: a direct dispatch; or the exchange
    and the dispatch, followed, when that fails, by one more dispatch. *)
Definition core_request_steps (l : list Step) : Prop :=
  l `prefix_of` [Dispatch] \/
  exists a b, l = (a ++ b)%list /\
    a `prefix_of` [Exchange; Dispatch] /\
    b `prefix_of` [Dispatch].

End Views.
Module Compat.
Import JS Machine.
Open Scope js_scope.

(** The two flags of the backward-compatible accessors, and what has been
    written with [console.warn]. *)
Record Flags : Type := mkFlags {
  _state_warn_shown : bool;
  _get_state_warn_shown : bool;
  console : list string
}.

(** A new engine: the constructor sets neither flag. *)
Definition fresh : Flags := mkFlags false false [].

Definition state_warning : string :=
  "[AUTH] $auth.state is deprecated. Please use $auth.$state or top level props like $auth.loggedIn".

Definition getState_warning : string :=
  "[AUTH] $auth.getState is deprecated. Please use $auth.$storage.getState() or top level props like $auth.loggedIn".

(** [get state ()]. *)
Definition get_state (fl : Flags) : M (gmap string value * Flags) :=
  let fl :=
    if negb (_state_warn_shown fl)
    then mkFlags true (_get_state_warn_shown fl)
                 (console fl ++ [state_warning])
    else fl in
  do st <- read state;
  ret (st, fl).

(** [getState(key)]. *)
Definition getState (key : string) (fl : Flags) : M (value * Flags) :=
  let fl :=
    if negb (_get_state_warn_shown fl)
    then mkFlags (_state_warn_shown fl) true
                 (console fl ++ [getState_warning])
    else fl in
  do v <- Engine.getState key;
  ret (v, fl).

(** One use of either accessor. *)
Inductive Access : Type :=
| ReadState
| GetState (key : string).

(** The flags an accessor leaves. *)
Definition flags_after {A} (fl : Flags) (r : Res (A * Flags) * World)
  : Flags :=
  match r.1 with
  | Ok (_, fl') => fl'
  | Throw _ => fl
  end.

Definition access (w : World) (fl : Flags) (a : Access) : Flags :=
  match a with
  | ReadState => flags_after fl (get_state fl w)
  | GetState key => flags_after fl (getState key fl w)
  end.

Definition is_ReadState (a : Access) : bool :=
  match a with ReadState => true | _ => false end.

Definition is_GetState (a : Access) : bool :=
  match a with GetState _ => true | _ => false end.

End Compat.

(** Further sessions and collaborators for the examples. *)
Module Scenarios.
Import JS Machine Examples Registry.

(** A listener that throws. *)
Definition ex_throwing : Listener :=
  fun _ _ d => (Some (VStr "listener failed"), d).

(** A listener that adds its tag to the list it finds under ["heard"]. *)
Definition ex_noting (tag : string) : Listener :=
  fun _ _ d =>
    let before :=
      match state d !! "heard" with
      | Some (VArr tags) => tags
      | _ => []
      end in
    (None, with_state "heard" (VArr (before ++ [VStr tag])) d).

(** The listener of the examples, and after it two that note their
    tags. *)
Definition ex_noting_env : Env :=
  onError (onError ex_env (ex_noting "second")) (ex_noting "third").

(** The listeners of the examples, then one that throws, then one more
    that returns. *)
Definition ex_noisy_env : Env :=
  onError (onError ex_env ex_throwing) ex_listener.

(** A hook whose promise is rejected. *)
Definition ex_rejecting : Hook :=
  fun _ d => HReturn (fun d' => (Rejected (VStr "denied"), d')) d.

(** A strategy with hooks of its own for [mounted], [fetchUser], [logout]
    and [reset]. *)
Definition ex_hooked : Strategy :=
  mkStrategy (VStr "hooked") (VObj [])
             (Some ex_mounted) None (Some ex_rejecting) (Some ex_mounted)
             (Some ex_rejecting) None.

Definition ex_hooked_env : Env :=
  registerStrategy ex_env (VStr "hooked") ex_hooked.

Definition ex_hooked_world : World :=
  world_of (with_state "strategy" (VStr "hooked") ex_data).

(** [isRelativeURL] on the paths of the examples. *)
Definition ex_isRelativeURL (v : value) : bool :=
  match v with
  | VStr (String "/" _) => true
  | _ => false
  end.

(** A visitor on the profile page, in the browser. *)
Definition ex_page_env : Env :=
  mkEnv ex_options ex_registry [ex_listener]
        (VStr "/profile") (VStr "/profile?tab=1") (VStr "https://api")
        false true true
        ex_isSet ex_isRelativeURL ex_isSameURL (fun v => v) (fun o _ => o)
        decimal_to_number ex_serving (fun n => 2000 + Z.of_nat n).

(** The engine of the examples on the server, where there is no
    [window]. *)
Definition ex_server_env : Env :=
  mkEnv ex_options ex_registry [ex_listener]
        (VStr "/") (VStr "/?tab=1") (VStr "https://api")
        true false false
        ex_isSet (fun _ => false) ex_isSameURL (fun v => v) (fun o _ => o)
        decimal_to_number ex_serving (fun n => 2000 + Z.of_nat n).

(** A transport that is down: no request gets a response. *)
Definition ex_offline (n : nat) (req : value) : Settle :=
  Rejected (VObj [("message", VStr "Network Error")]).

(** A token endpoint that issues tokens for every request. *)
Definition ex_issuing (n : nat) (req : value) : Settle :=
  Resolved ex_tokens.

(** A transport that answers every request with stored credentials. *)
Definition ex_granting (n : nat) (req : value) : Settle :=
  Resolved (VObj [("access_token", VStr "Bearer db");
                  ("refresh_token", VStr "rdb")]).

Definition ex_defaults : value :=
  VObj [("method", VStr "get"); ("url", VStr "/default")].

(** The engine of the examples, every request served, when the clock
    reaches [2^31] seconds after the epoch: 03:14:08 UTC on 19 January
    2038. *)
Definition ex_env_2038 : Env :=
  mkEnv ex_options ex_registry [ex_listener]
        (VStr "/") (VStr "/?tab=1") (VStr "https://api")
        false true true
        ex_isSet (fun _ => false) ex_isSameURL (fun v => v) (fun o _ => o)
        decimal_to_number ex_issuing
        (fun n => 2147483648000 + Z.of_nat n).

(** The session of the examples with a token that expired in November
    2023. *)
Definition ex_lapsed_world : World :=
  world_of (with_state "_token.expiration.social" (VNum 1700000000)
                       ex_data).

End Scenarios.

(* ===================================================================== *)
(** ** Laws of scripts *)
(* ===================================================================== *)

Module Laws.
Import JS Machine Engine Script.
Open Scope js_scope.
Open Scope list_scope.

Section Laws.
Context {X : Type} (proj : Event -> option X).

Abbreviation skel := (Script.skel proj).
Abbreviation M_runs := (Script.M_runs proj).
Abbreviation P_runs := (Script.P_runs proj).
Abbreviation P_fails := (Script.P_fails proj).
Abbreviation A_runs := (Script.A_runs proj).
Abbreviation MP_runs := (Script.MP_runs proj).
Abbreviation MP_fails := (Script.MP_fails proj).

Lemma skel_app a b : skel (a ++ b) = skel a ++ skel b.
Proof. apply omap_app. Qed.

Lemma prefix_of_rest (a r c : list X) : a ++ r = c -> a `prefix_of` c.
Proof. intros <-. by exists r. Qed.

Lemma prefix_step (a b r c : list X) :
  a ++ r = c -> b `prefix_of` r -> a ++ b `prefix_of` c.
Proof. intros <- Hb. by apply prefix_app. Qed.

(** *** Synchronous code *)

Lemma M_ret {A} (c : list X) (post : A -> Prop) a :
  post a -> M_runs c c post (ret a).
Proof. intros Hp w. exists []. simpl. by rewrite app_nil_r. Qed.

Lemma M_throw {A} (c r : list X) (post : A -> Prop) e :
  M_runs c r post (throw e).
Proof.
  intros w. exists []. simpl. rewrite app_nil_r. split; [done|].
  apply prefix_nil.
Qed.

Lemma M_lift {A} (c : list X) (post : A -> Prop) (x : Res A) :
  (forall a, x = Ok a -> post a) -> M_runs c c post (lift x).
Proof.
  intros Hp w. exists []. simpl. rewrite app_nil_r. split; [done|].
  destruct x; simpl; [auto | apply prefix_nil].
Qed.

Lemma M_read {B} (c : list X) (post : B -> Prop) (f : Data -> B) :
  (forall d, post (f d)) -> M_runs c c post (read f).
Proof. intros Hp w. exists []. simpl. by rewrite app_nil_r. Qed.

Lemma M_modify (c : list X) (post : unit -> Prop) f :
  post tt -> M_runs c c post (modify f).
Proof. intros Hp w. exists []. simpl. by rewrite app_nil_r. Qed.

Lemma M_emit_skip (c : list X) (post : unit -> Prop) e :
  proj e = None -> post tt -> M_runs c c post (emit e).
Proof.
  intros He Hp w. exists [e]. simpl. split; [done|].
  unfold skel. simpl. by rewrite He.
Qed.

Lemma M_emit_take (c : list X) (post : unit -> Prop) e x :
  proj e = Some x -> post tt -> M_runs (x :: c) c post (emit e).
Proof.
  intros He Hp w. exists [e]. simpl. split; [done|].
  unfold skel. simpl. by rewrite He.
Qed.

Lemma M_bind {A B} (c r1 r2 : list X) (post1 : A -> Prop)
      (post2 : B -> Prop) (m : M A) (k : A -> M B) :
  M_runs c r1 post1 m ->
  (forall a, post1 a -> M_runs r1 r2 post2 (k a)) ->
  M_runs c r2 post2 (bind m k).
Proof.
  intros Hm Hk w. unfold bind.
  destruct (Hm w) as (evs1 & Ht1 & H1).
  destruct (m w) as [[a|e] w1]; simpl in *.
  - destruct H1 as [Hs1 Hp1].
    destruct (Hk a Hp1 w1) as (evs2 & Ht2 & H2).
    exists (evs1 ++ evs2). rewrite Ht2, Ht1, app_assoc. split; [done|].
    rewrite skel_app.
    destruct ((k a w1).1) as [b|e]; simpl in *.
    + destruct H2 as [Hs2 Hp2]. split; [|done].
      by rewrite <- app_assoc, Hs2.
    + by eapply prefix_step.
  - by exists evs1.
Qed.

Lemma M_post {A} (c r : list X) (post post' : A -> Prop) (m : M A) :
  M_runs c r post m -> (forall a, post a -> post' a) ->
  M_runs c r post' m.
Proof.
  intros Hm Himp w. destruct (Hm w) as (evs & Ht & H).
  exists evs. split; [done|].
  destruct ((m w).1); [|done]. destruct H. auto.
Qed.

(** *** Promises *)

Lemma P_resolved (c : list X) v : P_runs c c (resolved v).
Proof. intros w. exists []. simpl. by rewrite app_nil_r. Qed.

Lemma P_rejected (c r : list X) e : P_runs c r (rejected e).
Proof.
  intros w. exists []. simpl. rewrite app_nil_r. split; [done|].
  apply prefix_nil.
Qed.

Lemma P_fails_rejected e : P_fails (rejected e).
Proof. intros w. exists []. simpl. rewrite app_nil_r. eauto. Qed.

Lemma P_then (c r1 r2 r3 : list X) (p : Promise) (f : value -> M Promise) :
  P_runs c r1 p ->
  (forall v, M_runs r1 r2 (P_runs r2 r3) (f v)) ->
  P_runs c r3 (then_ p f).
Proof.
  intros Hp Hf w. unfold then_.
  destruct (Hp w) as (evs1 & Ht1 & H1).
  destruct (p w) as [[v|e] w1]; simpl in *; [|by exists evs1].
  destruct (Hf v w1) as (evs2 & Ht2 & H2).
  destruct (f v w1) as [[q|e] w2]; simpl in *.
  - destruct H2 as [Hs2 Hq].
    destruct (Hq w2) as (evs3 & Ht3 & H3).
    exists (evs1 ++ evs2 ++ evs3).
    rewrite Ht3, Ht2, Ht1, <- !app_assoc. split; [done|].
    rewrite !skel_app.
    destruct (q w2) as [[v'|e'] w3]; simpl in *.
    + by rewrite <- !app_assoc, H3, Hs2.
    + eapply prefix_step; [done|]. by eapply prefix_step.
  - exists (evs1 ++ evs2). rewrite Ht2, Ht1, app_assoc. split; [done|].
    rewrite skel_app. by eapply prefix_step.
Qed.

(** A handler that reports and rejects again leaves the script of the
    promise it guards as it is. *)
Lemma P_catch (c r : list X) (p : Promise) (f : value -> M Promise) :
  P_runs c r p ->
  (forall e, MP_fails (f e)) ->
  P_runs c r (catch_ p f).
Proof.
  intros Hp Hf w. unfold catch_.
  destruct (Hp w) as (evs1 & Ht1 & H1).
  destruct (p w) as [[v|e] w1]; simpl in *; [by exists evs1|].
  destruct (Hf e w1) as (evs2 & Ht2 & Hs2 & H2).
  destruct (f e w1) as [[q|e'] w2]; simpl in *.
  - destruct (H2 w2) as (evs3 & Ht3 & Hs3 & e3 & He3).
    exists (evs1 ++ evs2 ++ evs3).
    rewrite Ht3, Ht2, Ht1, <- !app_assoc. split; [done|].
    destruct (q w2) as [s w3]; simpl in *. subst s.
    by rewrite !skel_app, Hs3, Hs2, !app_nil_r.
  - exists (evs1 ++ evs2). rewrite Ht2, Ht1, app_assoc. split; [done|].
    by rewrite skel_app, Hs2, app_nil_r.
Qed.

(** *** Synchronous code that returns a promise *)

Lemma MP_of_M (c r1 r : list X) (m : M Promise) :
  M_runs c r1 (P_runs r1 r) m -> MP_runs c r m.
Proof.
  intros Hm w. destruct (Hm w) as (evs & Ht & H). exists evs.
  split; [done|]. destruct ((m w).1); [|done].
  destruct H. by exists r1.
Qed.

Lemma MP_ret (c r : list X) p : P_runs c r p -> MP_runs c r (ret p).
Proof.
  intros Hp w. exists []. simpl. rewrite app_nil_r. split; [done|].
  by exists c.
Qed.

Lemma MP_throw (c r : list X) e : MP_runs c r (throw e).
Proof.
  intros w. exists []. simpl. rewrite app_nil_r. split; [done|].
  apply prefix_nil.
Qed.

Lemma MP_bind {A} (c r1 r : list X) (post : A -> Prop)
      (m : M A) (k : A -> M Promise) :
  M_runs c r1 post m ->
  (forall a, post a -> MP_runs r1 r (k a)) ->
  MP_runs c r (bind m k).
Proof.
  intros Hm Hk w. unfold bind.
  destruct (Hm w) as (evs1 & Ht1 & H1).
  destruct (m w) as [[a|e] w1]; simpl in *; [|by exists evs1].
  destruct H1 as [Hs1 Hp1].
  destruct (Hk a Hp1 w1) as (evs2 & Ht2 & H2).
  exists (evs1 ++ evs2). rewrite Ht2, Ht1, app_assoc. split; [done|].
  rewrite skel_app.
  destruct ((k a w1).1) as [p|e]; simpl in *.
  - destruct H2 as (r2 & Hs2 & Hp). exists r2. split; [|done].
    by rewrite <- app_assoc, Hs2.
  - by eapply prefix_step.
Qed.

Lemma MP_bind_MP (c r1 r : list X) (m : M Promise)
      (k : Promise -> M Promise) :
  MP_runs c r1 m ->
  (forall p r0, P_runs r0 r1 p -> MP_runs r0 r (k p)) ->
  MP_runs c r (bind m k).
Proof.
  intros Hm Hk w. unfold bind.
  destruct (Hm w) as (evs1 & Ht1 & H1).
  destruct (m w) as [[p|e] w1]; simpl in *; [|by exists evs1].
  destruct H1 as (r0 & Hs1 & Hp).
  destruct (Hk p r0 Hp w1) as (evs2 & Ht2 & H2).
  exists (evs1 ++ evs2). rewrite Ht2, Ht1, app_assoc. split; [done|].
  rewrite skel_app.
  destruct ((k p w1).1) as [q|e]; simpl in *.
  - destruct H2 as (r2 & Hs2 & Hq). exists r2. split; [|done].
    by rewrite <- app_assoc, Hs2.
  - by eapply prefix_step.
Qed.

Lemma P_then_MP (c r1 r : list X) (p : Promise) (f : value -> M Promise) :
  P_runs c r1 p ->
  (forall v, MP_runs r1 r (f v)) ->
  P_runs c r (then_ p f).
Proof.
  intros Hp Hf w. unfold then_.
  destruct (Hp w) as (evs1 & Ht1 & H1).
  destruct (p w) as [[v|e] w1]; simpl in *; [|by exists evs1].
  destruct (Hf v w1) as (evs2 & Ht2 & H2).
  destruct (f v w1) as [[q|e] w2]; simpl in *.
  - destruct H2 as (r2 & Hs2 & Hq).
    destruct (Hq w2) as (evs3 & Ht3 & H3).
    exists (evs1 ++ evs2 ++ evs3).
    rewrite Ht3, Ht2, Ht1, <- !app_assoc. split; [done|].
    rewrite !skel_app.
    destruct (q w2) as [[v'|e'] w3]; simpl in *.
    + by rewrite <- !app_assoc, H3, Hs2.
    + eapply prefix_step; [done|]. by eapply prefix_step.
  - exists (evs1 ++ evs2). rewrite Ht2, Ht1, app_assoc. split; [done|].
    rewrite skel_app. by eapply prefix_step.
Qed.

Lemma MP_fails_bind {A} (post : A -> Prop) (m : M A) (k : A -> M Promise) :
  M_runs [] [] post m ->
  (forall a, post a -> MP_fails (k a)) ->
  MP_fails (bind m k).
Proof.
  intros Hm Hk w. unfold bind.
  destruct (Hm w) as (evs1 & Ht1 & H1).
  destruct (m w) as [[a|e] w1]; simpl in *.
  - destruct H1 as [Hs1 Hp1]. rewrite app_nil_r in Hs1.
    destruct (Hk a Hp1 w1) as (evs2 & Ht2 & Hs2 & H2).
    exists (evs1 ++ evs2). rewrite Ht2, Ht1, app_assoc. split; [done|].
    by rewrite skel_app, Hs1, Hs2.
  - exists evs1. split; [done|]. split; [|done]. by apply prefix_nil_inv.
Qed.

Lemma MP_fails_ret e : MP_fails (ret (rejected e)).
Proof.
  intros w. exists []. simpl. rewrite app_nil_r.
  split; [done|]. split; [done|]. apply P_fails_rejected.
Qed.

(** *** Awaited calls *)

Lemma A_of_MP (c r : list X) (m : M Promise) :
  MP_runs c r m -> A_runs c r m.
Proof.
  intros Hm w. unfold await.
  destruct (Hm w) as (evs1 & Ht1 & H1).
  destruct (m w) as [[p|e] w1]; simpl in *; [|by exists evs1].
  destruct H1 as (r1 & Hs1 & Hp).
  destruct (Hp w1) as (evs2 & Ht2 & H2).
  destruct (p w1) as [s w2]; simpl in *.
  exists (evs1 ++ evs2). rewrite Ht2, Ht1, app_assoc. split; [done|].
  rewrite skel_app. destruct s.
  - by rewrite <- app_assoc, H2.
  - by eapply prefix_step.
Qed.

Lemma A_async (c r : list X) (body : M Promise) :
  A_runs c r body -> A_runs c r (async body).
Proof.
  intros Hb w. specialize (Hb w). unfold await, async in *.
  destruct (body w) as [[p|e] w1]; simpl in *; done.
Qed.

(** *** Growth: the empty script under any projection *)

(** With the script empty on both sides nothing of interest may be added;
    a handler of any kind then keeps a guarded promise so. *)
Lemma P_catch_quiet (p : Promise) (f : value -> M Promise) :
  P_runs [] [] p ->
  (forall e, MP_runs [] [] (f e)) ->
  P_runs [] [] (catch_ p f).
Proof.
  intros Hp Hf w. unfold catch_.
  destruct (Hp w) as (evs1 & Ht1 & H1).
  destruct (p w) as [[v|e] w1]; simpl in *; [by exists evs1|].
  apply prefix_nil_inv in H1.
  destruct (Hf e w1) as (evs2 & Ht2 & H2).
  destruct (f e w1) as [[q|e'] w2]; simpl in *.
  - destruct H2 as (r2 & Hs2 & Hq).
    apply app_eq_nil in Hs2 as [Hs2 ->].
    destruct (Hq w2) as (evs3 & Ht3 & H3).
    exists (evs1 ++ evs2 ++ evs3).
    rewrite Ht3, Ht2, Ht1, <- !app_assoc. split; [done|].
    rewrite !skel_app, H1, Hs2. simpl.
    destruct (q w2) as [[v'|e''] w3]; simpl in *; done.
  - exists (evs1 ++ evs2). rewrite Ht2, Ht1, app_assoc. split; [done|].
    by rewrite skel_app, H1.
Qed.

(** What a script leaves in the trace of an awaited call. *)
Lemma A_runs_trace (c : list X) (m : M Promise) w :
  A_runs c [] m ->
  exists evs,
    trace (await m w).2 = trace w ++ evs /\ skel evs `prefix_of` c.
Proof.
  intros Hm. destruct (Hm w) as (evs & Ht & H). exists evs.
  split; [done|].
  destruct ((await m w).1) as [e|[v|e]]; try done.
  eapply prefix_of_rest. exact H.
Qed.

End Laws.

Lemma skel_nothing evs : skel nothing evs = [].
Proof. induction evs; simpl; done. Qed.

Lemma P_grows {X} (proj : Event -> option X) c r p :
  P_runs proj c r p -> P_runs nothing [] [] p.
Proof.
  intros Hp w. destruct (Hp w) as (evs & Ht & _). exists evs.
  split; [done|]. rewrite skel_nothing. by destruct ((p w).1).
Qed.

Lemma P_fails_grows {X} (proj : Event -> option X) p :
  P_fails proj p -> P_runs nothing [] [] p.
Proof.
  intros Hp w. destruct (Hp w) as (evs & Ht & _). exists evs.
  split; [done|]. rewrite skel_nothing. by destruct ((p w).1).
Qed.

Lemma MP_grows {X} (proj : Event -> option X) c r m :
  MP_runs proj c r m -> MP_runs nothing [] [] m.
Proof.
  intros Hm w. destruct (Hm w) as (evs & Ht & H). exists evs.
  split; [done|]. rewrite skel_nothing.
  destruct ((m w).1); [|done]. destruct H as (r1 & _ & Hp).
  exists []. split; [done|]. by eapply P_grows.
Qed.

Lemma MP_fails_grows {X} (proj : Event -> option X) m :
  MP_fails proj m -> MP_runs nothing [] [] m.
Proof.
  intros Hm w. destruct (Hm w) as (evs & Ht & _ & H). exists evs.
  split; [done|]. rewrite skel_nothing.
  destruct ((m w).1); [|done].
  exists []. split; [done|]. by eapply P_fails_grows.
Qed.

Lemma P_grows_trace p w :
  P_runs nothing [] [] p -> exists evs, trace (p w).2 = trace w ++ evs.
Proof. intros Hp. destruct (Hp w) as (evs & Ht & _). by exists evs. Qed.

End Laws.

(** Rules for the pieces of the engine that are written as functions of
    the world, and the proof steps that follow the shape of the code. *)
Module Rules.
Import JS Machine Engine Script Laws.
Open Scope js_scope.
Open Scope list_scope.

Create HintDb engine discriminated.
#[export] Hint Unfold
  getState setState getUniversal setUniversal strategy strategy_dot
  strategy_setToken callOnError payload_of
  getToken setToken getRefreshToken setRefreshToken
  getTokenExpiration setTokenExpiration getTokenScope setTokenScope
  user loggedIn busy cookie_get cookie_remove : engine.

(** Evaluating a prefix of a method on a given world. *)
Lemma bind_Ok {A B} (m : M A) (k : A -> M B) w a w' :
  m w = (Ok a, w') -> bind m k w = k a w'.
Proof. intros H. unfold bind. by rewrite H. Qed.

Lemma await_eq (m m' : M Promise) w w' :
  m w = m' w' -> await m w = await m' w'.
Proof. unfold await. by intros ->. Qed.

Lemma strategy_active env w :
  strategy env w = (Ok (active env (data w)), w).
Proof. reflexivity. Qed.

Lemma strategy_dot_active env prop w s :
  active env (data w) = Some s -> strategy_dot env prop w = (Ok s, w).
Proof.
  intros H. unfold strategy_dot. erewrite bind_Ok by apply strategy_active.
  by rewrite H.
Qed.

Lemma get_ok o k : nullish o = false -> exists v, get o k = Ok v.
Proof. destruct o; simpl; try done; eauto. Qed.

Lemma requests_sent_app t1 t2 :
  requests_sent (t1 ++ t2) = (requests_sent t1 + requests_sent t2)%nat.
Proof. unfold requests_sent. by rewrite filter_app, length_app. Qed.

Lemma callListeners_returns ls : forall i err payload w,
  (forall fn e p d, In fn ls -> (fn e p d).1 = None) ->
  exists w',
    callListeners i ls err payload w = (Ok tt, w') /\
    trace w' = trace w ++ deliveries i ls err payload /\
    clock_reads w' = clock_reads w.
Proof.
  induction ls as [|fn ls IH]; intros i err payload w Hok.
  - exists w. simpl. by rewrite app_nil_r.
  - simpl. erewrite bind_Ok by reflexivity.
    pose proof (Hok fn err payload (data w) (or_introl eq_refl)) as Hfn.
    unfold bind at 1. simpl.
    destruct (fn err payload (data w)) as [[e|] d]; [done|]. simpl.
    destruct (IH (S i) err payload
                 (with_data d
                    (mkWorld (data w) (trace w ++ [EvListener i err payload])
                             (clock_reads w))))
      as (w' & -> & Ht & Hc).
    { intros. apply Hok. by right. }
    exists w'. split; [done|]. split; [|done].
    rewrite Ht. simpl. rewrite <- app_assoc. simpl.
    unfold deliveries. simpl. rewrite Nat.add_0_r. do 2 f_equal.
    apply imap_ext. intros. simpl. f_equal. lia.
Qed.

Lemma callOnError_returns env err method w :
  listeners_return env ->
  exists w',
    callOnError env err method w = (Ok tt, w') /\
    trace w' = trace w ++ notifications env err method.
Proof.
  intros Hok. unfold callOnError. erewrite bind_Ok by reflexivity.
  destruct (callListeners_returns (errorListeners env) 0 err (payload_of method)
    (with_data (mkData (state (data w)) (persisted (data w)) err
                       (cookies (data w))) w) Hok)
    as (w' & Heq & Ht & _).
  exists w'. split; [exact Heq|]. by rewrite Ht.
Qed.

Lemma truthy_not_nullish v : truthy v = true -> nullish v = false.
Proof. by destruct v. Qed.

Lemma assoc_put_eq k v fs : assoc k (put k v fs) = Some v.
Proof.
  induction fs as [|[k' v'] fs IH]; simpl.
  - by rewrite String.eqb_refl.
  - destruct (String.eqb k k') eqn:Hk; simpl.
    + by rewrite String.eqb_refl.
    + by rewrite Hk.
Qed.

Section Rules.
Context {X : Type} (proj : Event -> option X).

Abbreviation M_runs := (Script.M_runs proj).
Abbreviation P_runs := (Script.P_runs proj).
Abbreviation P_fails := (Script.P_fails proj).
Abbreviation A_runs := (Script.A_runs proj).

Lemma M_ret' {A} (c : list X) (a : A) : M_runs c c any (ret a).
Proof. by apply M_ret. Qed.

Lemma M_lift' {A} (c : list X) (x : Res A) : M_runs c c any (lift x).
Proof. by apply M_lift. Qed.

Lemma M_read' {A} (c : list X) (f : Data -> A) : M_runs c c any (read f).
Proof. by apply M_read. Qed.

Lemma M_modify' (c : list X) f : M_runs c c any (modify f).
Proof. by apply M_modify. Qed.

Lemma M_skip' (c : list X) e : proj e = None -> M_runs c c any (emit e).
Proof. intros. by apply M_emit_skip. Qed.

Lemma M_take' (c : list X) e x :
  proj e = Some x -> M_runs (x :: c) c any (emit e).
Proof. intros. by eapply M_emit_take. Qed.

Lemma M_bind' {A B} (c r1 r2 : list X) (post : B -> Prop)
      (m : M A) (k : A -> M B) :
  M_runs c r1 any m ->
  (forall a, M_runs r1 r2 post (k a)) ->
  M_runs c r2 post (bind m k).
Proof. intros Hm Hk. eapply M_bind; [exact Hm | auto]. Qed.

Lemma M_any {A} (c r : list X) (post : A -> Prop) (m : M A) :
  M_runs c r post m -> M_runs c r any m.
Proof. intros Hm. eapply M_post; [exact Hm | done]. Qed.

Lemma MP_bind' {A} (c r1 r : list X) (m : M A) (k : A -> M Promise) :
  M_runs c r1 any m ->
  (forall a, Script.MP_runs proj r1 r (k a)) ->
  Script.MP_runs proj c r (bind m k).
Proof. intros Hm Hk. eapply MP_bind; [exact Hm | auto]. Qed.

Lemma MP_fails_bind' {A} (m : M A) (k : A -> M Promise) :
  M_runs [] [] any m ->
  (forall a, Script.MP_fails proj (k a)) ->
  Script.MP_fails proj (bind m k).
Proof. intros Hm Hk. eapply MP_fails_bind; [exact Hm | auto]. Qed.

Lemma M_now (c : list X) env : M_runs c c any (now env).
Proof. intros w. exists []. simpl. by rewrite app_nil_r. Qed.

Lemma P_silent_runs (c : list X) p : P_silent p -> P_runs c c p.
Proof.
  intros Hp w. exists []. rewrite Hp, app_nil_r. split; [done|].
  destruct ((p w).1); simpl; [done | apply prefix_nil].
Qed.

Lemma P_silent_promise_of p : P_silent (promise_of p).
Proof. intros w. unfold promise_of. by destruct (p (data w)). Qed.

Lemma M_axios_skip (c : list X) env site req :
  proj (EvAxios site req) = None ->
  M_runs c c P_silent (axios_request env site req).
Proof.
  intros He w. exists [EvAxios site req]. simpl. split; [done|].
  unfold skel. simpl. by rewrite He.
Qed.

Lemma M_axios_take (c : list X) env site req x :
  proj (EvAxios site req) = Some x ->
  M_runs (x :: c) c P_silent (axios_request env site req).
Proof.
  intros He w. exists [EvAxios site req]. simpl. split; [done|].
  unfold skel. simpl. by rewrite He.
Qed.

Lemma M_call_hook (c : list X) name h args :
  proj (EvHook name args) = None ->
  M_runs c c P_silent (call_hook name h args).
Proof.
  intros He. unfold call_hook.
  eapply M_bind'; [by apply M_skip'|]. intros _ w.
  exists []. rewrite app_nil_r.
  destruct (h args (data w)); simpl; split; try done.
  - apply prefix_nil.
  - split; [done | apply P_silent_promise_of].
Qed.

Lemma M_listener (c : list X) (fn : Listener) err payload :
  M_runs c c any
    (fun w => match fn err payload (data w) with
              | (None, d) => (Ok tt, with_data d w)
              | (Some e, d) => (Throw e, with_data d w)
              end).
Proof.
  intros w. exists []. rewrite app_nil_r.
  destruct (fn err payload (data w)) as [[e|] d]; simpl; split; try done.
  apply prefix_nil.
Qed.

Lemma M_callListeners (c : list X) ls : forall i err payload,
  (forall i, proj (EvListener i err payload) = None) ->
  M_runs c c any (callListeners i ls err payload).
Proof.
  induction ls as [|fn ls IH]; intros i err payload Hp; simpl.
  - apply M_ret'.
  - eapply M_bind'; [by apply M_skip'|]. intros _.
    eapply M_bind'; [apply M_listener|]. intros _. by apply IH.
Qed.

Lemma M_call_hook_take (c : list X) name h args x :
  proj (EvHook name args) = Some x ->
  M_runs (x :: c) c P_silent (call_hook name h args).
Proof.
  intros He. unfold call_hook.
  eapply M_bind'; [by eapply M_take'|]. intros _ w.
  exists []. rewrite app_nil_r.
  destruct (h args (data w)); simpl; split; try done.
  - apply prefix_nil.
  - split; [done | apply P_silent_promise_of].
Qed.


End Rules.

(** One step of a script proof: pick the rule by the shape of the code.
    Lemmas about whole methods are taken from the hint database
    [script]. *)
Create HintDb script discriminated.

Ltac case_code m :=
  lazymatch m with
  | (if ?b then _ else _) => destruct b
  | (match ?x with _ => _ end) => destruct x
  end.

Ltac run_step :=
  lazymatch goal with
  | |- Script.M_runs _ _ _ _ ?m =>
      first
        [ apply M_ret'
        | apply M_throw
        | apply M_lift'
        | apply M_read'
        | apply M_modify'
        | apply M_now
        | apply M_skip'; reflexivity
        | eapply M_take'; reflexivity
        | apply M_callListeners; intros; reflexivity
        | apply M_listener
        | solve [eauto 2 with script]
        | eapply M_bind'; [ | intros ? ]
        | case_code m
        | progress autounfold with engine ]
  | |- Script.MP_runs _ _ _ ?m =>
      first
        [ apply MP_throw
        | solve [eauto 2 with script]
        | eapply MP_bind_MP; [ solve [eauto 2 with script] | intros ? ? ? ]
        | eapply MP_bind;
          [ first [ eapply M_axios_skip; reflexivity
                  | eapply M_axios_take; reflexivity
                  | apply M_call_hook; reflexivity ]
          | intros ? ? ]
        | eapply MP_bind'; [ | intros ? ]
        | apply MP_ret
        | case_code m
        | progress autounfold with engine ]
  | |- Script.P_runs _ _ _ ?p =>
      first
        [ apply P_resolved
        | apply P_rejected
        | eassumption
        | apply P_silent_runs; first [ assumption | intros ?; reflexivity ]
        | eapply P_then_MP; [ | intros ? ]
        | eapply P_catch; [ | intros ? ] ]
  | |- Script.MP_fails _ ?m =>
      first
        [ apply MP_fails_ret
        | solve [eauto 2 with script]
        | eapply MP_fails_bind'; [ | intros ? ]
        | case_code m ]
  end.

Ltac run := repeat run_step.

End Rules.

(* ===================================================================== *)
(** ** Redirect policy *)
(* ===================================================================== *)

Module RedirectPolicy.
Import JS Machine Engine Script Laws Rules Observe.
Open Scope js_scope.
Open Scope list_scope.

Lemma redirect_target_quiet env name :
  M_runs nav_target [] [] any (redirect_target env name).
Proof. unfold redirect_target. run. Qed.

(** C9. Whatever the redirect map and the rewrite and full-path switches:
    when the target [redirect(name)] resolves to is, by the engine's URL
    comparison [isSameURL], the current location, the call returns
    without navigating: the trace gains neither a router push nor a
    full-page replace. *)
Theorem redirect_same_target_no_navigation
    env name noRouter w to :
  (redirect_target env name w).1 = Ok (Some to) ->
  isSameURL env to (redirect_from env) = true ->
  (redirect env name noRouter w).1 = Ok tt /\
  navigations (trace (redirect env name noRouter w).2) = navigations (trace w).
Proof.
  intros Htarget Hsame.
  destruct (redirect_target_quiet env name w) as (evs & Htrace & Hskel).
  unfold redirect, bind.
  destruct (redirect_target env name w) as [r w1]; simpl in *.
  subst r. rewrite Hsame. simpl. split; [done|].
  destruct Hskel as [Hskel _]. rewrite app_nil_r in Hskel.
  unfold skel in Hskel. unfold navigations.
  by rewrite Htrace, omap_app, Hskel, app_nil_r.
Qed.

(** C9 on the examples: the home page is the current location. *)
Lemma redirect_same_target_no_navigation_witness :
  (redirect Examples.ex_env "home" false Examples.ex_world).1 = Ok tt /\
  navigations (trace (redirect Examples.ex_env "home" false
                        Examples.ex_world).2)
  = navigations (trace Examples.ex_world).
Proof.
  apply (redirect_same_target_no_navigation
           Examples.ex_env "home" false Examples.ex_world (VStr "/"));
    reflexivity.
Defined.

(** The check is what stops the navigation: a target that differs from
    the current location is navigated to, once. *)
Lemma redirect_other_target_navigates env name noRouter w to :
  (redirect_target env name w).1 = Ok (Some to) ->
  isSameURL env to (redirect_from env) = false ->
  navigations (trace (redirect env name noRouter w).2)
  = navigations (trace w) ++ [to].
Proof.
  intros Htarget Hsame.
  destruct (redirect_target_quiet env name w) as (evs & Htrace & Hskel).
  unfold redirect, bind.
  destruct (redirect_target env name w) as [r w1]; simpl in *.
  subst r. rewrite Hsame.
  destruct Hskel as [Hskel _]. rewrite app_nil_r in Hskel.
  unfold skel in Hskel. unfold navigations.
  destruct (process_browser env), noRouter; simpl;
    by rewrite omap_app, Htrace, omap_app, Hskel, app_nil_r.
Qed.

End RedirectPolicy.

(* ===================================================================== *)
(** ** Request pipeline *)
(* ===================================================================== *)

Module Pipeline.
Import JS Machine Engine Script Laws Rules Observe.
Open Scope js_scope.
Open Scope list_scope.

(** *** The second copy, method by method *)

Section Alt.
Variable env : Env.

(** The loading indicator, the report and the profile synchronisation are
    no steps of the protocol. *)
Lemma alt_loading c what : M_runs step_of c c any (Alt.loading env what).
Proof. unfold Alt.loading. run. Qed.

Lemma alt_report e : MP_fails step_of (Alt.report env e).
Proof.
  unfold Alt.report.
  eapply MP_fails_bind'; [apply alt_loading|]. intros _. run.
Qed.

Lemma alt_updateUser c u : M_runs step_of c c any (Alt.updateUser env u).
Proof.
  unfold Alt.updateUser. run.
Qed.

(** [completeRequest] is one dispatch. *)
Lemma alt_completeRequest c endpoint defaults :
  MP_runs step_of (Dispatch :: c) c (Alt.completeRequest env endpoint defaults).
Proof.
  unfold Alt.completeRequest. run. apply alt_loading.
Qed.

(** [refreshToken] is one entry and one exchange. *)
Lemma alt_refreshToken c :
  MP_runs step_of (RefreshCall :: Exchange :: c) c (Alt.refreshToken env).
Proof.
  unfold Alt.refreshToken. run. all: apply alt_updateUser.
Qed.

#[local] Hint Resolve alt_loading alt_report alt_updateUser
  alt_completeRequest alt_refreshToken : script.

(** [getDBAuth] is one entry, one credential fetch and one run of
    [refreshToken], or a prefix of that. *)
Lemma alt_getDBAuth c :
  MP_runs step_of
    (RecoveryCall :: CredentialFetch :: RefreshCall :: Exchange :: c) c
    (Alt.getDBAuth env).
Proof. unfold Alt.getDBAuth. run. Qed.

#[local] Hint Resolve alt_getDBAuth : script.

(** The recovery branch of [request] runs the recovery script. *)
Lemma alt_recovery endpoint defaults :
  MP_runs step_of recovery_script [] (Alt.recovery env endpoint defaults).
Proof. unfold Alt.recovery, recovery_script. run. Qed.

#[local] Hint Resolve alt_recovery : script.

(** [request] on a stale token, past its reads of the store and the
    clock. *)
Lemma alt_request_stale endpoint defaults w s :
  active env (data w) = Some s ->
  Alt.stale env (data w) (clock env (clock_reads w)) s = true ->
  Alt.request env endpoint defaults w =
  async (do p <- Alt.refreshToken env;
         ret (catch_
                (then_ p (fun _ => Alt.completeRequest env endpoint defaults))
                (Alt.on_refresh_error env endpoint defaults))) (tick w).
Proof.
  intros Hs Hst. unfold Alt.stale in Hst.
  apply andb_prop in Hst as [Hst Hge]. apply andb_prop in Hst as [He Hr].
  unfold Alt.request, async at 1.
  erewrite bind_Ok by (by apply strategy_dot_active).
  erewrite bind_Ok by reflexivity.
  erewrite bind_Ok by (by apply strategy_dot_active).
  erewrite bind_Ok by reflexivity.
  erewrite (bind_Ok (Alt.expired _ _ _)).
  2:{ unfold Alt.expired. rewrite He, Hr. simpl.
      erewrite bind_Ok by reflexivity. by rewrite Hge. }
  reflexivity.
Qed.

(** [request] on a token that is not stale, past its reads. *)
Lemma alt_request_direct endpoint defaults w s :
  active env (data w) = Some s ->
  Alt.stale env (data w) (clock env (clock_reads w)) s = false ->
  exists w0, trace w0 = trace w /\ data w0 = data w /\
    Alt.request env endpoint defaults w =
    async (do p <- Alt.completeRequest env endpoint defaults;
           ret (catch_ p (Alt.report env))) w0.
Proof.
  intros Hs Hst. unfold Alt.stale in Hst.
  destruct (truthy (universal (data w) (expiration_key env (s_name s)))
            && truthy (universal (data w)
                         (refresh_token_key env (s_name s)))) eqn:Hrec.
  - exists (tick w). split; [done|]. split; [done|].
    unfold Alt.request, async at 1.
    erewrite bind_Ok by (by apply strategy_dot_active).
    erewrite bind_Ok by reflexivity.
    erewrite bind_Ok by (by apply strategy_dot_active).
    erewrite bind_Ok by reflexivity.
    erewrite (bind_Ok (Alt.expired _ _ _)).
    2:{ unfold Alt.expired. rewrite Hrec.
        erewrite bind_Ok by reflexivity. simpl in Hst. by rewrite Hst. }
    reflexivity.
  - exists w. split; [done|]. split; [done|].
    unfold Alt.request, async at 1.
    erewrite bind_Ok by (by apply strategy_dot_active).
    erewrite bind_Ok by reflexivity.
    erewrite bind_Ok by (by apply strategy_dot_active).
    erewrite bind_Ok by reflexivity.
    erewrite (bind_Ok (Alt.expired _ _ _)).
    2:{ unfold Alt.expired. by rewrite Hrec. }
    reflexivity.
Qed.

(** A direct dispatch: the caller's request goes out first and nothing of
    the refresh protocol follows. *)
Lemma alt_dispatch_first endpoint defaults w0 :
  exists rest,
    trace (await (async (do p <- Alt.completeRequest env endpoint defaults;
                         ret (catch_ p (Alt.report env)))) w0).2 =
    trace w0 ++ EvAxios SiteDispatch (merged endpoint defaults) :: rest /\
    steps rest = [].
Proof.
  unfold await, async, bind at 1, Alt.completeRequest, bind at 1,
    axios_request, ret. simpl.
  match goal with
  | |- context [catch_ ?p ?h ?w1] =>
      assert (Hp : P_runs step_of [] [] (catch_ p h)) by run;
      destruct (Hp w1) as (evs & Ht & H);
      destruct (catch_ p h w1) as [st w2]
  end.
  simpl in *. exists evs. rewrite Ht, <- app_assoc. split; [done|].
  destruct st; [by rewrite app_nil_r in H | by apply prefix_nil_inv].
Qed.

(** The synchronous part of [refreshToken]: the call is recorded and the
    exchange sent; the promise is the transport's with the storing handler
    attached. *)
Lemma alt_refreshToken_sync w s :
  active env (data w) = Some s ->
  nullish (s_options s) = false ->
  exists req h w1,
    Alt.refreshToken env w =
      (Ok (then_ (fun w' => (axios env (requests_sent (trace w)) req, w')) h),
       w1) /\
    trace w1 = trace w ++ [EvCall "refreshToken"; EvAxios SiteRefresh req] /\
    data w1 = data w /\
    forall c,
      P_runs step_of c c
        (then_ (fun w' => (axios env (requests_sent (trace w)) req, w')) h).
Proof.
  intros Hs Hopts.
  destruct (get_ok (s_options s) "access_token_endpoint" Hopts) as [url Hurl].
  destruct (get_ok (s_options s) "client_id" Hopts) as [cid Hcid].
  pose proof (fun c => alt_refreshToken c w) as H. revert H.
  unfold Alt.refreshToken.
  erewrite bind_Ok by reflexivity.
  erewrite bind_Ok by (by apply strategy_dot_active).
  erewrite bind_Ok by (unfold lift; by rewrite Hurl).
  erewrite bind_Ok by (by apply strategy_dot_active).
  erewrite bind_Ok by (unfold lift; by rewrite Hcid).
  erewrite bind_Ok by (by apply strategy_dot_active).
  erewrite bind_Ok by reflexivity.
  erewrite bind_Ok by reflexivity.
  unfold ret. simpl. rewrite requests_sent_app. simpl. rewrite Nat.add_0_r.
  intros H.
  do 3 eexists. split; [reflexivity|]. simpl.
  split; [by rewrite <- app_assoc|]. split; [done|].
  intros c. destruct (H c) as (evs & Ht & r1 & Hr1 & Hp).
  rewrite <- app_assoc in Ht. apply app_inv_head in Ht. subst evs.
  simpl in Hr1. injection Hr1 as ->. exact Hp.
Qed.

Lemma alt_on_refresh_error_grows endpoint defaults err :
  MP_runs nothing [] [] (Alt.on_refresh_error env endpoint defaults err).
Proof.
  unfold Alt.on_refresh_error.
  eapply MP_bind'; [apply M_lift'|]. intros response.
  eapply MP_bind'; [apply M_lift'|]. intros status.
  destruct (loose_eq_num _ _ _).
  - eapply MP_grows, alt_recovery.
  - eapply MP_fails_grows, alt_report.
Qed.

(** A stale token: the refresh protocol is entered and the exchange sent
    before anything else. *)
Lemma alt_refresh_first endpoint defaults w s :
  active env (data w) = Some s ->
  nullish (s_options s) = false ->
  exists req rest,
    trace (await
             (async (do p <- Alt.refreshToken env;
                     ret (catch_
                            (then_ p (fun _ =>
                               Alt.completeRequest env endpoint defaults))
                            (Alt.on_refresh_error env endpoint defaults))))
             w).2 =
    trace w ++ EvCall "refreshToken" :: EvAxios SiteRefresh req :: rest.
Proof.
  intros Hs Hopts.
  destruct (alt_refreshToken_sync w s Hs Hopts)
    as (req & h & w1 & Hsync & Ht1 & _ & Hp).
  unfold await, async. erewrite bind_Ok by exact Hsync. unfold ret.
  match goal with
  | |- context [catch_ ?p ?f w1] =>
      assert (Hg : P_runs nothing [] [] (catch_ p f))
  end.
  { apply P_catch_quiet; [|intros; apply alt_on_refresh_error_grows].
    eapply (P_grows step_of [Dispatch] []).
    eapply P_then_MP; [apply Hp|]. intros _. apply alt_completeRequest. }
  destruct (P_grows_trace _ w1 Hg) as (rest & Ht2).
  match goal with
  | |- context [catch_ ?p ?f w1] => destruct (catch_ p f w1) as [st w2]
  end.
  simpl in *. exists req, rest. by rewrite Ht2, Ht1, <- app_assoc.
Qed.

Lemma alt_report_returns err w :
  listeners_return env -> Alt.loading_returns env ->
  exists w',
    Alt.report env err w = (Ok (rejected err), w') /\
    trace w' = trace w ++ Alt.report_events env err.
Proof.
  intros Hl Hw.
  unfold Alt.report, Alt.report_events, Alt.loading, Alt.loading_returns in *.
  destruct (process_server env); simpl.
  - erewrite bind_Ok by reflexivity.
    destruct (callOnError_returns env err "completeRequest" w Hl)
      as (w' & Heq & Ht).
    erewrite bind_Ok by exact Heq. by exists w'.
  - rewrite Hw by done. erewrite bind_Ok by reflexivity.
    destruct (callOnError_returns env err "completeRequest" 
       (mkWorld (data w) (trace w ++ [EvLoading "fail"]) (clock_reads w)) Hl)
      as (w' & Heq & Ht).
    erewrite bind_Ok by exact Heq. exists w'. split; [done|].
    rewrite Ht. simpl. by rewrite <- app_assoc.
Qed.

Lemma alt_getDBAuth_sync w :
  exists q w1 evs,
    Alt.getDBAuth env w = (Ok q, w1) /\
    trace w1 = trace w ++ EvCall "getDBAuth" :: evs.
Proof.
  unfold Alt.getDBAuth. erewrite bind_Ok by reflexivity.
  erewrite bind_Ok by reflexivity.
  destruct (truthy _) eqn:Hu; simpl.
  - erewrite bind_Ok by reflexivity.
    destruct (get_ok _ "user_id" (truthy_not_nullish _ Hu)) as (uid & Huid).
    erewrite bind_Ok by (unfold lift; by rewrite Huid).
    erewrite bind_Ok by reflexivity.
    do 3 eexists. split; [reflexivity|]. simpl. by rewrite <- app_assoc.
  - do 3 eexists. split; [reflexivity|]. done.
Qed.

Lemma alt_recovery_sync endpoint defaults w :
  exists X w1 evs r1,
    Alt.recovery env endpoint defaults w =
      (Ok (catch_ X (Alt.report env)), w1) /\
    trace w1 = trace w ++ EvCall "getDBAuth" :: evs /\
    steps (EvCall "getDBAuth" :: evs) ++ r1 = recovery_script /\
    P_runs step_of r1 [] X.
Proof.
  destruct (alt_getDBAuth_sync w) as (q & w1 & evs & Hq & Ht).
  pose proof (alt_getDBAuth [RefreshCall; Exchange; Dispatch] w)
    as (evs' & Ht' & H).
  rewrite Hq in Ht', H. simpl in Ht', H.
  rewrite Ht in Ht'. apply app_inv_head in Ht'. subst evs'.
  destruct H as (r1 & Hr1 & Hp).
  unfold Alt.recovery. erewrite bind_Ok by exact Hq. unfold ret.
  do 4 eexists. split; [reflexivity|]. split; [exact Ht|].
  split; [exact Hr1|].
  eapply P_then_MP; [exact Hp|]. intros _.
  eapply MP_bind_MP; [apply (alt_refreshToken [Dispatch])|].
  intros p r0 Hp0. apply MP_ret.
  eapply P_then_MP; [exact Hp0|]. intros _. apply alt_completeRequest.
Qed.

Lemma steps_app a b : steps (a ++ b) = steps a ++ steps b.
Proof. apply omap_app. Qed.

Lemma steps_deliveries i ls err payload :
  steps (deliveries i ls err payload) = [].
Proof.
  unfold deliveries. revert i. induction ls as [|fn ls IH]; intros i; [done|].
  simpl. specialize (IH (S i)). 
  erewrite imap_ext; [exact IH|]. intros. simpl. f_equal. lia.
Qed.

Lemma steps_report_events err : steps (Alt.report_events env err) = [].
Proof.
  unfold Alt.report_events. rewrite steps_app. unfold notifications.
  rewrite steps_deliveries.
  by destruct (process_server env).
Qed.

Lemma alt_refresh_rejected endpoint defaults w s err response status :
  active env (data w) = Some s ->
  nullish (s_options s) = false ->
  Alt.stale env (data w) (clock env (clock_reads w)) s = true ->
  (forall req, axios env (requests_sent (trace w)) req = Rejected err) ->
  get err "response" = Ok response ->
  get response "status" = Ok status ->
  listeners_return env ->
  Alt.loading_returns env ->
  let out := (await (Alt.request env endpoint defaults) w).1 in
  let w' := (await (Alt.request env endpoint defaults) w).2 in
  exists req rest,
    trace w' =
      trace w ++ EvCall "refreshToken" :: EvAxios SiteRefresh req :: rest /\
    if loose_eq_num (string_to_number env) status 400 then
      (exists rest', rest = EvCall "getDBAuth" :: rest') /\
      steps rest `prefix_of` recovery_script /\
      match out with
      | Settled (Resolved _) => steps rest = recovery_script
      | Settled (Rejected e) => Alt.reported env e rest
      | Threw _ => False
      end
    else
      out = Settled (Rejected err) /\ rest = Alt.report_events env err.
Proof.
  intros Hs Hopts Hst Hrej Hresp Hstatus Hl Hw out w'. subst out w'.
  remember (await (Alt.request env endpoint defaults) w) as run eqn:Hrun.
  rewrite (await_eq _ _ _ _
             (alt_request_stale endpoint defaults w s Hs Hst)) in Hrun.
  destruct (alt_refreshToken_sync (tick w) s Hs Hopts)
    as (req & h & w1 & Hsync & Ht1 & _ & _).
  unfold await, async in Hrun. erewrite bind_Ok in Hrun by exact Hsync.
  unfold ret in Hrun. simpl in Hsync, Ht1.
  unfold catch_ at 1, then_ at 1, then_ at 1 in Hrun. rewrite Hrej in Hrun.
  unfold Alt.on_refresh_error in Hrun.
  erewrite bind_Ok in Hrun by (unfold lift; by rewrite Hresp).
  erewrite bind_Ok in Hrun by (unfold lift; by rewrite Hstatus).
  exists req.
  destruct (loose_eq_num _ _ _).
  - destruct (alt_recovery_sync endpoint defaults w1)
      as (X & w2 & evs & r1 & Hrec & Ht2 & Hscript & HX).
    rewrite Hrec in Hrun.
    destruct (HX w2) as (evs3 & Ht3 & H3).
    unfold catch_ in Hrun. destruct (X w2) as [[v|e] w3]; simpl in *.
    + subst run. simpl.
      exists (EvCall "getDBAuth" :: evs ++ evs3).
      split; [by rewrite Ht3, Ht2, Ht1, <- !app_assoc|].
      split; [by eexists|].
      assert (Heq : steps (EvCall "getDBAuth" :: evs ++ evs3)
                    = recovery_script).
      { change (steps ((EvCall "getDBAuth" :: evs) ++ evs3) = recovery_script).
        rewrite steps_app. rewrite app_nil_r in H3. unfold skel in H3.
        unfold steps at 2. by rewrite H3. }
      split; [rewrite Heq; reflexivity | exact Heq].
    + destruct (alt_report_returns e w3 Hl Hw) as (w4 & Hrep & Ht4).
      rewrite Hrep in Hrun. subst run. simpl.
      exists (EvCall "getDBAuth" :: evs ++ evs3 ++ Alt.report_events env e).
      split; [by rewrite Ht4, Ht3, Ht2, Ht1, <- !app_assoc|].
      split; [by eexists|].
      split.
      * change (steps ((EvCall "getDBAuth" :: evs) ++ evs3
                       ++ Alt.report_events env e)
                `prefix_of` recovery_script).
        rewrite !steps_app, steps_report_events, app_nil_r.
        eapply prefix_step; [exact Hscript | exact H3].
      * exists (EvCall "getDBAuth" :: evs ++ evs3). simpl.
        by rewrite app_assoc.
  - destruct (alt_report_returns err w1 Hl Hw) as (w4 & Hrep & Ht4).
    rewrite Hrep in Hrun. subst run. simpl.
    exists (Alt.report_events env err).
    split; [by rewrite Ht4, Ht1, <- !app_assoc|done].
Qed.

End Alt.

(** *** [lib/core/auth.js], method by method *)

Section Core.
Variable env : Env.

Lemma core_loading c what : M_runs step_of c c any (Core.loading env what).
Proof. unfold Core.loading. run. Qed.

#[local] Hint Resolve core_loading : script.

Lemma core_completeRequest c endpoint defaults :
  MP_runs step_of (Dispatch :: c) c
    (Core.completeRequest env endpoint defaults).
Proof. unfold Core.completeRequest. run. Qed.

#[local] Hint Resolve core_completeRequest : script.

(** The synchronous part of [completeRequest]: the request leaves; its
    promise adds no step of the protocol. *)
Lemma core_completeRequest_sync endpoint defaults w :
  exists p,
    Core.completeRequest env endpoint defaults w =
      (Ok p, mkWorld (data w)
                     (trace w ++ [EvAxios SiteDispatch (merged endpoint defaults)])
                     (clock_reads w)) /\
    P_runs step_of [] [] p.
Proof.
  unfold Core.completeRequest, bind at 1, axios_request, ret. simpl.
  eexists. split; [reflexivity|]. run.
Qed.

(** [request] past its reads of the store and the clock; on a stale
    token it has sent the exchange and guards its promise with a handler
    that dispatches. *)
Lemma core_request_reads endpoint defaults w s :
  active env (data w) = Some s ->
  exists k,
    Core.request env endpoint defaults w =
      async (if Core.stale env (data w) (clock env (clock_reads w)) s
             then k
             else Core.completeRequest env endpoint defaults) (tick w) /\
    (nullish (s_options s) = false ->
     exists req h,
       k (tick w) =
         (Ok (catch_
                (then_ (fun w' => (axios env (requests_sent (trace w)) req, w'))
                       h)
                (fun _ => Core.completeRequest env endpoint defaults)),
          mkWorld (data w) (trace w ++ [EvAxios SiteRefresh req])
                  (S (clock_reads w))) /\
       P_runs step_of [Dispatch] []
         (then_ (fun w' => (axios env (requests_sent (trace w)) req, w')) h)).
Proof.
  intros Hs. eexists. split.
  - unfold Core.request, async at 1.
    erewrite bind_Ok by apply strategy_active. rewrite Hs.
    erewrite bind_Ok by reflexivity.
    erewrite bind_Ok by reflexivity.
    erewrite bind_Ok by reflexivity.
    erewrite bind_Ok by reflexivity.
    erewrite bind_Ok by reflexivity.
    unfold Core.stale, async. reflexivity.
  - intros Hopts.
    destruct (get_ok (s_options s) "access_token_endpoint" Hopts)
      as [url Hurl].
    destruct (get_ok (s_options s) "client_id" Hopts) as [cid Hcid].
    erewrite bind_Ok by reflexivity.
    erewrite bind_Ok by (unfold lift; by rewrite Hurl).
    erewrite bind_Ok by reflexivity.
    erewrite bind_Ok by (unfold lift; by rewrite Hcid).
    erewrite bind_Ok by reflexivity.
    unfold ret. simpl. do 2 eexists. split; [reflexivity|].
    run.
Qed.

Lemma core_dispatch_first endpoint defaults w0 :
  exists rest,
    trace (await (async (Core.completeRequest env endpoint defaults)) w0).2 =
    trace w0 ++ EvAxios SiteDispatch (merged endpoint defaults) :: rest /\
    steps rest = [].
Proof.
  destruct (core_completeRequest_sync endpoint defaults w0) as (p & Hsync & Hp).
  unfold await, async. rewrite Hsync.
  destruct (Hp (mkWorld (data w0)
                  (trace w0 ++ [EvAxios SiteDispatch (merged endpoint defaults)])
                  (clock_reads w0))) as (evs & Ht & H).
  destruct (p _) as [st w2]. simpl in *.
  exists evs. rewrite Ht, <- app_assoc. split; [done|].
  destruct st; [by rewrite app_nil_r in H | by apply prefix_nil_inv].
Qed.

(** [lib/core/auth.js] has one answer to a refused exchange, whatever the
    refusal: dispatch the caller's request. *)
Lemma core_refresh_rejected endpoint defaults w s err :
  active env (data w) = Some s ->
  nullish (s_options s) = false ->
  Core.stale env (data w) (clock env (clock_reads w)) s = true ->
  (forall req, axios env (requests_sent (trace w)) req = Rejected err) ->
  exists req rest,
    trace (await (Core.request env endpoint defaults) w).2 =
    trace w ++ EvAxios SiteRefresh req
            :: EvAxios SiteDispatch (merged endpoint defaults) :: rest /\
    steps rest = [].
Proof.
  intros Hs Hopts Hst Hrej.
  destruct (core_request_reads endpoint defaults w s Hs) as (k & Heq & Hk).
  rewrite (await_eq _ _ _ _ Heq), Hst.
  destruct (Hk Hopts) as (req & h & Hsync & _).
  unfold await, async. rewrite Hsync.
  unfold catch_ at 1, then_ at 1. rewrite Hrej.
  match goal with
  | |- context [Core.completeRequest env endpoint defaults ?w1] =>
      destruct (core_completeRequest_sync endpoint defaults w1)
        as (p & -> & Hp);
      match goal with
      | |- context [p ?w2] =>
          destruct (Hp w2) as (evs & Ht & H); destruct (p w2) as [st w3]
      end
  end.
  simpl in *. exists req, evs. rewrite Ht, <- !app_assoc. split; [done|].
  destruct st; [by rewrite app_nil_r in H | by apply prefix_nil_inv].
Qed.

End Core.

(** The pre-flight test decides what [request(endpoint, defaults)] does
    first, for an active strategy (whose [options] are there to be read):
    when the test of the copy holds, the first thing the call does is the
    refresh protocol, its token-endpoint exchange leaving before any
    dispatch; when it fails, the first thing it does is dispatch the
    caller's request, and no step of the refresh protocol follows.  The
    test of the second copy, [Alt.stale], is the specification's: both
    values recorded (truthy) and the clock, in milliseconds, at or past
    the expiration.  The test of [lib/core/auth.js], [Core.stale], reads
    the clock in whole seconds through [| 0]. *)
Theorem request_preflight env endpoint defaults w s :
  active env (data w) = Some s ->
  nullish (s_options s) = false ->
  let ms := clock env (clock_reads w) in
  (if Alt.stale env (data w) ms s
   then exists req rest,
          trace (await (Alt.request env endpoint defaults) w).2 =
          trace w ++ EvCall "refreshToken" :: EvAxios SiteRefresh req :: rest
   else exists rest,
          trace (await (Alt.request env endpoint defaults) w).2 =
          trace w ++ EvAxios SiteDispatch (merged endpoint defaults) :: rest
          /\ steps rest = [])
  /\
  (if Core.stale env (data w) ms s
   then exists req rest,
          trace (await (Core.request env endpoint defaults) w).2 =
          trace w ++ EvAxios SiteRefresh req :: rest
   else exists rest,
          trace (await (Core.request env endpoint defaults) w).2 =
          trace w ++ EvAxios SiteDispatch (merged endpoint defaults) :: rest
          /\ steps rest = []).
Proof.
  intros Hs Hopts ms. subst ms. split.
  - destruct (Alt.stale _ _ _ _) eqn:Hst.
    + rewrite (await_eq _ _ _ _
                 (alt_request_stale env endpoint defaults w s Hs Hst)).
      apply (alt_refresh_first env endpoint defaults (tick w) s Hs Hopts).
    + destruct (alt_request_direct env endpoint defaults w s Hs Hst)
        as (w0 & Ht & _ & Heq).
      rewrite (await_eq _ _ _ _ Heq), <- Ht. apply alt_dispatch_first.
  - destruct (core_request_reads env endpoint defaults w s Hs)
      as (k & Heq & Hk).
    rewrite (await_eq _ _ _ _ Heq).
    destruct (Core.stale _ _ _ _).
    + destruct (Hk Hopts) as (req & h & Hsync & Hp).
      unfold await, async. rewrite Hsync.
      match goal with
      | |- context [catch_ ?p ?f ?w1] =>
          assert (Hg : P_runs nothing [] [] (catch_ p f));
          [| destruct (P_grows_trace _ w1 Hg) as (rest & Ht);
             destruct (catch_ p f w1) as [st w2] ]
      end.
      { apply P_catch_quiet; [by eapply P_grows|]. intros _.
        eapply MP_grows, (core_completeRequest env []). }
      simpl in *. exists req, rest. by rewrite Ht, <- app_assoc.
    + apply (core_dispatch_first env endpoint defaults (tick w)).
Qed.

(** The clock of [lib/core/auth.js] is the time in whole seconds until
    the 32-bit reading wraps, in 2038. *)
Lemma seconds_before_wrap ms :
  0 <= ms < 2147483648000 -> Core.seconds ms = ms / 1000.
Proof.
  intros Hms. unfold Core.seconds, to_int32.
  rewrite Z.quot_div_nonneg by lia.
  assert (0 <= ms / 1000 < 2147483648).
  { split; [apply Z.div_pos; lia | apply Z.div_lt_upper_bound; lia]. }
  rewrite Z.mod_small by lia. lia.
Qed.

(** On the sessions of the examples, in 1970: with the token expired both
    copies refresh first, with a token that is not they dispatch. *)
Lemma request_preflight_witness :
  ((exists req rest,
      trace (await (Alt.request Examples.ex_env Examples.ex_endpoint
                      VUndefined) Examples.ex_world).2 =
      trace Examples.ex_world
        ++ EvCall "refreshToken" :: EvAxios SiteRefresh req :: rest)
   /\
   (exists req rest,
      trace (await (Core.request Examples.ex_env Examples.ex_endpoint
                      VUndefined) Examples.ex_world).2 =
      trace Examples.ex_world ++ EvAxios SiteRefresh req :: rest))
  /\
  ((exists rest,
      trace (await (Alt.request Examples.ex_env Examples.ex_endpoint
                      VUndefined) Examples.ex_fresh_world).2 =
      trace Examples.ex_fresh_world
        ++ EvAxios SiteDispatch (merged Examples.ex_endpoint VUndefined)
        :: rest
      /\ steps rest = [])
   /\
   (exists rest,
      trace (await (Core.request Examples.ex_env Examples.ex_endpoint
                      VUndefined) Examples.ex_fresh_world).2 =
      trace Examples.ex_fresh_world
        ++ EvAxios SiteDispatch (merged Examples.ex_endpoint VUndefined)
        :: rest
      /\ steps rest = [])).
Proof.
  split.
  - apply (request_preflight Examples.ex_env Examples.ex_endpoint VUndefined
             Examples.ex_world Examples.ex_strategy);
      reflexivity.
  - apply (request_preflight Examples.ex_env Examples.ex_endpoint VUndefined
             Examples.ex_fresh_world Examples.ex_strategy);
      reflexivity.
Defined.

(** Until the reading wraps, the test of [lib/core/auth.js] is the
    specification's, on the clock in whole seconds. *)
Lemma core_stale_before_wrap env d ms s e :
  universal d (expiration_key env (s_name s)) = VNum e ->
  0 <= ms < 2147483648000 ->
  Core.stale env d ms s =
    truthy (VNum e)
    && truthy (universal d (refresh_token_key env (s_name s)))
    && (e <=? ms / 1000).
Proof.
  intros He Hms. unfold Core.stale, Core.expired. rewrite He.
  unfold num_ge. simpl. by rewrite seconds_before_wrap.
Qed.

(** From 03:14:08 UTC on 19 January 2038, [2^31] seconds after the epoch,
    and for the 68 years that follow, [now.getTime() / 1000 | 0] is
    negative: the test fails for every expiration recorded as a number
    of seconds since the epoch, however long ago it was. *)
Lemma core_never_stale_after_wrap env d ms s e :
  universal d (expiration_key env (s_name s)) = VNum e ->
  0 <= e ->
  2147483648000 <= ms < 4294967296000 ->
  Core.seconds ms < 0 /\ Core.stale env d ms s = false.
Proof.
  intros He Hpos Hms.
  assert (Hsec : Core.seconds ms = ms / 1000 - 4294967296).
  { unfold Core.seconds, to_int32. rewrite Z.quot_div_nonneg by lia.
    assert (2147483648 <= ms / 1000 < 4294967296).
    { split; [apply Z.div_le_lower_bound; lia
             | apply Z.div_lt_upper_bound; lia]. }
    replace (ms / 1000 + 2147483648)
      with (ms / 1000 - 2147483648 + 1 * 4294967296) by lia.
    rewrite Z.mod_add by lia. rewrite Z.mod_small by lia. lia. }
  assert (Hneg : Core.seconds ms < 0).
  { rewrite Hsec.
    assert (ms / 1000 < 4294967296)
      by (apply Z.div_lt_upper_bound; lia).
    lia. }
  split; [exact Hneg|].
  unfold Core.stale, Core.expired. rewrite He. unfold num_ge. simpl.
  apply andb_false_intro2. apply Z.leb_gt. lia.
Qed.

(** C1 holds of the second copy and fails on [lib/core/auth.js] once the
    clock has passed 03:14:08 UTC on 19 January 2038.  With an expiration
    of November 2023 and a refresh token recorded for the active strategy
    and the clock at [2^31] seconds, the time is long past the expiration,
    but [now.getTime() / 1000 | 0] reads [-2147483648], the test
    [>= expiration] fails, and [request] dispatches the caller's request
    with no refresh at all; the second copy, on the same session, starts
    with the refresh protocol. *)
Theorem core_request_skips_refresh_from_2038 :
  let env := Scenarios.ex_env_2038 in
  let w := Scenarios.ex_lapsed_world in
  (getTokenExpiration env (VStr "social") w).1 = Ok (VNum 1700000000) /\
  (getRefreshToken env (VStr "social") w).1 = Ok (VStr "r1") /\
  clock env (clock_reads w) = 2147483648000 /\
  1700000000 <= clock env (clock_reads w) / 1000 /\
  Core.seconds (clock env (clock_reads w)) = -2147483648 /\
  trace (await (Core.request env Examples.ex_endpoint VUndefined) w).2
  = [EvAxios SiteDispatch Examples.ex_endpoint; EvLoading "finish"] /\
  steps (trace (await (Alt.request env Examples.ex_endpoint VUndefined) w).2)
  = [RefreshCall; Exchange; Dispatch].
Proof. vm_compute. repeat split; congruence. Qed.

(** C2 as stated fails on both copies.  On the second copy a session whose
    pre-flight exchange is refused with status 400, and whose every later
    request is served, runs the refresh protocol twice after the credential
    fetch, not once: [getDBAuth] re-runs it itself and [request] re-runs it
    again.  On [lib/core/auth.js] the same refusal is followed by no
    recovery at all. *)
Lemma recovery_refreshes_twice :
  (await (Alt.request Examples.ex_env Examples.ex_endpoint VUndefined)
         Examples.ex_world).1 = Settled (Resolved (VStr "payload")) /\
  steps (trace (await (Alt.request Examples.ex_env Examples.ex_endpoint
                         VUndefined) Examples.ex_world).2) =
    [RefreshCall; Exchange; RecoveryCall; CredentialFetch;
     RefreshCall; Exchange; RefreshCall; Exchange; Dispatch] /\
  steps (trace (await (Core.request Examples.ex_env Examples.ex_endpoint
                         VUndefined) Examples.ex_world).2) =
    [Exchange; Dispatch].
Proof. vm_compute. done. Qed.

(** C2, amended.  Take a call to [request] that finds the token stale and
    whose pre-flight exchange is rejected with [err].

    On the second copy, when [err.response.status] can be read and no
    listener (nor the loading indicator) throws: if the status is 400,
    [getDBAuth] is entered, once, right after the refused exchange; what
    follows is a prefix of: credential fetch, the refresh protocol run by
    [getDBAuth] itself, the refresh protocol run again by [request], the
    dispatch of the caller's request -- each at most once and in that
    order; the call resolves only after all of them, and when it rejects
    instead the rejection has been reported to the error bus tagged
    "completeRequest" as the last thing done.  If the status is not 400
    the call reports [err] in the same way and rejects with it, and does
    nothing else.

    On [lib/core/auth.js] there is no recovery: the refused exchange is
    followed at once by the dispatch of the caller's request and by no
    further step of the protocol. *)
Theorem refresh_rejected env endpoint defaults w s err :
  active env (data w) = Some s ->
  nullish (s_options s) = false ->
  (forall req, axios env (requests_sent (trace w)) req = Rejected err) ->
  (forall response status,
     Alt.stale env (data w) (clock env (clock_reads w)) s = true ->
     get err "response" = Ok response ->
     get response "status" = Ok status ->
     listeners_return env ->
     Alt.loading_returns env ->
     let out := (await (Alt.request env endpoint defaults) w).1 in
     let w' := (await (Alt.request env endpoint defaults) w).2 in
     exists req rest,
       trace w' =
         trace w ++ EvCall "refreshToken" :: EvAxios SiteRefresh req :: rest /\
       if loose_eq_num (string_to_number env) status 400 then
         (exists rest', rest = EvCall "getDBAuth" :: rest') /\
         steps rest `prefix_of` recovery_script /\
         match out with
         | Settled (Resolved _) => steps rest = recovery_script
         | Settled (Rejected e) => Alt.reported env e rest
         | Threw _ => False
         end
       else
         out = Settled (Rejected err) /\ rest = Alt.report_events env err)
  /\
  (Core.stale env (data w) (clock env (clock_reads w)) s = true ->
   exists req rest,
     trace (await (Core.request env endpoint defaults) w).2 =
       trace w ++ EvAxios SiteRefresh req
               :: EvAxios SiteDispatch (merged endpoint defaults) :: rest /\
     steps rest = []).
Proof.
  intros Hs Hopts Hrej. split.
  - intros response status Hst Hresp Hstatus Hl Hw.
    by eapply alt_refresh_rejected.
  - intros Hst. by eapply core_refresh_rejected.
Qed.

(** C2, amended, on the session of the examples, where every request
    after the refused exchange is served. *)
Lemma refresh_rejected_witness :
  (exists req rest,
     trace (await (Alt.request Examples.ex_env Examples.ex_endpoint VUndefined)
                  Examples.ex_world).2 =
     trace Examples.ex_world
       ++ EvCall "refreshToken" :: EvAxios SiteRefresh req :: rest
     /\ steps rest = recovery_script)
  /\
  (exists req rest,
     trace (await (Core.request Examples.ex_env Examples.ex_endpoint VUndefined)
                  Examples.ex_world).2 =
     trace Examples.ex_world
       ++ EvAxios SiteRefresh req
       :: EvAxios SiteDispatch (merged Examples.ex_endpoint VUndefined) :: rest
     /\ steps rest = []).
Proof.
  destruct (refresh_rejected Examples.ex_env Examples.ex_endpoint VUndefined
              Examples.ex_world Examples.ex_strategy
              (VObj [("response", VObj [("status", VNum 400)])]))
    as [Halt Hcore]; [reflexivity | reflexivity | intros; reflexivity |].
  split.
  - destruct (Halt (VObj [("status", VNum 400)]) (VNum 400))
      as (req & rest & Ht & _ & _ & Hout);
      [reflexivity | reflexivity | reflexivity
      | by intros fn ? ? ? [<-|[]] | done |].
    exists req, rest. split; [exact Ht | exact Hout].
  - apply Hcore. reflexivity.
Defined.

(** C8. Whenever the secondary credential recovery is invoked with no
    user record cached (a falsy [this.user]), it returns a promise that is
    already rejected and touches nothing: the store is as it was and the
    trace has gained only the record of the call itself, so no request
    has left. *)
Theorem getDBAuth_without_user env w :
  truthy (cached_user (data w)) = false ->
  Alt.getDBAuth env w =
    (Ok (rejected VUndefined),
     mkWorld (data w) (trace w ++ [EvCall "getDBAuth"]) (clock_reads w)) /\
  requests_sent (trace w ++ [EvCall "getDBAuth"]) = requests_sent (trace w).
Proof.
  intros Hu. split.
  - unfold Alt.getDBAuth. erewrite bind_Ok by reflexivity.
    erewrite bind_Ok by reflexivity. unfold cached_user in Hu. simpl.
    rewrite Hu. reflexivity.
  - rewrite requests_sent_app.
    change (requests_sent [EvCall "getDBAuth"]) with 0%nat. lia.
Qed.

(** C8 on the session of the examples with its user record removed. *)
Lemma getDBAuth_without_user_witness :
  let w := Examples.world_of (Examples.without_state "user" Examples.ex_data) in
  Alt.getDBAuth Examples.ex_env w =
    (Ok (rejected VUndefined),
     mkWorld (data w) (trace w ++ [EvCall "getDBAuth"]) (clock_reads w)) /\
  requests_sent (trace w ++ [EvCall "getDBAuth"]) = requests_sent (trace w).
Proof.
  apply (getDBAuth_without_user Examples.ex_env). reflexivity.
Defined.

(** With a user cached the recovery does go to the network. *)
Lemma getDBAuth_with_user_fetches :
  steps (trace (await (Alt.getDBAuth (Examples.ex_env_with Examples.ex_serving))
                      Examples.ex_world).2)
  = [RecoveryCall; CredentialFetch; RefreshCall; Exchange].
Proof. vm_compute. done. Qed.

(** C3 holds of [lib/core/auth.js] and fails on the second copy, whose
    [requestWith] reads the stored token and never uses it: with the token
    ["Bearer old"] stored for the strategy and no [Authorization] header
    on the endpoint, the request the second copy sends has an empty
    [headers] object, the one [lib/core/auth.js] sends carries the
    token. *)
Lemma requestWith_second_copy_drops_token :
  let env := Examples.ex_env_with Examples.ex_serving in
  let w := Examples.ex_fresh_world in
  (getToken env (VStr "social") w).1 = Ok (VStr "Bearer old") /\
  hd_error (trace (await (Alt.requestWith env (VStr "social")
                            Examples.ex_endpoint VUndefined) w).2)
  = Some (EvAxios SiteDispatch
            (VObj [("url", VStr "/me"); ("headers", VObj [])])) /\
  hd_error (trace (await (Core.requestWith env (VStr "social")
                            Examples.ex_endpoint VUndefined) w).2)
  = Some (EvAxios SiteDispatch
            (VObj [("url", VStr "/me");
                   ("headers",
                    VObj [("Authorization", VStr "Bearer old")])])).
Proof. vm_compute. done. Qed.

(** The token read in the second copy's [requestWith] has no effect:
    the call is the merge, the default for [headers], and [request]. *)
Lemma alt_requestWith_ignores_token env strategy endpoint defaults w :
  Alt.requestWith env strategy endpoint defaults w =
  (do headers <- lift (get (assign2 defaults endpoint) "headers");
   do _endpoint <-
     (if negb (truthy headers)
      then lift (set (assign2 defaults endpoint) "headers" (VObj []))
      else ret (assign2 defaults endpoint));
   Alt.request env _endpoint VUndefined) w.
Proof. reflexivity. Qed.

(** In [lib/core/auth.js] the token is injected whenever the merged
    endpoint has no [headers], or has a [headers] object without a truthy
    [Authorization], and the token is set and truthy. *)
Lemma core_requestWith_injects env token endpoint defaults w headers :
  get (assign2 defaults endpoint) "headers" = Ok headers ->
  match headers with
  | VObj hs => truthy (default VUndefined (assoc "Authorization" hs)) = false
  | _ => truthy headers = false
  end ->
  isSet env token = true ->
  truthy token = true ->
  exists e,
    Core.requestWith_endpoint env token endpoint defaults w = (Ok e, w) /\
    authorization e = Ok token.
Proof.
  intros Hh Hauth Hset Htok. unfold Core.requestWith_endpoint.
  unfold assign2 in *.
  set (fs := fold_left _ _ _) in *. simpl in Hh. injection Hh as Hh.
  erewrite bind_Ok by (unfold lift, get; rewrite Hh; reflexivity).
  destruct (truthy headers) eqn:Htr; simpl.
  - destruct headers as [| | | | | |xs|hs]; simpl in Hauth; try congruence.
    erewrite bind_Ok by reflexivity.
    erewrite bind_Ok by (unfold lift, get; rewrite Hh; reflexivity).
    erewrite bind_Ok by reflexivity.
    rewrite Hauth, Hset, Htok. simpl.
    eexists. split; [reflexivity|].
    unfold authorization. simpl. rewrite assoc_put_eq. simpl.
    by rewrite assoc_put_eq.
  - erewrite bind_Ok by reflexivity.
    erewrite bind_Ok by (unfold lift, get; rewrite assoc_put_eq; reflexivity).
    erewrite bind_Ok by reflexivity.
    simpl. rewrite Hset, Htok. simpl.
    eexists. split; [reflexivity|].
    unfold authorization. simpl. rewrite assoc_put_eq. simpl.
    reflexivity.
Qed.

(** And the merged endpoint goes through as it is when a header is there
    already or the token is unset or empty. *)
Lemma core_requestWith_keeps env token endpoint defaults w hs :
  get (assign2 defaults endpoint) "headers" = Ok (VObj hs) ->
  truthy (default VUndefined (assoc "Authorization" hs)) = true
  \/ isSet env token = false \/ truthy token = false ->
  Core.requestWith_endpoint env token endpoint defaults w
  = (Ok (assign2 defaults endpoint), w).
Proof.
  intros Hh Hkeep. unfold Core.requestWith_endpoint.
  erewrite bind_Ok by (unfold lift; rewrite Hh; reflexivity). simpl.
  erewrite bind_Ok by reflexivity.
  erewrite bind_Ok by (unfold lift; rewrite Hh; reflexivity).
  erewrite bind_Ok by reflexivity.
  destruct Hkeep as [-> | [-> | ->]]; simpl; [done| |].
  - by rewrite andb_false_r.
  - by rewrite andb_false_r.
Qed.

End Pipeline.

(* ===================================================================== *)
(** ** Scopes *)
(* ===================================================================== *)

Module Scopes.
Import JS Machine Engine Script Laws Rules Observe.
Open Scope js_scope.
Open Scope list_scope.

(** C10. [getTokenScope] applies [split(' ')] to whatever the store holds
    for the scope key.  So when nothing is stored there (the read yields
    [undefined]) it throws a [TypeError] instead of returning a marker of
    absence, and so does every [hasScope] call made while that strategy is
    the active one; and when a string is stored the result is the array of
    its space-separated parts. *)
Theorem getTokenScope_splits env strategy w :
  (universal (data w) (scope_key env strategy) = VUndefined ->
   getTokenScope env strategy w = (Throw split_error, w)) /\
  (forall s scope,
     active env (data w) = Some s ->
     universal (data w) (scope_key env (s_name s)) = VUndefined ->
     hasScope env scope w = (Throw split_error, w)) /\
  (forall str,
     universal (data w) (scope_key env strategy) = VStr str ->
     getTokenScope env strategy w =
       (Ok (VArr (map VStr (split_str " " str))), w)).
Proof.
  split; [|split].
  - intros H. unfold getTokenScope. erewrite bind_Ok by reflexivity.
    by rewrite H.
  - intros s scope Hs H. unfold hasScope.
    erewrite bind_Ok by (by apply strategy_dot_active).
    unfold getTokenScope. unfold bind at 1. erewrite bind_Ok by reflexivity.
    by rewrite H.
  - intros str H. unfold getTokenScope. erewrite bind_Ok by reflexivity.
    by rewrite H.
Qed.

(** C10 on the sessions of the examples, without and with a scope. *)
Lemma getTokenScope_splits_witness :
  getTokenScope Examples.ex_env (VStr "social") Examples.ex_unscoped_world
    = (Throw split_error, Examples.ex_unscoped_world) /\
  hasScope Examples.ex_env (VStr "read") Examples.ex_unscoped_world
    = (Throw split_error, Examples.ex_unscoped_world) /\
  getTokenScope Examples.ex_env (VStr "social") Examples.ex_world
    = (Ok (VArr [VStr "read"; VStr "write"]), Examples.ex_world).
Proof.
  split; [|split].
  - apply (proj1 (getTokenScope_splits Examples.ex_env (VStr "social")
                    Examples.ex_unscoped_world)).
    reflexivity.
  - apply (proj1 (proj2 (getTokenScope_splits Examples.ex_env (VStr "social")
                           Examples.ex_unscoped_world))
             Examples.ex_strategy (VStr "read"));
      reflexivity.
  - apply (proj2 (proj2 (getTokenScope_splits Examples.ex_env (VStr "social")
                           Examples.ex_world))
             "read write").
    reflexivity.
Defined.

(** C4 on the code: [hasScope("read")] is [true] with ["read write"]
    stored and [false] with ["write"] stored, but with no scope recorded
    it does not return [undefined]: it throws the [TypeError] of
    [getTokenScope], before its own [if (!userScopes) return undefined]
    is reached. *)
Lemma hasScope_read :
  (hasScope Examples.ex_env (VStr "read") Examples.ex_world).1
    = Ok (VBool true) /\
  (hasScope Examples.ex_env (VStr "read")
     (Examples.world_of
        (Examples.with_state "_token.scope.social" (VStr "write")
                             Examples.ex_data))).1
    = Ok (VBool false) /\
  (hasScope Examples.ex_env (VStr "read") Examples.ex_unscoped_world).1
    = Throw split_error.
Proof. vm_compute. done. Qed.

(** The guard of [hasScope] is dead: what [getTokenScope] returns is
    always an array, and an array is truthy. *)
Lemma getTokenScope_truthy env strategy w v :
  (getTokenScope env strategy w).1 = Ok v -> truthy v = true.
Proof.
  unfold getTokenScope. erewrite bind_Ok by reflexivity.
  unfold bind, lift.
  destruct (split _ _) as [parts|e]; simpl; [|done].
  by intros [= <-].
Qed.

End Scopes.

(* ===================================================================== *)
(** ** Session engine *)
(* ===================================================================== *)

Module Session.
Import JS Machine Engine Script Laws Rules Observe.
Open Scope js_scope.
Open Scope list_scope.

Section Mount.
Variable env : Env.




End Mount.



(** After the switch the hook entered is the new strategy's: the session
    of the examples, moved to the password strategy, enters its
    [mounted] hook once. *)
Lemma setStrategy_mounts_new_strategy :
  trace (await (setStrategy Examples.ex_env "local") Examples.ex_world).2
  = [EvSetUniversal "strategy" (VStr "local"); EvCall "mounted";
     EvHook "mounted" []].
Proof. vm_compute. done. Qed.

(** C6 on the code.  A session with a token and a refresh token but no
    scope recorded, under a strategy without a [reset] hook: [reset()]
    sets [loggedIn] and [user] to [false], then throws the [TypeError] of
    [getTokenScope] while building the profile-synchronisation payload;
    the two [setToken(..., false)] statements are never reached, so both
    records still hold their values, and the call has thrown instead of
    resolving.  Both copies behave so. *)
Lemma reset_leaves_tokens_when_scope_is_missing :
  let w := Examples.ex_unscoped_world in
  let alt := Alt.reset Examples.ex_env [] w in
  let core := Core.reset Examples.ex_env [] w in
  s_reset Examples.ex_strategy = None /\
  alt.1 = Throw split_error /\
  universal (data alt.2) "user" = VBool false /\
  universal (data alt.2) "loggedIn" = VBool false /\
  universal (data alt.2) "_token.social" = VStr "Bearer old" /\
  universal (data alt.2) "_refresh_token.social" = VStr "r1" /\
  core.1 = Throw split_error /\
  universal (data core.2) "_token.social" = VStr "Bearer old" /\
  universal (data core.2) "_refresh_token.social" = VStr "r1".
Proof. vm_compute. done. Qed.

(** With a bearer token and a scope recorded the same call does what C6
    says; and called once more it throws, the token now being [false]. *)
Lemma reset_clears_then_throws :
  let first := Alt.reset Examples.ex_env [] Examples.ex_world in
  let second := Alt.reset Examples.ex_env [] first.2 in
  universal (data first.2) "user" = VBool false /\
  universal (data first.2) "loggedIn" = VBool false /\
  universal (data first.2) "_token.social" = VBool false /\
  universal (data first.2) "_refresh_token.social" = VBool false /\
  second.1 = Throw (TypeError "split is not a function").
Proof. vm_compute. done. Qed.

(** [login] evaluated, for a strategy that has the capability. *)
Lemma login_unfold env args w s h :
  active env (data w) = Some s ->
  s_login s = Some h ->
  await (login env args) w =
    match h args (data w) with
    | HThrow e d =>
        (Threw e, mkWorld d (trace w ++ [EvHook "login" args]) (clock_reads w))
    | HReturn p d =>
        let entered :=
          trace w ++ [EvHook "login" args; EvSetState "busy" (VBool true)] in
        let '(st, d') := p (bracket_open d) in
        let w2 := mkWorld (bracket_close d')
                          (entered ++ [EvSetState "busy" (VBool false)])
                          (clock_reads w) in
        match st with
        | Resolved _ => (Settled (Resolved VUndefined), w2)
        | Rejected e =>
            match callOnError env e "login" w2 with
            | (Ok _, w') => (Settled (Rejected e), w')
            | (Throw e', w') => (Settled (Rejected e'), w')
            end
        end
    end.
Proof.
  intros Hs Hlogin. unfold await, login.
  erewrite bind_Ok by (by apply strategy_dot_active). rewrite Hlogin.
  unfold call_hook, bind at 1, bind at 1, emit. simpl.
  destruct (h args (data w)) as [e d|p d]; [reflexivity|].
  unfold wrapLogin, bind at 1, bind at 1, setState. simpl.
  unfold catch_ at 1, catch_ at 1, then_ at 1, promise_of at 1. simpl.
  unfold bracket_open, bracket_close.
  destruct (p _) as [[v|e] d']; simpl.
  - by rewrite <- !app_assoc.
  - unfold bind at 1. rewrite <- !app_assoc. simpl.
    by destruct (callOnError _ _ _ _) as [[[]|e'] w'].
Qed.

(** C7 as stated fails: [busy] is not set before the delegated call.  In
    [this.wrapLogin(this.strategy.login(...arguments))] the argument is
    evaluated first.  A [login] hook that notes the [busy] it finds on
    entry finds none, and the trace has the hook entered before [busy] is
    written; a [login] hook that throws makes [login()] throw with [busy]
    never written and nothing delivered to the listener. *)
Lemma login_enters_strategy_before_busy :
  let r := await (login Examples.ex_env []) Examples.ex_local_world in
  let r' := await (login Examples.ex_env []) Examples.ex_broken_world in
  r.1 = Settled (Resolved VUndefined) /\
  trace r.2 = [EvHook "login" []; EvSetState "busy" (VBool true);
               EvSetState "busy" (VBool false)] /\
  state (data r.2) !! "busy_at_entry" = Some VUndefined /\
  r'.1 = Threw (VStr "boom") /\
  trace r'.2 = [EvHook "login" []] /\
  state (data r'.2) !! "busy" = None.
Proof. vm_compute. done. Qed.

(** C7, amended.  For every call to [login()] with an active strategy and
    listeners that return:

    - without a [login] capability the call returns a resolved promise
      and leaves the world as it was;
    - with one, the strategy's [login] is entered first, on the store as
      it stands.  If it throws, [login()] throws the same, with [busy]
      not written and nothing reported.  If it returns a promise, [busy]
      is then set to [true] (and [this.error] to [null]), the promise
      settles on that store, and [busy] is set back to [false] whichever
      way it settles; on resolution [login()] resolves, on rejection the
      error is delivered to every listener with payload method ["login"]
      and [login()] rejects with it. *)
Theorem login_bracket env args w s :
  active env (data w) = Some s ->
  listeners_return env ->
  match s_login s with
  | None => login env args w = (Ok (resolved VUndefined), w)
  | Some h =>
      match h args (data w) with
      | HThrow e d =>
          await (login env args) w =
            (Threw e,
             mkWorld d (trace w ++ [EvHook "login" args]) (clock_reads w))
      | HReturn p d =>
          let entered :=
            trace w ++ [EvHook "login" args; EvSetState "busy" (VBool true)] in
          match p (bracket_open d) with
          | (Resolved _, d') =>
              await (login env args) w =
                (Settled (Resolved VUndefined),
                 mkWorld (bracket_close d')
                         (entered ++ [EvSetState "busy" (VBool false)])
                         (clock_reads w))
          | (Rejected e, d') =>
              exists w',
                await (login env args) w = (Settled (Rejected e), w') /\
                trace w' =
                  entered ++ EvSetState "busy" (VBool false)
                          :: notifications env e "login"
          end
      end
  end.
Proof.
  intros Hs Hl.
  destruct (s_login s) as [h|] eqn:Hlogin.
  - rewrite (login_unfold env args w s h Hs Hlogin).
    destruct (h args (data w)) as [e d|p d]; [reflexivity|].
    destruct (p (bracket_open d)) as [[v|e] d']; [reflexivity|]. simpl.
    match goal with
    | |- context [callOnError env e "login" ?w2] =>
        destruct (callOnError_returns env e "login" w2 Hl) as (w' & -> & Ht)
    end.
    exists w'. split; [done|]. rewrite Ht. simpl. by rewrite <- app_assoc.
  - unfold login. erewrite bind_Ok by (by apply strategy_dot_active).
    by rewrite Hlogin.
Qed.

(** C7, amended, on the examples: a strategy with a [login] hook, and one
    without. *)
Lemma login_bracket_witness :
  (await (login Examples.ex_env []) Examples.ex_local_world).1
    = Settled (Resolved VUndefined) /\
  login Examples.ex_env [] Examples.ex_world
    = (Ok (resolved VUndefined), Examples.ex_world).
Proof.
  assert (Hl : listeners_return Examples.ex_env)
    by (by intros fn ? ? ? [<-|[]]).
  split.
  - refine (f_equal fst
              (_ : await (login Examples.ex_env []) Examples.ex_local_world
                   = (Settled (Resolved VUndefined), _))).
    exact (login_bracket Examples.ex_env [] Examples.ex_local_world
             Examples.ex_local eq_refl Hl).
  - exact (login_bracket Examples.ex_env [] Examples.ex_world
             Examples.ex_strategy eq_refl Hl).
Defined.

End Session.

(* ===================================================================== *)
(** ** Lemmas on strings, keys, the store and promise chains *)
(* ===================================================================== *)

Module Helpers.
Import JS Machine Engine Script Laws Rules Observe Registry Views.
Open Scope js_scope.
Open Scope list_scope.

(** *** Strings *)

Lemma append_assoc (a b c : string) :
  ((a ++ b) ++ c = a ++ (b ++ c))%string.
Proof.
  induction a as [|x a IH]; [reflexivity|].
  change (String x ((a +:+ b) +:+ c) = String x (a +:+ (b +:+ c))).
  by rewrite IH.
Qed.

Lemma append_nil_r (a : string) : (a ++ EmptyString)%string = a.
Proof.
  induction a as [|x a IH]; [reflexivity|].
  change (String x (a +:+ EmptyString) = String x a). by rewrite IH.
Qed.

Lemma rev_app_append (a b : string) :
  String.rev_app a b = (String.rev a ++ b)%string.
Proof.
  revert b. induction a as [|x a IH]; intros b; [reflexivity|].
  unfold String.rev. simpl. rewrite (IH (String x EmptyString)), IH.
  by rewrite append_assoc.
Qed.

Lemma rev_cons x (a : string) :
  String.rev (String x a) = (String.rev a ++ String x EmptyString)%string.
Proof. unfold String.rev at 1. simpl. apply rev_app_append. Qed.

Lemma string_prefix_nil s : String.prefix EmptyString s = true.
Proof. by destruct s. Qed.

(** *** Splitting on a space, and joining again *)

Lemma split_go_step sep skip cur c r :
  split_go sep skip cur (String c r) =
  match skip with
  | S k => split_go sep k cur r
  | O =>
      if String.prefix sep (String c r)
      then String.rev cur
           :: split_go sep (Nat.pred (String.length sep)) EmptyString r
      else split_go sep O (String c cur) r
  end.
Proof. reflexivity. Qed.

Lemma split_go_cons sep skip cur s :
  exists x l, split_go sep skip cur s = x :: l.
Proof.
  revert skip cur. induction s as [|c r IH]; intros skip cur.
  - simpl. eauto.
  - rewrite split_go_step. destruct skip; [|apply IH].
    destruct (String.prefix sep (String c r)); [eauto | apply IH].
Qed.

Lemma concat_cons sep x y l :
  String.concat sep (x :: y :: l)
  = (x ++ sep ++ String.concat sep (y :: l))%string.
Proof. reflexivity. Qed.

Lemma split_space_step c r cur :
  split_go " " 0 cur (String c r) =
  if Ascii.eqb c " "
  then String.rev cur :: split_go " " 0 EmptyString r
  else split_go " " 0 (String c cur) r.
Proof.
  rewrite split_go_step. cbn -[ascii_dec String.rev split_go].
  destruct (ascii_dec " " c) as [<-|Hne].
  - by rewrite string_prefix_nil.
  - destruct (Ascii.eqb_spec c " ") as [->|]; [done|reflexivity].
Qed.

Lemma split_space_join s : forall cur,
  String.concat " " (split_go " " 0 cur s) = (String.rev cur ++ s)%string.
Proof.
  induction s as [|c r IH]; intros cur.
  - simpl. by rewrite append_nil_r.
  - rewrite split_space_step. destruct (Ascii.eqb_spec c " ") as [->|Hne].
    + destruct (split_go_cons " " 0 EmptyString r) as (x & l & Hx).
      specialize (IH EmptyString). rewrite Hx in *.
      rewrite concat_cons, IH. reflexivity.
    + rewrite IH, rev_cons, append_assoc. reflexivity.
Qed.

Lemma has_space_append a b :
  has_space (a ++ b)%string = has_space a || has_space b.
Proof.
  induction a as [|x a IH]; [reflexivity|].
  change (has_space (String x (a +:+ b))
          = has_space (String x a) || has_space b).
  simpl. by rewrite IH, orb_assoc.
Qed.

Lemma split_space_parts s : forall cur,
  has_space (String.rev cur) = false ->
  Forall (fun p => has_space p = false) (split_go " " 0 cur s).
Proof.
  induction s as [|c r IH]; intros cur Hcur.
  - simpl. by constructor.
  - rewrite split_space_step. destruct (Ascii.eqb c " ") eqn:Hc.
    + constructor; [done|]. by apply IH.
    + apply IH. rewrite rev_cons, has_space_append, Hcur. simpl.
      by rewrite Hc.
Qed.


(** *** The keys of the records *)

Lemma prefixed_ne p x k :
  String.prefix "_" p = true -> String.prefix "_" k = false ->
  (p ++ x)%string <> k.
Proof.
  destruct p as [|c p]; cbn -[ascii_dec]; [done|].
  destruct (ascii_dec "_" c) as [<-|]; [|done].
  intros _ Hk <-. revert Hk.
  change (String "_" p +:+ x) with (String "_" (p +:+ x)).
  cbn -[ascii_dec]. destruct (ascii_dec "_" "_"); [|congruence].
  by destruct (p +:+ x).
Qed.

Lemma prefixed_token env : prefixed_keys env = true ->
  String.prefix "_" (token_prefix (options env)) = true.
Proof. unfold prefixed_keys. by intros [? ?]%andb_prop. Qed.

Lemma prefixed_refresh env : prefixed_keys env = true ->
  String.prefix "_" (refresh_token_prefix (options env)) = true.
Proof. unfold prefixed_keys. by intros [? ?]%andb_prop. Qed.

Lemma token_key_ne env v k :
  prefixed_keys env = true -> String.prefix "_" k = false ->
  token_key env v <> k.
Proof. intros. apply prefixed_ne; [by apply prefixed_token | done]. Qed.

Lemma refresh_token_key_ne env v k :
  prefixed_keys env = true -> String.prefix "_" k = false ->
  refresh_token_key env v <> k.
Proof. intros. apply prefixed_ne; [by apply prefixed_refresh | done]. Qed.

Lemma scope_key_ne env v k :
  prefixed_keys env = true -> String.prefix "_" k = false ->
  scope_key env v <> k.
Proof.
  intros. unfold scope_key. rewrite append_assoc.
  apply prefixed_ne; [by apply prefixed_token | done].
Qed.

Lemma expiration_key_ne env v k :
  prefixed_keys env = true -> String.prefix "_" k = false ->
  expiration_key env v <> k.
Proof.
  intros. unfold expiration_key. rewrite append_assoc.
  apply prefixed_ne; [by apply prefixed_token | done].
Qed.

(** *** Reading the store *)

Lemma universal_signed u d k :
  k <> "user" -> k <> "loggedIn" -> universal (signed u d) k = universal d k.
Proof.
  intros H1 H2. unfold universal, signed. simpl.
  by rewrite !lookup_insert_ne by done.
Qed.

Lemma active_signed env u d : active env (signed u d) = active env d.
Proof. unfold active, signed. simpl. by rewrite !lookup_insert_ne by done. Qed.

Lemma getToken_eq env s w v :
  universal (data w) (token_key env s) = v -> getToken env s w = (Ok v, w).
Proof. by intros <-. Qed.

Lemma getTokenScope_eq env s w str :
  universal (data w) (scope_key env s) = VStr str ->
  getTokenScope env s w = (Ok (VArr (map VStr (split_str " " str))), w).
Proof.
  intros H. unfold getTokenScope. erewrite bind_Ok by reflexivity.
  by rewrite H.
Qed.


Lemma getState_eq key w :
  getState key w = (Ok (default VUndefined (state (data w) !! key)), w).
Proof. reflexivity. Qed.


Lemma universal_written k v d :
  universal (mkData (<[k := v]> (state d)) (<[k := v]> (persisted d))
                    (error d) (cookies d)) k = v.
Proof. unfold universal. simpl. by rewrite lookup_insert_eq. Qed.

Lemma universal_written_ne k k' v d :
  k <> k' ->
  universal (mkData (<[k := v]> (state d)) (<[k := v]> (persisted d))
                    (error d) (cookies d)) k' = universal d k'.
Proof. intros. unfold universal. simpl. by rewrite !lookup_insert_ne. Qed.

Lemma setUniversal_eq k v w :
  setUniversal k v w =
  (Ok v, mkWorld (mkData (<[k := v]> (state (data w)))
                         (<[k := v]> (persisted (data w)))
                         (error (data w)) (cookies (data w)))
                 (trace w ++ [EvSetUniversal k v]) (clock_reads w)).
Proof. reflexivity. Qed.

Lemma token_key_inj env a b :
  token_key env a = token_key env b -> to_string a = to_string b.
Proof. apply String.app_inj. Qed.

Lemma refresh_token_key_inj env a b :
  refresh_token_key env a = refresh_token_key env b ->
  to_string a = to_string b.
Proof. apply String.app_inj. Qed.

Lemma expiration_key_inj env a b :
  expiration_key env a = expiration_key env b -> to_string a = to_string b.
Proof. apply String.app_inj. Qed.

Lemma scope_key_inj env a b :
  scope_key env a = scope_key env b -> to_string a = to_string b.
Proof. apply String.app_inj. Qed.


Lemma navigations_app a b :
  navigations (a ++ b) = navigations a ++ navigations b.
Proof. apply omap_app. Qed.


(** *** Code that leaves the store as it is *)

Lemma keeps_ret {A} (a : A) : keeps (ret a).
Proof. done. Qed.
Lemma keeps_throw {A} e : keeps (@throw A e).
Proof. done. Qed.
Lemma keeps_lift {A} (r : Res A) : keeps (lift r).
Proof. done. Qed.
Lemma keeps_read {A} (f : Data -> A) : keeps (read f).
Proof. done. Qed.
Lemma keeps_emit e : keeps (emit e).
Proof. done. Qed.
Lemma keeps_now env : keeps (now env).
Proof. done. Qed.
Lemma keeps_axios env site req : keeps (axios_request env site req).
Proof. done. Qed.
Lemma keeps_bind {A B} (m : M A) (k : A -> M B) :
  keeps m -> (forall a, keeps (k a)) -> keeps (bind m k).
Proof.
  intros Hm Hk w. unfold bind. specialize (Hm w).
  destruct (m w) as [[a|e] w1]; simpl in *; [|done].
  by rewrite Hk.
Qed.
Lemma keeps_async body : keeps body -> keeps (async body).
Proof.
  intros Hb w. unfold async. specialize (Hb w).
  by destruct (body w) as [[p|e] w1].
Qed.

Create HintDb frames discriminated.

Ltac keep_step :=
  lazymatch goal with
  | |- keeps ?m =>
      first
        [ solve [eauto 2 with frames]
        | apply keeps_ret | apply keeps_throw | apply keeps_lift
        | apply keeps_read | apply keeps_emit | apply keeps_now
        | apply keeps_axios
        | apply keeps_async
        | apply keeps_bind; [ | intros ? ]
        | case_code m
        | progress autounfold with engine ]
  end.
Ltac keep := repeat keep_step.

Lemma keeps_getTokenScope env s : keeps (getTokenScope env s).
Proof. unfold getTokenScope. keep. Qed.

Lemma alt_updateUser_keeps env u : keeps (Alt.updateUser env u).
Proof. unfold Alt.updateUser. keep. Qed.

Lemma core_request_keeps env endpoint defaults :
  keeps (Core.request env endpoint defaults).
Proof.
  unfold Core.request, Core.completeRequest, Core.dot_name, Core.dot_options.
  keep.
Qed.

#[export] Hint Resolve keeps_getTokenScope alt_updateUser_keeps
  core_request_keeps : frames.

Lemma core_request_returns env endpoint defaults w :
  exists p, (Core.request env endpoint defaults w).1 = Ok p.
Proof.
  unfold Core.request, async.
  match goal with
  | |- context [match ?b w with _ => _ end] =>
      destruct (b w) as [[p|e] w1]; simpl; eauto
  end.
Qed.


(** *** Universal writes *)

Lemma setUniversal_written k v w : setUniversal k v w = (Ok v, written k v w).
Proof. reflexivity. Qed.

Lemma active_written_ne env k v w :
  k <> "strategy" ->
  active env (data (written k v w)) = active env (data w).
Proof. intros. unfold active. simpl. by rewrite lookup_insert_ne. Qed.

Lemma universal_written_eq k v w : universal (data (written k v w)) k = v.
Proof. apply universal_written. Qed.

Lemma universal_written_other k k' v w :
  k <> k' -> universal (data (written k v w)) k' = universal (data w) k'.
Proof. apply universal_written_ne. Qed.

(** *** The four keys of a strategy *)

Lemma string_length_append (a b : string) :
  String.length (a ++ b)%string = (String.length a + String.length b)%nat.
Proof.
  induction a as [|x a IH]; [reflexivity|].
  change (S (String.length (a +:+ b)) = S (String.length a + String.length b)).
  by rewrite IH.
Qed.

Lemma append_ne_longer (p m n : string) :
  m <> EmptyString -> (p ++ m ++ n)%string <> (p ++ n)%string.
Proof.
  intros Hm Heq. apply (f_equal String.length) in Heq.
  rewrite !string_length_append in Heq.
  destruct m; [done|]. simpl in Heq. lia.
Qed.

Lemma token_ne_expiration env n : token_key env n <> expiration_key env n.
Proof.
  unfold token_key, expiration_key. rewrite append_assoc.
  intros H. symmetry in H. by apply append_ne_longer in H.
Qed.

Lemma token_ne_scope env n : token_key env n <> scope_key env n.
Proof.
  unfold token_key, scope_key. rewrite append_assoc.
  intros H. symmetry in H. by apply append_ne_longer in H.
Qed.

Lemma expiration_ne_scope env n : expiration_key env n <> scope_key env n.
Proof.
  unfold expiration_key, scope_key. rewrite !append_assoc.
  intros H. by apply String.app_inj in H.
Qed.


Lemma separate_records_ne env n :
  separate_records env n = true ->
  token_key env n <> refresh_token_key env n /\
  refresh_token_key env n <> expiration_key env n /\
  refresh_token_key env n <> scope_key env n.
Proof.
  unfold separate_records. intros H%bool_decide_eq_true.
  apply NoDup_cons in H as [H1 H]. apply NoDup_cons in H as [H2 H].
  split; [|split]; intros Heq.
  - apply H1. rewrite Heq. by left.
  - apply H2. rewrite Heq. by left.
  - apply H2. rewrite Heq. right. by left.
Qed.

(** *** The profile request *)

Lemma getRefreshToken_eq env s w v :
  universal (data w) (refresh_token_key env s) = v ->
  getRefreshToken env s w = (Ok v, w).
Proof. by intros <-. Qed.

Lemma strategy_setToken_eq env w s f token :
  active env (data w) = Some s ->
  s_setToken s = Some f ->
  (forall t d, f t d = d) ->
  strategy_setToken env token w =
  (Ok tt, mkWorld (data w) (trace w ++ [EvSetTokenHook token]) (clock_reads w)).
Proof.
  intros Hs Hf Hid. unfold strategy_setToken.
  erewrite bind_Ok by (by apply strategy_dot_active). rewrite Hf.
  erewrite bind_Ok by reflexivity. unfold modify, with_data. simpl.
  rewrite Hid. by destruct (data w).
Qed.

Lemma add_space_string env a b : exists str, bearer env a b = VStr str.
Proof.
  unfold bearer, add at 1.
  replace (is_stringish (add (string_to_number env) a (VStr " "))) with true.
  - simpl. eauto.
  - unfold add. destruct (is_stringish a); simpl; reflexivity.
Qed.

Lemma alt_updateUser_sends env u w s tok scp :
  active env (data w) = Some s ->
  universal (data w) (token_key env (s_name s)) = VStr tok ->
  universal (data w) (scope_key env (s_name s)) = VStr scp ->
  exists profile,
    Alt.updateUser env u w =
    (Ok tt, mkWorld (data w) (trace w ++ [EvAxios SiteProfile profile])
                    (clock_reads w)) /\
    (exists d, get profile "data" = Ok d /\
       get d "user" = Ok u /\
       get d "access_token" = Ok (nth_str 1 (split_str "Bearer " tok)) /\
       get d "refresh_token"
         = Ok (universal (data w) (refresh_token_key env (s_name s))) /\
       get d "scope" = Ok (VArr (map VStr (split_str " " scp)))).
Proof.
  intros Hs Htok Hscp.
  pose proof (getTokenScope_eq env (s_name s) w scp Hscp) as Hscope.
  pose proof (getToken_eq env (s_name s) w _ Htok) as Htoken.
  eexists. split.
  - unfold Alt.updateUser.
    erewrite bind_Ok by (by apply strategy_dot_active).
    erewrite bind_Ok by exact Htoken.
    erewrite bind_Ok by reflexivity.
    erewrite bind_Ok by (by apply strategy_dot_active).
    erewrite bind_Ok by reflexivity.
    erewrite bind_Ok by (by apply strategy_dot_active).
    erewrite bind_Ok by exact Hscope.
    erewrite bind_Ok by reflexivity. reflexivity.
  - eexists. split; [reflexivity|]. repeat split; reflexivity.
Qed.


(** *** Splitting on a separator *)

Lemma prefix_cons c s1 d s2 :
  String.prefix (String c s1) (String d s2) =
  if ascii_dec c d then String.prefix s1 s2 else false.
Proof. reflexivity. Qed.

Lemma prefix_append_true sep t : String.prefix sep (sep ++ t)%string = true.
Proof.
  induction sep as [|c sep IH]; [apply string_prefix_nil|].
  change (String c sep +:+ t) with (String c (sep +:+ t)).
  rewrite prefix_cons. by destruct (ascii_dec c c).
Qed.

Lemma prefix_append sep s :
  String.prefix sep s = true -> exists t, s = (sep ++ t)%string.
Proof.
  revert s. induction sep as [|c sep IH]; intros s; [by exists s|].
  destruct s as [|d s]; [done|]. rewrite prefix_cons.
  destruct (ascii_dec c d) as [<-|]; [|done].
  intros (t & ->)%IH. by exists t.
Qed.

Lemma split_go_skip sep cur pre : forall t,
  split_go sep (String.length pre) cur (pre ++ t)%string = split_go sep 0 cur t.
Proof.
  induction pre as [|c pre IH]; intros t; [reflexivity|].
  change (String c pre +:+ t) with (String c (pre +:+ t)).
  simpl String.length. rewrite split_go_step. apply IH.
Qed.

Lemma split_starts_with_separator c sep t :
  split_str (String c sep) (String c sep ++ t)%string
  = EmptyString :: split_go (String c sep) 0 EmptyString t.
Proof.
  unfold split_str.
  change (String c sep +:+ t) with (String c (sep +:+ t)).
  rewrite split_go_step.
  change (String c (sep +:+ t)) with (String c sep +:+ t).
  rewrite prefix_append_true. simpl String.length. simpl Nat.pred.
  by rewrite split_go_skip.
Qed.

Lemma split_without_separator sep t : forall cur,
  (forall s, String.prefix sep s = true -> has_space s = true) ->
  has_space t = false ->
  split_go sep 0 cur t = [(String.rev cur ++ t)%string].
Proof.
  intros cur Hsep. revert cur. induction t as [|c r IH]; intros cur Ht.
  - simpl. by rewrite append_nil_r.
  - rewrite split_go_step.
    destruct (String.prefix sep (String c r)) eqn:Hpre.
    + apply Hsep in Hpre. congruence.
    + simpl in Ht. apply orb_false_elim in Ht as [_ Hr].
      rewrite IH by done. by rewrite rev_cons, append_assoc.
Qed.

Lemma bearer_has_space s :
  String.prefix "Bearer " s = true -> has_space s = true.
Proof.
  intros (t & ->)%prefix_append. by rewrite has_space_append.
Qed.


(** *** Promise chains *)

Lemma P_fails_then {X} (proj : Event -> option X) p f :
  P_silent p ->
  (forall v, MP_fails proj (f v)) ->
  P_fails proj (then_ p f).
Proof.
  intros Hp Hf w. unfold then_. specialize (Hp w).
  destruct (p w) as [[v|e] w1]; simpl in *.
  - destruct (Hf v w1) as (evs & Ht & Hs & H).
    destruct (f v w1) as [[q|e] w2]; simpl in *.
    + destruct (H w2) as (evs2 & Ht2 & Hs2 & e & He).
      exists (evs ++ evs2). rewrite Ht2, Ht, Hp, <- app_assoc.
      split; [done|]. split; [by rewrite skel_app, Hs, Hs2|]. by exists e.
    + exists evs. rewrite Ht, Hp. split; [done|]. split; [done|]. by exists e.
  - exists []. rewrite Hp, app_nil_r. split; [done|]. split; [done|].
    by exists e.
Qed.


Lemma alt_completeRequest_sync env endpoint defaults w :
  Alt.completeRequest env endpoint defaults w =
  (Ok (then_ (fun w' => (axios env (requests_sent (trace w))
                               (merged endpoint defaults), w'))
             (fun response =>
                Alt.loading env "finish" ;;
                do propertyName <-
                  lift (get (merged endpoint defaults) "propertyName");
                if truthy propertyName then
                  do body <- lift (get response "data");
                  ret (resolved (getProp env body propertyName))
                else
                  do body <- lift (get response "data");
                  ret (resolved body))),
   mkWorld (data w)
           (trace w ++ [EvAxios SiteDispatch (merged endpoint defaults)])
           (clock_reads w)).
Proof. reflexivity. Qed.

Lemma core_completeRequest_eq env endpoint defaults w :
  Core.completeRequest env endpoint defaults w =
  (Ok (catch_
         (then_ (fun w' => (axios env (requests_sent (trace w))
                                  (merged endpoint defaults), w'))
                (fun response =>
                   Core.loading env "finish" ;;
                   do propertyName <-
                     lift (get (merged endpoint defaults) "propertyName");
                   if truthy propertyName then
                     do body <- lift (get response "data");
                     ret (resolved (getProp env body propertyName))
                   else
                     do body <- lift (get response "data");
                     ret (resolved body)))
         (fun err =>
            Core.loading env "fail" ;;
            callOnError env err "completeRequest" ;;
            ret (rejected err))),
   mkWorld (data w)
           (trace w ++ [EvAxios SiteDispatch (merged endpoint defaults)])
           (clock_reads w)).
Proof. reflexivity. Qed.


(** *** [Object.assign({}, defaults, endpoint)] *)

Lemma assoc_remove_key_ne k k' fs :
  k <> k' -> assoc k (remove_key k' fs) = assoc k fs.
Proof.
  intros Hne. induction fs as [|[k0 v0] fs IH]; [done|]. simpl.
  destruct (String.eqb_spec k' k0) as [<-|Hk0]; simpl.
  - rewrite IH. destruct (String.eqb_spec k k'); [done|reflexivity].
  - by rewrite IH.
Qed.

Lemma assoc_put_ne k k' v fs :
  k <> k' -> assoc k (put k' v fs) = assoc k fs.
Proof.
  intros Hne. induction fs as [|[k0 v0] fs IH]; simpl.
  - destruct (String.eqb_spec k k'); [done|reflexivity].
  - destruct (String.eqb_spec k' k0) as [<-|Hk0]; simpl.
    + destruct (String.eqb_spec k k'); [done|].
      by apply assoc_remove_key_ne.
    + by rewrite IH.
Qed.

Lemma assoc_put k k' v fs :
  assoc k (put k' v fs) = if String.eqb k k' then Some v else assoc k fs.
Proof.
  destruct (String.eqb_spec k k') as [->|Hne].
  - apply assoc_put_eq.
  - by apply assoc_put_ne.
Qed.

(** The last binding of a key in a list of properties. *)
Lemma assoc_fold k l : forall acc,
  assoc k (fold_left (fun acc kv => put kv.1 kv.2 acc) l acc) =
  match assoc k (rev l) with
  | Some v => Some v
  | None => assoc k acc
  end.
Proof.
  induction l as [|[k' v] l IH]; intros acc; [done|].
  simpl. rewrite IH, assoc_put.
  clear IH. induction (rev l) as [|[k0 v0] r IHr]; simpl.
  - by destruct (String.eqb k k').
  - destruct (String.eqb k k0); [done|exact IHr].
Qed.

Lemma assoc_app k a b :
  assoc k (a ++ b) =
  match assoc k a with Some v => Some v | None => assoc k b end.
Proof.
  induction a as [|[k0 v0] a IH]; [done|]. simpl.
  by destruct (String.eqb k k0).
Qed.

Lemma assoc_None k fs : k ∉ map fst fs -> assoc k fs = None.
Proof.
  induction fs as [|[k0 v0] fs IH]; [done|]. simpl.
  intros Hk. apply not_elem_of_cons in Hk as [Hne Hk].
  destruct (String.eqb_spec k k0); [done|]. by apply IH.
Qed.

Lemma assoc_rev k fs : NoDup (map fst fs) -> assoc k (rev fs) = assoc k fs.
Proof.
  induction fs as [|[k0 v0] fs IH]; [done|]. simpl.
  intros [Hk0 Hnd]%NoDup_cons. rewrite assoc_app, IH by done. simpl.
  destruct (String.eqb_spec k k0) as [->|Hne].
  - by rewrite assoc_None.
  - by destruct (assoc k fs).
Qed.


(** *** Laws of [A_sat] *)

Section SatLaws.
Context {X : Type} (proj : Event -> option X).

Lemma A_sat_bind {A} Q (m : M A) (k : A -> M Promise) :
  Q [] ->
  M_runs proj [] [] any m ->
  (forall a, A_sat proj Q (k a)) ->
  A_sat proj Q (bind m k).
Proof.
  intros HQ Hm Hk w. unfold await, bind.
  destruct (Hm w) as (evs & Ht & H).
  destruct (m w) as [[a|e] w1]; simpl in *.
  - destruct H as [Hsk _]. rewrite app_nil_r in Hsk.
    destruct (Hk a w1) as (evs1 & Ht1 & HQ1). unfold await in Ht1, HQ1.
    destruct (k a w1) as [[p|e] w2]; simpl in *.
    + destruct (p w2) as [st w3]. simpl in *.
      exists (evs ++ evs1). rewrite Ht1, Ht, <- app_assoc. split; [done|].
      by rewrite skel_app, Hsk.
    + exists (evs ++ evs1). rewrite Ht1, Ht, <- app_assoc. split; [done|].
      by rewrite skel_app, Hsk.
  - exists evs. split; [done|]. apply prefix_nil_inv in H. by rewrite H.
Qed.

Lemma A_sat_async Q body : A_sat proj Q body -> A_sat proj Q (async body).
Proof.
  intros Hb w. destruct (Hb w) as (evs & Ht & HQ). exists evs.
  unfold await, async in *.
  destruct (body w) as [[p|e] w1]; simpl in *; [|done].
  by destruct (p w1).
Qed.

Lemma A_sat_weaken (Q Q' : list X -> Prop) m :
  (forall l, Q l -> Q' l) -> A_sat proj Q m -> A_sat proj Q' m.
Proof.
  intros HQ Hm w. destruct (Hm w) as (evs & Ht & H). exists evs. auto.
Qed.

Lemma A_sat_of_runs c m :
  A_runs proj c [] m -> A_sat proj (fun l => l `prefix_of` c) m.
Proof.
  intros Hm w. destruct (A_runs_trace proj c m w Hm) as (evs & Ht & H).
  by exists evs.
Qed.

(** A promise guarded by a handler that runs a script of its own. *)
Lemma P_sat_catch c c2 (p : Promise) (g : value -> M Promise) :
  P_runs proj c [] p ->
  (forall e, MP_runs proj c2 [] (g e)) ->
  forall w, exists evs,
    trace (catch_ p g w).2 = trace w ++ evs /\
    exists a b, Script.skel proj evs = a ++ b /\
                a `prefix_of` c /\ b `prefix_of` c2.
Proof.
  intros Hp Hg w. unfold catch_.
  destruct (Hp w) as (evs1 & Ht1 & H1).
  destruct (p w) as [[v|e] w2]; simpl in *.
  - exists evs1. split; [done|].
    exists (Script.skel proj evs1), [].
    rewrite app_nil_r. split; [done|]. split; [|apply prefix_nil].
    rewrite app_nil_r in H1. by rewrite H1.
  - destruct (Hg e w2) as (evs2 & Ht2 & H2).
    destruct (g e w2) as [[q|e'] w3]; simpl in *.
    + destruct H2 as (r2 & Hr2 & Hq).
      destruct (Hq w3) as (evs3 & Ht3 & H3).
      destruct (q w3) as [st w4]. simpl in *.
      exists (evs1 ++ (evs2 ++ evs3)).
      rewrite Ht3, Ht2, Ht1, <- !app_assoc. split; [done|].
      exists (Script.skel proj evs1), (Script.skel proj (evs2 ++ evs3)).
      split; [by rewrite <- !skel_app|].
      split; [done|]. rewrite skel_app.
      eapply prefix_step; [exact Hr2|].
      destruct st; [rewrite app_nil_r in H3; by rewrite H3 | done].
    + exists (evs1 ++ evs2).
      rewrite Ht2, Ht1, <- !app_assoc. split; [done|].
      exists (Script.skel proj evs1), (Script.skel proj evs2).
      split; [by rewrite <- !skel_app|]. done.
Qed.

Lemma A_sat_catch c r1 c2 (m : M Promise) (f g : value -> M Promise) :
  MP_runs proj c r1 m ->
  (forall v, MP_runs proj r1 [] (f v)) ->
  (forall e, MP_runs proj c2 [] (g e)) ->
  A_sat proj (fun l => exists a b, l = a ++ b /\
                         a `prefix_of` c /\ b `prefix_of` c2)
        (do p <- m; ret (catch_ (then_ p f) g)).
Proof.
  intros Hm Hf Hg w. unfold await, bind, ret.
  destruct (Hm w) as (evs & Ht & H).
  destruct (m w) as [[p|e] w1]; simpl in *.
  - destruct H as (r0 & Hr0 & Hp).
    assert (Hthen : P_runs proj r0 [] (then_ p f))
      by (eapply P_then_MP; [exact Hp | exact Hf]).
    destruct (P_sat_catch r0 c2 _ g Hthen Hg w1)
      as (evs1 & Ht1 & a & b & Hab & Ha & Hb).
    destruct (catch_ (then_ p f) g w1) as [st w2]. simpl in *.
    exists (evs ++ evs1). rewrite Ht1, Ht, <- app_assoc. split; [done|].
    exists (Script.skel proj evs ++ a), b.
    rewrite skel_app, Hab, <- app_assoc. split; [done|]. split; [|done].
    eapply prefix_step; [exact Hr0 | exact Ha].
  - exists evs. split; [done|]. exists (Script.skel proj evs), [].
    rewrite app_nil_r. split; [done|]. split; [done | apply prefix_nil].
Qed.

Lemma MP_runs_of_fails c m : MP_fails proj m -> MP_runs proj c [] m.
Proof.
  intros Hm w. destruct (Hm w) as (evs & Ht & Hs & H). exists evs.
  split; [done|]. rewrite Hs.
  destruct ((m w).1) as [p|e]; [|apply prefix_nil].
  exists c. split; [done|]. intros w1.
  destruct (H w1) as (evs1 & Ht1 & Hs1 & e & He). exists evs1.
  split; [done|]. rewrite He, Hs1. apply prefix_nil.
Qed.

End SatLaws.


(** *** Counting steps *)

Lemma occurs_app s a b : occurs s (a ++ b) = (occurs s a + occurs s b)%nat.
Proof. unfold occurs. by rewrite filter_app, length_app. Qed.

Lemma occurs_prefix s a c : a `prefix_of` c -> (occurs s a <= occurs s c)%nat.
Proof. intros [k ->]. rewrite occurs_app. lia. Qed.

Ltac count_steps :=
  unfold recovery_script in *;
  repeat match goal with
         | H : context [occurs ?s (?x :: ?l)] |- _ =>
             let n := eval vm_compute in (occurs s (x :: l)) in
             change (occurs s (x :: l)) with n in H
         end.


Lemma forbid_none allowed evs :
  Script.skel (forbid allowed) evs = [] -> forallb allowed evs = true.
Proof.
  unfold Script.skel. induction evs as [|e evs IH]; [done|].
  simpl. unfold forbid at 1. destruct (allowed e); [exact IH | done].
Qed.


End Helpers.


(* ===================================================================== *)
(** ** The error bus *)
(* ===================================================================== *)

Module ErrorBus.
Import JS Machine Engine Script Laws Rules Observe Registry Views Helpers.
Import Examples Scenarios.
Open Scope js_scope.
Open Scope list_scope.

(** Listeners that leave [this.error] alone: so does their delivery. *)
Lemma heard_error ls err payload : forall d,
  (forall fn e p d, In fn ls -> error (fn e p d).2 = error d) ->
  error (heard ls err payload d) = error d.
Proof.
  induction ls as [|fn ls IH]; intros d Hk; [done|].
  simpl. rewrite IH by (intros; apply Hk; by right).
  apply Hk. by left.
Qed.

(** The delivery to listeners that return: each is called on the store
    the one before it left. *)
Lemma callListeners_heard ls : forall i err payload w,
  (forall fn e p d, In fn ls -> (fn e p d).1 = None) ->
  exists w',
    callListeners i ls err payload w = (Ok tt, w') /\
    trace w' = trace w ++ deliveries i ls err payload /\
    data w' = heard ls err payload (data w) /\
    clock_reads w' = clock_reads w.
Proof.
  induction ls as [|fn ls IH]; intros i err payload w Hok.
  - exists w. simpl. by rewrite app_nil_r.
  - simpl. erewrite bind_Ok by reflexivity.
    pose proof (Hok fn err payload (data w) (or_introl eq_refl)) as Hfn.
    unfold bind at 1. simpl.
    destruct (fn err payload (data w)) as [[e|] d]; [done|]. simpl.
    destruct (IH (S i) err payload
                 (with_data d
                    (mkWorld (data w) (trace w ++ [EvListener i err payload])
                             (clock_reads w))))
      as (w' & -> & Ht & Hd & Hc).
    { intros. apply Hok. by right. }
    exists w'. split; [done|]. split; [|by split].
    rewrite Ht. simpl. rewrite <- app_assoc. simpl.
    unfold deliveries. simpl. rewrite Nat.add_0_r. do 2 f_equal.
    apply imap_ext. intros. simpl. f_equal. lia.
Qed.

(** X1. [callOnError(error, payload)] with listeners that return: after
    [this.error] is set, every registered listener is called exactly once
    with the error and the payload, in the order of registration: the
    store that is left is the one the listeners make of it one after the
    other, the first registered first, each working on what the one
    before it left; nothing else is done.  [this.error] holds the error
    afterwards when no listener assigns it. *)
Theorem callOnError_notifies_in_order env err method w :
  listeners_return env ->
  exists w',
    callOnError env err method w = (Ok tt, w') /\
    trace w' = trace w ++ notifications env err method /\
    length (notifications env err method) = length (errorListeners env) /\
    data w' = heard (errorListeners env) err (payload_of method)
                    (with_error err (data w)) /\
    ((forall fn e p d,
        In fn (errorListeners env) -> error (fn e p d).2 = error d) ->
     error (data w') = err).
Proof.
  intros Hl. unfold callOnError. erewrite bind_Ok by reflexivity.
  match goal with
  | |- context [callListeners 0 _ _ _ ?w1] =>
      destruct (callListeners_heard (errorListeners env) 0 err
                  (payload_of method) w1 Hl) as (w' & Heq & Ht & Hd & _)
  end.
  exists w'. split; [exact Heq|]. split; [exact Ht|]. split.
  - unfold notifications, deliveries. by rewrite length_imap.
  - split; [exact Hd|]. intros Hk. rewrite Hd.
    by rewrite heard_error.
Qed.

(** X1 on the listener of the examples and two more, which note that they
    were called: the one registered first has noted it first. *)
Lemma callOnError_notifies_in_order_witness :
  exists w',
    callOnError ex_noting_env (VStr "boom") "login" ex_world = (Ok tt, w') /\
    trace w' =
      [EvListener 0 (VStr "boom") (payload_of "login");
       EvListener 1 (VStr "boom") (payload_of "login");
       EvListener 2 (VStr "boom") (payload_of "login")] /\
    state (data w') !! "heard" = Some (VArr [VStr "second"; VStr "third"]) /\
    error (data w') = VStr "boom".
Proof.
  destruct (callOnError_notifies_in_order ex_noting_env (VStr "boom") "login"
              ex_world)
    as (w' & Heq & Ht & _ & Hd & He).
  { by intros fn ? ? ? [<-|[<-|[<-|[]]]]. }
  exists w'. split; [exact Heq|]. split; [exact Ht|].
  split; [by rewrite Hd|].
  apply He. by intros fn ? ? ? [<-|[<-|[<-|[]]]].
Defined.

(** The delivery up to the first listener that throws. *)
Lemma callListeners_throws before : forall i fn after err payload e w,
  (forall g d, In g before -> (g err payload d).1 = None) ->
  (forall d, (fn err payload d).1 = Some e) ->
  exists w',
    callListeners i (before ++ fn :: after) err payload w = (Throw e, w') /\
    trace w' = trace w ++ deliveries i (before ++ [fn]) err payload.
Proof.
  induction before as [|g before IH]; intros i fn after err payload e w Hb Hf.
  - simpl. erewrite bind_Ok by reflexivity. unfold bind at 1. simpl.
    specialize (Hf (data w)).
    destruct (fn err payload (data w)) as [[e'|] d]; simpl in *; [|done].
    injection Hf as ->. eexists. split; [reflexivity|].
    unfold deliveries. simpl. by rewrite Nat.add_0_r.
  - simpl. erewrite bind_Ok by reflexivity. unfold bind at 1. simpl.
    pose proof (Hb g (data w) (or_introl eq_refl)) as Hg.
    destruct (g err payload (data w)) as [[e'|] d]; simpl in *; [done|].
    match goal with
    | |- context [callListeners _ _ _ _ ?w1] =>
        destruct (IH (S i) fn after err payload e w1) as (w' & -> & H2);
          [intros; apply Hb; by right | done |]
    end.
    exists w'. split; [done|]. rewrite H2. simpl. rewrite <- app_assoc. simpl.
    unfold deliveries. simpl. rewrite Nat.add_0_r. do 2 f_equal.
    apply imap_ext. intros. simpl. f_equal. lia.
Qed.

(** X2. A listener that throws ends the delivery: [callOnError] throws what
    the listener threw, the listeners registered before it and the one that
    threw have been called, in order, and those registered after it are
    not called. *)
Theorem callOnError_stops_at_throwing_listener
    env err method w before fn after e :
  errorListeners env = before ++ fn :: after ->
  (forall g d, In g before -> (g err (payload_of method) d).1 = None) ->
  (forall d, (fn err (payload_of method) d).1 = Some e) ->
  exists w',
    callOnError env err method w = (Throw e, w') /\
    trace w' =
      trace w ++ deliveries 0 (before ++ [fn]) err (payload_of method).
Proof.
  intros Hls Hb Hf. unfold callOnError. erewrite bind_Ok by reflexivity.
  rewrite Hls.
  match goal with
  | |- context [callListeners _ _ _ _ ?w1] =>
      destruct (callListeners_throws before 0 fn after err (payload_of method)
                  e w1 Hb Hf) as (w' & Heq & Ht)
  end.
  by exists w'.
Qed.

(** X2 with three listeners, the second of which throws. *)
Lemma callOnError_stops_at_throwing_listener_witness :
  exists w',
    callOnError ex_noisy_env (VStr "boom") "login" ex_world
      = (Throw (VStr "listener failed"), w') /\
    trace w' =
      [EvListener 0 (VStr "boom") (payload_of "login");
       EvListener 1 (VStr "boom") (payload_of "login")].
Proof.
  apply (callOnError_stops_at_throwing_listener
           ex_noisy_env (VStr "boom") "login" ex_world
           [ex_listener] ex_throwing [ex_listener] (VStr "listener failed")).
  - reflexivity.
  - by intros g d [<-|[]].
  - reflexivity.
Defined.

(** The delivery to a list of listeners that return, and then to more. *)
Lemma callListeners_app l1 : forall i l2 err payload w,
  (forall fn e p d, In fn l1 -> (fn e p d).1 = None) ->
  exists w0,
    callListeners i l1 err payload w = (Ok tt, w0) /\
    callListeners i (l1 ++ l2) err payload w =
      callListeners (i + length l1) l2 err payload w0.
Proof.
  induction l1 as [|g l1 IH]; intros i l2 err payload w Hok.
  - exists w. simpl. by rewrite Nat.add_0_r.
  - pose proof (Hok g err payload (data w) (or_introl eq_refl)) as Hg.
    destruct (g err payload (data w)) as [o d] eqn:Hcall.
    simpl in Hg. subst o.
    set (w1 := with_data d
                 (mkWorld (data w) (trace w ++ [EvListener i err payload])
                          (clock_reads w))).
    assert (Hstep : forall ls,
              callListeners i (g :: ls) err payload w =
              callListeners (S i) ls err payload w1).
    { intros ls. simpl. erewrite bind_Ok by reflexivity.
      unfold bind. simpl. by rewrite Hcall. }
    change ((g :: l1) ++ l2) with (g :: (l1 ++ l2)). rewrite !Hstep.
    destruct (IH (S i) l2 err payload w1) as (w0 & Heq & Happ);
      [intros; apply Hok; by right|].
    exists w0. split; [exact Heq|]. rewrite Happ. simpl. f_equal. lia.
Qed.

(** X3. [onError(listener)] appends: on the next error [callOnError] does
    all it did before the registration, and then calls the new listener,
    which so is the last to be called: it works on the store the listeners
    registered before it have left, and its delivery is the last event,
    at the position that was the number of listeners. *)
Theorem onError_registers_last env fn err method w :
  listeners_return (onError env fn) ->
  exists w0 w',
    callOnError env err method w = (Ok tt, w0) /\
    callOnError (onError env fn) err method w = (Ok tt, w') /\
    trace w' =
      trace w0 ++ [EvListener (length (errorListeners env)) err
                              (payload_of method)] /\
    trace w' =
      trace w ++ notifications env err method
              ++ [EvListener (length (errorListeners env)) err
                             (payload_of method)] /\
    data w' = (fn err (payload_of method) (data w0)).2.
Proof.
  intros Hl.
  assert (Hold : listeners_return env).
  { intros g e p d Hg. apply Hl. simpl. apply in_or_app. by left. }
  pose proof (fun d => Hl fn err (payload_of method) d) as Hfn.
  destruct (callOnError_returns env err method w Hold) as (w0 & Heq & Ht).
  assert (Hnew : exists w',
            callOnError (onError env fn) err method w = (Ok tt, w') /\
            trace w' =
              trace w0 ++ [EvListener (length (errorListeners env)) err
                                      (payload_of method)] /\
            data w' = (fn err (payload_of method) (data w0)).2).
  { unfold callOnError in *.
    erewrite bind_Ok in Heq by reflexivity.
    erewrite bind_Ok by reflexivity. simpl.
    match goal with
    | |- context [callListeners 0 (_ ++ [fn]) _ _ ?w1] =>
        destruct (callListeners_app (errorListeners env) 0 [fn] err
                    (payload_of method) w1 Hold) as (w0' & Heq' & Happ)
    end.
    rewrite Heq in Heq'. injection Heq' as <-.
    assert (Hret : (fn err (payload_of method) (data w0)).1 = None).
    { apply Hfn. simpl. apply in_or_app. right. by left. }
    destruct (fn err (payload_of method) (data w0)) as [o d] eqn:Hcall.
    simpl in Hret. subst o.
    exists (with_data d
              (mkWorld (data w0)
                 (trace w0 ++ [EvListener (length (errorListeners env)) err
                                          (payload_of method)])
                 (clock_reads w0))).
    split; [|by split].
    etransitivity; [exact Happ|].
    simpl. erewrite bind_Ok by reflexivity.
    unfold bind. simpl. by rewrite Hcall. }
  destruct Hnew as (w' & Hrun & Htr & Hd).
  exists w0, w'. split; [exact Heq|]. split; [exact Hrun|].
  split; [exact Htr|]. split; [|exact Hd].
  by rewrite Htr, Ht, <- app_assoc.
Qed.

(** X3 on a listener that notes its call, registered after another that
    does: it has noted it last. *)
Lemma onError_registers_last_witness :
  let env := onError ex_env (ex_noting "first") in
  exists w',
    callOnError (onError env (ex_noting "second")) (VStr "boom") "login"
                ex_world = (Ok tt, w') /\
    trace w' =
      [EvListener 0 (VStr "boom") (payload_of "login");
       EvListener 1 (VStr "boom") (payload_of "login");
       EvListener 2 (VStr "boom") (payload_of "login")] /\
    state (data w') !! "heard" = Some (VArr [VStr "first"; VStr "second"]).
Proof.
  intros env.
  destruct (onError_registers_last env (ex_noting "second") (VStr "boom")
              "login" ex_world)
    as (w0 & w' & H0 & Heq & _ & Ht & Hd).
  { by intros fn ? ? ? [<-|[<-|[<-|[]]]]. }
  exists w'. split; [exact Heq|]. split; [exact Ht|].
  rewrite Hd. injection H0 as <-. reflexivity.
Defined.

End ErrorBus.

(* ===================================================================== *)
(** ** Strategy hooks and the registry *)
(* ===================================================================== *)

Module Delegation.
Import JS Machine Engine Script Laws Rules Observe Registry Views Helpers.
Import Examples Scenarios.
Open Scope js_scope.
Open Scope list_scope.

(** The delegation pattern, [Promise.resolve(hook(...args)).catch(report)],
    case by case. *)
Lemma delegate_unfold env name h args w :
  await (do p <- call_hook name h args;
         ret (catch_ p (fun err =>
                callOnError env err name ;; ret (rejected err)))) w =
  let entered := trace w ++ [EvHook name args] in
  match h args (data w) with
  | HThrow e d => (Threw e, mkWorld d entered (clock_reads w))
  | HReturn p d =>
      let '(st, d') := p d in
      let w2 := mkWorld d' entered (clock_reads w) in
      match st with
      | Resolved v => (Settled (Resolved v), w2)
      | Rejected e =>
          match callOnError env e name w2 with
          | (Ok _, w') => (Settled (Rejected e), w')
          | (Throw e', w') => (Settled (Rejected e'), w')
          end
      end
  end.
Proof.
  unfold await, call_hook, bind at 1, bind at 1, emit. simpl.
  destruct (h args (data w)) as [e d|p d]; [reflexivity|].
  unfold ret, catch_, promise_of. simpl.
  destruct (p d) as [[v|e] d']; [reflexivity|].
  unfold bind at 1. simpl.
  by destruct (callOnError _ _ _ _) as [[[]|e'] w'].
Qed.

(** With listeners that return, the pattern is [delegated]. *)
Lemma delegate_await env name h args w :
  listeners_return env ->
  delegated env name h args w
    (await (do p <- call_hook name h args;
            ret (catch_ p (fun err =>
                   callOnError env err name ;; ret (rejected err)))) w).
Proof.
  intros Hl. rewrite delegate_unfold. unfold delegated.
  destruct (h args (data w)) as [e d|p d]; [reflexivity|].
  destruct (p d) as [[v|e] d']; [reflexivity|]. simpl.
  match goal with
  | |- context [callOnError env e name ?w2] =>
      destruct (callOnError_returns env e name w2 Hl) as (w' & -> & Ht)
  end.
  simpl. split; [done|]. exact Ht.
Qed.

(** X4. [fetchUser(...args)] when the active strategy has no [fetchUser]
    hook resolves at once and touches nothing.  When it has one, the hook
    is called with the arguments: what it throws escapes the call, the
    value its promise resolves with is passed on, and a rejection is
    delivered to the listeners with payload [{method: 'fetchUser'}] and
    raised again. *)
Theorem fetchUser_delegates env args w s :
  active env (data w) = Some s ->
  listeners_return env ->
  match s_fetchUser s with
  | None => fetchUser env args w = (Ok (resolved VUndefined), w)
  | Some h => delegated env "fetchUser" h args w (await (fetchUser env args) w)
  end.
Proof.
  intros Hs Hl. destruct (s_fetchUser s) as [h|] eqn:Hf.
  - erewrite await_eq; [by apply delegate_await|].
    unfold fetchUser. erewrite bind_Ok by (by apply strategy_dot_active).
    by rewrite Hf.
  - unfold fetchUser. erewrite bind_Ok by (by apply strategy_dot_active).
    by rewrite Hf.
Qed.

(** X4 on a strategy whose [fetchUser] is refused. *)
Lemma fetchUser_delegates_witness :
  (await (fetchUser ex_hooked_env []) ex_hooked_world).1
    = Settled (Rejected (VStr "denied")) /\
  trace (await (fetchUser ex_hooked_env []) ex_hooked_world).2
    = [EvHook "fetchUser" [];
       EvListener 0 (VStr "denied") (payload_of "fetchUser")].
Proof.
  apply (fetchUser_delegates ex_hooked_env [] ex_hooked_world ex_hooked).
  - reflexivity.
  - by intros fn ? ? ? [<-|[]].
Defined.

(** X5. [mounted(...args)] hands over to the strategy's [mounted] hook, a
    rejection reported with payload [{method: 'mounted'}] and raised again.
    Without such a hook it is [fetchUserOnce()]: resolved at once when a
    user is cached, and what [fetchUser()] does, called with no argument,
    when none is. *)
Theorem mounted_delegates env args w s :
  active env (data w) = Some s ->
  listeners_return env ->
  let w1 := mkWorld (data w) (trace w ++ [EvCall "mounted"]) (clock_reads w) in
  match s_mounted s with
  | Some h => delegated env "mounted" h args w1 (await (mounted env args) w)
  | None =>
      if truthy (cached_user (data w))
      then mounted env args w = (Ok (resolved VUndefined), w1)
      else mounted env args w = fetchUser env [] w1
  end.
Proof.
  intros Hs Hl w1. destruct (s_mounted s) as [h|] eqn:Hm.
  - erewrite await_eq; [by apply delegate_await|].
    unfold mounted. erewrite bind_Ok by reflexivity.
    erewrite bind_Ok by (by apply strategy_dot_active).
    by rewrite Hm.
  - unfold mounted. erewrite bind_Ok by reflexivity.
    erewrite bind_Ok by (by apply strategy_dot_active).
    rewrite Hm. unfold fetchUserOnce. erewrite bind_Ok by reflexivity.
    unfold cached_user. simpl. by destruct (truthy _).
Qed.

(** X5 on the password strategy of the examples. *)
Lemma mounted_delegates_witness :
  await (mounted ex_env []) ex_local_world
  = (Settled (Resolved VUndefined),
     mkWorld (data ex_local_world) [EvCall "mounted"; EvHook "mounted" []] 0).
Proof.
  apply (mounted_delegates ex_env [] ex_local_world ex_local).
  - reflexivity.
  - by intros fn ? ? ? [<-|[]].
Defined.

(** X6. [reset(...args)] with a strategy that has a [reset] hook of its own
    only hands over to it, in both copies: no record is cleared by the
    engine, a rejection of the hook is reported with payload
    [{method: 'reset'}] and raised again. *)
Theorem reset_delegates env args w s h :
  active env (data w) = Some s ->
  s_reset s = Some h ->
  listeners_return env ->
  delegated env "reset" h args w (await (Core.reset env args) w) /\
  delegated env "reset" h args w (await (Alt.reset env args) w).
Proof.
  intros Hs Hr Hl. split.
  - erewrite await_eq; [by apply delegate_await|].
    unfold Core.reset. erewrite bind_Ok by (by apply strategy_dot_active).
    by rewrite Hr.
  - erewrite await_eq; [by apply delegate_await|].
    unfold Alt.reset. erewrite bind_Ok by (by apply strategy_dot_active).
    by rewrite Hr.
Qed.

(** X6 on a strategy whose [reset] is refused. *)
Lemma reset_delegates_witness :
  (await (Core.reset ex_hooked_env []) ex_hooked_world).1
    = Settled (Rejected (VStr "denied")) /\
  trace (await (Core.reset ex_hooked_env []) ex_hooked_world).2
    = [EvHook "reset" [];
       EvListener 0 (VStr "denied") (payload_of "reset")].
Proof.
  apply (reset_delegates ex_hooked_env [] ex_hooked_world ex_hooked
           ex_rejecting).
  - reflexivity.
  - reflexivity.
  - by intros fn ? ? ? [<-|[]].
Defined.

(** X7. [loginWith(name, ...args)] is [setStrategy(name)] and then
    [login(...args)]: what [setStrategy] throws escapes [loginWith] as an
    exception; when its promise is rejected [login] is not called and the
    rejection is the result; when it resolves, [login] runs in the world
    it left, and an exception [login] throws there comes out as a
    rejection. *)
Theorem loginWith_sequences env name args w :
  await (loginWith env name args) w =
  match await (setStrategy env name) w with
  | (Threw e, w1) => (Threw e, w1)
  | (Settled (Rejected e), w1) => (Settled (Rejected e), w1)
  | (Settled (Resolved _), w1) =>
      match await (login env args) w1 with
      | (Threw e, w2) => (Settled (Rejected e), w2)
      | (Settled st, w2) => (Settled st, w2)
      end
  end.
Proof.
  unfold await, loginWith, bind.
  destruct (setStrategy env name w) as [[p|e] w0]; [|reflexivity].
  unfold ret, then_. destruct (p w0) as [[v|e] w1]; [|reflexivity].
  destruct (login env args w1) as [[q|e] w2]; [|reflexivity].
  by destruct (q w2) as [st w3].
Qed.

(** [setStrategy] to another name: the write, then the body of [mounted]. *)
Lemma setStrategy_switch env name w :
  strict_eq_str name (universal (data w) "strategy") = false ->
  setStrategy env name w =
  (do s <- strategy_dot env "mounted";
   match s_mounted s with
   | None => fetchUserOnce env []
   | Some h =>
       do p <- call_hook "mounted" h [];
       ret (catch_ p (fun err =>
              callOnError env err "mounted" ;; ret (rejected err)))
   end) (strategy_written name w).
Proof.
  intros Hname. unfold setStrategy. erewrite bind_Ok by reflexivity.
  rewrite Hname. erewrite bind_Ok by reflexivity.
  unfold mounted. erewrite bind_Ok by reflexivity.
  unfold strategy_written. simpl. by rewrite <- app_assoc.
Qed.

(** After the write the active strategy is the one registered under the name. *)
Lemma active_written env name w :
  active env (data (strategy_written name w)) = registered env name.
Proof. unfold active. simpl. by rewrite lookup_insert_eq. Qed.

(** X8. [setStrategy(name)] with a name that is not the stored one and for
    which [this.strategies[name]] is [undefined] (nothing is registered
    under it, and it is not a name that every object inherits, such as
    [constructor]): the name is written to the store first, then [mounted]
    throws a [TypeError] on [this.strategy.mounted].  The name stays
    stored, so the engine is left without an active strategy: [login] and
    [fetchUser] throw, [request] rejects, in both copies. *)
Theorem setStrategy_unregistered env name w :
  strict_eq_str name (universal (data w) "strategy") = false ->
  registered env name = None ->
  let w1 := strategy_written name w in
  setStrategy env name w =
    (Throw (TypeError "Cannot read property 'mounted' of undefined"), w1) /\
  universal (data w1) "strategy" = VStr name /\
  (forall args,
     login env args w1 =
       (Throw (TypeError "Cannot read property 'login' of undefined"), w1)) /\
  (forall args,
     fetchUser env args w1 =
       (Throw (TypeError "Cannot read property 'fetchUser' of undefined"),
        w1)) /\
  (forall endpoint defaults,
     (await (Alt.request env endpoint defaults) w1).1 =
       Settled (Rejected
                  (TypeError "Cannot read property 'name' of undefined")) /\
     (await (Core.request env endpoint defaults) w1).1 =
       Settled (Rejected
                  (TypeError "Cannot read property 'name' of undefined"))).
Proof.
  intros Hname Hreg w1.
  assert (Ha : active env (data w1) = None)
    by (unfold w1; by rewrite active_written).
  assert (Hdot : forall prop,
            strategy_dot env prop w1 =
            (Throw (TypeError ("Cannot read property '" ++ prop
                               ++ "' of undefined")), w1)).
  { intros prop. unfold strategy_dot.
    erewrite bind_Ok by apply strategy_active. by rewrite Ha. }
  split; [|split; [|split; [|split]]].
  - rewrite setStrategy_switch by done. fold w1. unfold bind. by rewrite Hdot.
  - unfold universal. simpl. by rewrite lookup_insert_eq.
  - intros args. unfold login, bind. by rewrite Hdot.
  - intros args. unfold fetchUser, bind. by rewrite Hdot.
  - intros endpoint defaults. split.
    + unfold await, Alt.request, async, bind. by rewrite Hdot.
    + unfold await, Core.request, async.
      erewrite bind_Ok by apply strategy_active. by rewrite Ha.
Qed.

(** X8 on a name nobody registered. *)
Lemma setStrategy_unregistered_witness :
  setStrategy ex_env "ghost" ex_world =
    (Throw (TypeError "Cannot read property 'mounted' of undefined"),
     strategy_written "ghost" ex_world) /\
  universal (data (strategy_written "ghost" ex_world)) "strategy"
    = VStr "ghost".
Proof.
  destruct (setStrategy_unregistered ex_env "ghost" ex_world)
    as (Hthrow & Hkey & _); [reflexivity | reflexivity |].
  exact (conj Hthrow Hkey).
Defined.

(** What is inherited has no hook. *)
Lemma inherited_bare name s :
  inherited name = Some s ->
  s_mounted s = None /\ s_fetchUser s = None /\ s_options s = VUndefined.
Proof.
  unfold inherited.
  destruct (String.eqb name "__proto__"); [by intros [= <-]|].
  destruct (String.eqb name "constructor"); [by intros [= <-]|].
  destruct (existsb _ _); [by intros [= <-] | done].
Qed.

(** A name that every object inherits is not [undefined] in
    [this.strategies]: with nothing registered under it, [setStrategy]
    finds the inherited member (for [constructor], the function [Object]),
    which has neither [mounted] nor [fetchUser], and resolves after the
    write. *)
Lemma setStrategy_inherited_name env name w s :
  strict_eq_str name (universal (data w) "strategy") = false ->
  strategies env !! name = None ->
  inherited name = Some s ->
  setStrategy env name w
  = (Ok (resolved VUndefined), strategy_written name w).
Proof.
  intros Hname Hreg Hin.
  destruct (inherited_bare name s Hin) as (Hm & Hf & _).
  assert (Ha : active env (data (strategy_written name w)) = Some s).
  { rewrite active_written. unfold registered. by rewrite Hreg. }
  rewrite setStrategy_switch by done.
  erewrite bind_Ok by (by apply strategy_dot_active).
  rewrite Hm. unfold fetchUserOnce.
  erewrite bind_Ok by reflexivity.
  destruct (truthy _); simpl; [reflexivity|].
  unfold fetchUser.
  erewrite bind_Ok by (by apply strategy_dot_active).
  by rewrite Hf.
Qed.

(** So for [setStrategy('constructor')] on the engine of the examples. *)
Lemma setStrategy_constructor :
  setStrategy ex_env "constructor" ex_world
  = (Ok (resolved VUndefined), strategy_written "constructor" ex_world) /\
  (active ex_env (data (strategy_written "constructor" ex_world))
   ≫= fun s => Some (s_name s)) = Some (VStr "Object").
Proof.
  split; [|reflexivity].
  by eapply setStrategy_inherited_name.
Qed.

(** X9. [registerStrategy(name, strategy)] replaces what was registered
    under the name: after two registrations under one name,
    [setStrategy(name)] enters the [mounted] hook of the second. *)
Theorem setStrategy_mounts_last_registered env name s0 s h w :
  strict_eq_str name (universal (data w) "strategy") = false ->
  s_mounted s = Some h ->
  listeners_return env ->
  let env' :=
    registerStrategy (registerStrategy env (VStr name) s0) (VStr name) s in
  delegated env' "mounted" h [] (strategy_written name w)
    (await (setStrategy env' name) w).
Proof.
  intros Hname Hm Hl env'.
  erewrite await_eq; [apply (delegate_await env'); exact Hl|].
  rewrite setStrategy_switch by done.
  erewrite bind_Ok.
  2:{ apply strategy_dot_active. rewrite active_written.
      unfold env', registered. simpl. by rewrite lookup_insert_eq. }
  by rewrite Hm.
Qed.

(** X9 on a name registered twice. *)
Lemma setStrategy_mounts_last_registered_witness :
  let env' :=
    registerStrategy (registerStrategy ex_env (VStr "hooked") ex_strategy)
                     (VStr "hooked") ex_hooked in
  await (setStrategy env' "hooked") ex_world
  = (Settled (Resolved VUndefined),
     mkWorld (data (strategy_written "hooked" ex_world))
             [EvSetUniversal "strategy" (VStr "hooked"); EvCall "mounted";
              EvHook "mounted" []] 0).
Proof.
  apply (setStrategy_mounts_last_registered ex_env "hooked" ex_strategy
           ex_hooked ex_mounted ex_world).
  - reflexivity.
  - reflexivity.
  - by intros fn ? ? ? [<-|[]].
Defined.

End Delegation.

(* ===================================================================== *)
(** ** The user record *)
(* ===================================================================== *)

Module Profile.
Import JS Machine Engine Script Laws Rules Observe Registry Views Helpers.
Import Examples Scenarios.
Open Scope js_scope.
Open Scope list_scope.

(** X10. [setUser(user)], in both copies and whether or not it goes on to
    throw, leaves a store that differs from the one it found in two state
    keys only: [loggedIn] holds [Boolean(user)] and [user] holds the
    argument, which is what the getters [loggedIn] and [user] then
    return. *)
Theorem setUser_records_session env u w :
  let after_alt := (Alt.setUser env u w).2 in
  let after_core := (Core.setUser env u w).2 in
  data after_alt = signed u (data w) /\
  data after_core = signed u (data w) /\
  user after_alt = (Ok u, after_alt) /\
  loggedIn after_alt = (Ok (Boolean u), after_alt).
Proof.
  assert (Halt : data (Alt.setUser env u w).2 = signed u (data w)).
  { unfold Alt.setUser. erewrite bind_Ok by reflexivity.
    erewrite bind_Ok by reflexivity. by rewrite alt_updateUser_keeps. }
  assert (Hcore : data (Core.setUser env u w).2 = signed u (data w)).
  { unfold Core.setUser. erewrite bind_Ok by reflexivity.
    erewrite bind_Ok by reflexivity.
    match goal with
    | |- data (?m ?w1).2 = _ =>
        assert (Hk : keeps m); [|by rewrite Hk]
    end.
    keep. }
  simpl. split; [exact Halt|]. split; [exact Hcore|].
  unfold user, loggedIn, getState, read. rewrite Halt. simpl.
  rewrite lookup_insert_eq, lookup_insert_ne by done.
  by rewrite lookup_insert_eq.
Qed.

(** The synchronous part of [setUser] when the records it reads are
    strings: it returns, with the session recorded. *)
Lemma setUser_returns env u w s tok scp :
  active env (data w) = Some s ->
  prefixed_keys env = true ->
  universal (data w) (token_key env (s_name s)) = VStr tok ->
  universal (data w) (scope_key env (s_name s)) = VStr scp ->
  (exists w', Alt.setUser env u w = (Ok tt, w') /\
              data w' = signed u (data w)) /\
  (exists w', Core.setUser env u w = (Ok tt, w') /\
              data w' = signed u (data w)).
Proof.
  intros Hs Hp Htok Hscp.
  set (w1 := mkWorld (signed u (data w))
               (trace w ++ [EvSetState "loggedIn" (Boolean u);
                            EvSetState "user" u]) (clock_reads w)).
  assert (Hs1 : active env (data w1) = Some s)
    by (unfold w1; simpl; by rewrite active_signed).
  assert (Htok1 : universal (data w1) (token_key env (s_name s)) = VStr tok).
  { unfold w1. simpl.
    rewrite universal_signed; [done| |]; by apply token_key_ne. }
  assert (Hscp1 : universal (data w1) (scope_key env (s_name s)) = VStr scp).
  { unfold w1. simpl.
    rewrite universal_signed; [done| |]; by apply scope_key_ne. }
  pose proof (getTokenScope_eq env (s_name s) w1 scp Hscp1) as Hscope.
  pose proof (getToken_eq env (s_name s) w1 _ Htok1) as Htoken.
  split.
  - eexists. split.
    + unfold Alt.setUser. erewrite bind_Ok by reflexivity.
      erewrite bind_Ok.
      2:{ unfold setState. erewrite bind_Ok by reflexivity.
          erewrite bind_Ok by reflexivity. unfold ret. simpl.
          rewrite <- app_assoc. reflexivity. }
      fold w1. unfold Alt.updateUser.
      erewrite bind_Ok by (by apply strategy_dot_active).
      erewrite bind_Ok by exact Htoken.
      erewrite bind_Ok by reflexivity.
      erewrite bind_Ok by (by apply strategy_dot_active).
      erewrite bind_Ok by reflexivity.
      erewrite bind_Ok by (by apply strategy_dot_active).
      erewrite bind_Ok by exact Hscope.
      erewrite bind_Ok by reflexivity. reflexivity.
    + reflexivity.
  - assert (Hk : Core.setUser env u w =
                 (do _ <- Core.request env
                      (VObj [("method", VStr "post");
                             ("url", add (string_to_number env) (BASE_URL env)
                                         (VStr "/api/users/update/"));
                             ("data",
                              VObj [("user", u);
                                    ("access_token",
                                     nth_str 1 (split_str "Bearer " tok));
                                    ("refresh_token",
                                     universal (data w1)
                                       (refresh_token_key env (s_name s)));
                                    ("scope",
                                     VArr (map VStr (split_str " " scp)))])])
                      VUndefined;
                  ret tt) w1).
    { unfold Core.setUser. erewrite bind_Ok by reflexivity.
      erewrite bind_Ok.
      2:{ unfold setState. erewrite bind_Ok by reflexivity.
          erewrite bind_Ok by reflexivity. unfold ret. simpl.
          rewrite <- app_assoc. reflexivity. }
      fold w1.
      erewrite bind_Ok by (by apply strategy_dot_active).
      erewrite bind_Ok by exact Htoken.
      erewrite bind_Ok by reflexivity.
      erewrite bind_Ok by (by apply strategy_dot_active).
      erewrite bind_Ok by reflexivity.
      erewrite bind_Ok by (by apply strategy_dot_active).
      erewrite bind_Ok by exact Hscope.
      reflexivity. }
    rewrite Hk. unfold bind.
    match goal with
    | |- context [Core.request env ?e ?d w1] =>
        pose proof (core_request_keeps env e d w1) as Hd;
        destruct (core_request_returns env e d w1) as (p & Hp1);
        destruct (Core.request env e d w1) as [r w2]
    end.
    simpl in *. subst r. eexists. split; [reflexivity|]. exact Hd.
Qed.

(** What [reset] does after [setUser(false)], in both copies. *)
Lemma clear_records env w1 d :
  data w1 = signed (VBool false) d ->
  prefixed_keys env = true ->
  let name := default VUndefined (state d !! "strategy") in
  exists w2,
    (do name <- getState "strategy";
     setToken env name (VBool false) ;;
     do name <- getState "strategy";
     setRefreshToken env name (VBool false) ;;
     ret (resolved VUndefined)) w1 = (Ok (resolved VUndefined), w2) /\
    universal (data w2) "user" = VBool false /\
    universal (data w2) "loggedIn" = VBool false /\
    universal (data w2) (token_key env name) = VBool false /\
    universal (data w2) (refresh_token_key env name) = VBool false.
Proof.
  intros Hd Hp name.
  assert (Hname : default VUndefined (state (data w1) !! "strategy") = name).
  { rewrite Hd. unfold signed. simpl. by rewrite !lookup_insert_ne by done. }
  erewrite bind_Ok by apply getState_eq. rewrite Hname.
  erewrite bind_Ok by reflexivity.
  erewrite bind_Ok by apply getState_eq. simpl.
  rewrite lookup_insert_ne by (by apply token_key_ne). rewrite Hname.
  erewrite bind_Ok by reflexivity.
  eexists. split; [reflexivity|]. unfold universal. simpl.
  rewrite Hd. unfold signed. simpl.
  split; [|split; [|split]].
  - rewrite lookup_insert_ne by (by apply refresh_token_key_ne).
    rewrite lookup_insert_ne by (by apply token_key_ne).
    by rewrite lookup_insert_eq.
  - rewrite lookup_insert_ne by (by apply refresh_token_key_ne).
    rewrite lookup_insert_ne by (by apply token_key_ne).
    rewrite lookup_insert_ne by done.
    by rewrite lookup_insert_eq.
  - destruct (decide (refresh_token_key env name = token_key env name))
      as [->|Hne].
    + by rewrite lookup_insert_eq.
    + rewrite lookup_insert_ne by done. by rewrite lookup_insert_eq.
  - by rewrite lookup_insert_eq.
Qed.

(** X11. [logout()] with a strategy that has neither a [logout] nor a
    [reset] hook, on a session whose token and scope are strings (and with
    key prefixes that start with an underscore, as the defaults do):
    it returns a resolved promise, and [user], [loggedIn], the token and
    the refresh token stored under the name in [$state.strategy] are all
    [false] when it returns.  Both copies. *)
Theorem logout_clears_session env args w s tok scp :
  active env (data w) = Some s ->
  s_logout s = None ->
  s_reset s = None ->
  prefixed_keys env = true ->
  universal (data w) (token_key env (s_name s)) = VStr tok ->
  universal (data w) (scope_key env (s_name s)) = VStr scp ->
  let name := default VUndefined (state (data w) !! "strategy") in
  forall r, r = Alt.logout env args w \/ r = Core.logout env args w ->
    r.1 = Ok (resolved VUndefined) /\
    universal (data r.2) "user" = VBool false /\
    universal (data r.2) "loggedIn" = VBool false /\
    universal (data r.2) (token_key env name) = VBool false /\
    universal (data r.2) (refresh_token_key env name) = VBool false.
Proof.
  intros Hs Hlo Hre Hp Htok Hscp name r Hr.
  destruct (setUser_returns env (VBool false) w s tok scp Hs Hp Htok Hscp)
    as [(wa & Ha & Hda) (wc & Hc & Hdc)].
  destruct Hr as [-> | ->].
  - destruct (clear_records env wa (data w) Hda Hp) as (w2 & Heq & H).
    unfold Alt.logout. erewrite bind_Ok by (by apply strategy_dot_active).
    rewrite Hlo. unfold Alt.reset.
    erewrite bind_Ok.
    2:{ erewrite bind_Ok by (by apply strategy_dot_active). rewrite Hre.
        erewrite bind_Ok by exact Ha. exact Heq. }
    exact (conj eq_refl H).
  - destruct (clear_records env wc (data w) Hdc Hp) as (w2 & Heq & H).
    unfold Core.logout. erewrite bind_Ok by (by apply strategy_dot_active).
    rewrite Hlo. unfold Core.reset.
    erewrite bind_Ok.
    2:{ erewrite bind_Ok by (by apply strategy_dot_active). rewrite Hre.
        erewrite bind_Ok by exact Hc. exact Heq. }
    exact (conj eq_refl H).
Qed.

(** X11 on the session of the examples. *)
Lemma logout_clears_session_witness :
  (Core.logout ex_env [] ex_world).1 = Ok (resolved VUndefined) /\
  universal (data (Core.logout ex_env [] ex_world).2) "user" = VBool false /\
  universal (data (Core.logout ex_env [] ex_world).2) "loggedIn"
    = VBool false /\
  universal (data (Core.logout ex_env [] ex_world).2) "_token.social"
    = VBool false /\
  universal (data (Core.logout ex_env [] ex_world).2) "_refresh_token.social"
    = VBool false.
Proof.
  apply (logout_clears_session ex_env [] ex_world ex_strategy
           "Bearer old" "read write");
    try reflexivity.
  by right.
Defined.

(** [split] is a method of strings only. *)
Lemma split_throws v sep :
  is_string v = false -> exists e, split v sep = Throw e.
Proof. destruct v; simpl; try done; eauto. Qed.

(** X12. [setUser(user)] completes only on a session that has a string for
    the token and a string for the scope of the active strategy: when
    either is anything else, it throws, in both copies, after the two
    state writes and before any request has left. *)
Theorem setUser_needs_token_and_scope env u w s :
  active env (data w) = Some s ->
  prefixed_keys env = true ->
  is_string (universal (data w) (token_key env (s_name s)))
  && is_string (universal (data w) (scope_key env (s_name s))) = false ->
  let w1 := mkWorld (signed u (data w))
              (trace w ++ [EvSetState "loggedIn" (Boolean u);
                           EvSetState "user" u])
              (clock_reads w) in
  exists e,
    Alt.setUser env u w = (Throw e, w1) /\
    Core.setUser env u w = (Throw e, w1).
Proof.
  intros Hs Hp Hstr w1.
  assert (Hs1 : active env (data w1) = Some s)
    by (unfold w1; simpl; by rewrite active_signed).
  assert (Htok1 : universal (data w1) (token_key env (s_name s))
                  = universal (data w) (token_key env (s_name s))).
  { unfold w1. simpl.
    rewrite universal_signed; [done| |]; by apply token_key_ne. }
  assert (Hscp1 : universal (data w1) (scope_key env (s_name s))
                  = universal (data w) (scope_key env (s_name s))).
  { unfold w1. simpl.
    rewrite universal_signed; [done| |]; by apply scope_key_ne. }
  assert (Hstate : forall k : unit -> M unit,
            (setState "loggedIn" (Boolean u) ;; setState "user" u ;; k tt) w
            = k tt w1).
  { intros k. erewrite bind_Ok by reflexivity.
    erewrite bind_Ok; [reflexivity|].
    unfold setState. erewrite bind_Ok by reflexivity.
    erewrite bind_Ok by reflexivity. unfold ret, w1. simpl.
    by rewrite <- app_assoc. }
  destruct (is_string (universal (data w) (token_key env (s_name s))))
    eqn:Htok.
  - simpl in Hstr.
    destruct (universal (data w) (token_key env (s_name s))) as
      [| | | | |tok| |] eqn:Htoken; try done.
    destruct (split_throws _ " " Hstr) as [e He]. exists e.
    assert (Hscope : getTokenScope env (s_name s) w1 = (Throw e, w1)).
    { unfold getTokenScope. erewrite bind_Ok by reflexivity.
      rewrite Hscp1. unfold bind, lift. by rewrite He. }
    split.
    + unfold Alt.setUser.
      rewrite (Hstate (fun _ => Alt.updateUser env u)).
      unfold Alt.updateUser.
      erewrite bind_Ok by (by apply strategy_dot_active).
      erewrite bind_Ok by (by apply getToken_eq).
      erewrite bind_Ok by reflexivity.
      erewrite bind_Ok by (by apply strategy_dot_active).
      erewrite bind_Ok by reflexivity.
      erewrite bind_Ok by (by apply strategy_dot_active).
      unfold bind at 1. by rewrite Hscope.
    + unfold Core.setUser.
      match goal with
      | |- (_ ;; _ ;; ?k) w = _ => rewrite (Hstate (fun _ => k))
      end.
      erewrite bind_Ok by (by apply strategy_dot_active).
      erewrite bind_Ok by (by apply getToken_eq).
      erewrite bind_Ok by reflexivity.
      erewrite bind_Ok by (by apply strategy_dot_active).
      erewrite bind_Ok by reflexivity.
      erewrite bind_Ok by (by apply strategy_dot_active).
      unfold bind at 1. by rewrite Hscope.
  - destruct (split_throws _ "Bearer " Htok) as [e He]. exists e.
    split.
    + unfold Alt.setUser.
      rewrite (Hstate (fun _ => Alt.updateUser env u)).
      unfold Alt.updateUser.
      erewrite bind_Ok by (by apply strategy_dot_active).
      erewrite bind_Ok by (by apply getToken_eq).
      unfold bind at 1, lift. by rewrite He.
    + unfold Core.setUser.
      match goal with
      | |- (_ ;; _ ;; ?k) w = _ => rewrite (Hstate (fun _ => k))
      end.
      erewrite bind_Ok by (by apply strategy_dot_active).
      erewrite bind_Ok by (by apply getToken_eq).
      unfold bind at 1, lift. by rewrite He.
Qed.

(** X12 on the session of the examples with no scope recorded. *)
Lemma setUser_needs_token_and_scope_witness :
  exists e,
    Alt.setUser ex_env (VBool false) ex_unscoped_world =
      (Throw e,
       mkWorld (signed (VBool false) (data ex_unscoped_world))
               [EvSetState "loggedIn" (VBool false);
                EvSetState "user" (VBool false)] 0) /\
    Core.setUser ex_env (VBool false) ex_unscoped_world =
      (Throw e,
       mkWorld (signed (VBool false) (data ex_unscoped_world))
               [EvSetState "loggedIn" (VBool false);
                EvSetState "user" (VBool false)] 0).
Proof.
  apply (setUser_needs_token_and_scope ex_env (VBool false) ex_unscoped_world
           ex_strategy);
    reflexivity.
Defined.

(** X13. [updateUser(user)] of the second copy, on a session with a token and
    a scope that are strings, sends one request, to the profile endpoint,
    and changes nothing in the store.  The request carries the user; its
    [access_token] is what follows ["Bearer "] in the stored token (when
    that has no space in it), and [undefined] when the stored token has
    no space in it at all. *)
Theorem updateUser_sends_bare_token env u w s tok scp :
  active env (data w) = Some s ->
  universal (data w) (token_key env (s_name s)) = VStr tok ->
  universal (data w) (scope_key env (s_name s)) = VStr scp ->
  exists profile d,
    Alt.updateUser env u w =
      (Ok tt, mkWorld (data w) (trace w ++ [EvAxios SiteProfile profile])
                      (clock_reads w)) /\
    get profile "data" = Ok d /\
    get d "user" = Ok u /\
    (forall t, tok = ("Bearer " ++ t)%string -> has_space t = false ->
               get d "access_token" = Ok (VStr t)) /\
    (has_space tok = false -> get d "access_token" = Ok VUndefined).
Proof.
  intros Hs Htok Hscp.
  destruct (alt_updateUser_sends env u w s tok scp Hs Htok Hscp)
    as (profile & Heq & d & Hd & Hu & Hat & _).
  exists profile, d. split; [exact Heq|]. split; [exact Hd|].
  split; [exact Hu|]. rewrite Hat. split.
  - intros t -> Ht. rewrite split_starts_with_separator.
    rewrite (split_without_separator _ _ _ bearer_has_space Ht). reflexivity.
  - intros Ht. unfold split_str.
    rewrite (split_without_separator _ _ _ bearer_has_space Ht). reflexivity.
Qed.

(** X13 on the session of the examples, whose token is ["Bearer old"]. *)
Lemma updateUser_sends_bare_token_witness :
  exists profile d,
    Alt.updateUser ex_env (VStr "ann") ex_world =
      (Ok tt, mkWorld (data ex_world) [EvAxios SiteProfile profile] 0) /\
    get profile "data" = Ok d /\
    get d "access_token" = Ok (VStr "old").
Proof.
  destruct (updateUser_sends_bare_token ex_env (VStr "ann") ex_world
              ex_strategy "Bearer old" "read write")
    as (profile & d & Hrun & Hd & _ & Hbare & _);
    [reflexivity | reflexivity | reflexivity |].
  exists profile, d.
  split; [exact Hrun|]. split; [exact Hd|].
  apply (Hbare "old"); reflexivity.
Defined.

End Profile.

(* ===================================================================== *)
(** ** Token records and scopes *)
(* ===================================================================== *)

Module Records.
Import JS Machine Engine Script Laws Rules Observe Registry Views Helpers.
Import Examples Scenarios.
Open Scope js_scope.
Open Scope list_scope.

(** The parts [getTokenScope] returns, joined by spaces, are the stored
    string, and no part has a space in it. *)
Lemma getTokenScope_join env strategy w str :
  universal (data w) (scope_key env strategy) = VStr str ->
  exists parts,
    getTokenScope env strategy w = (Ok (VArr (map VStr parts)), w) /\
    String.concat " " parts = str /\
    Forall (fun p => has_space p = false) parts.
Proof.
  intros H. exists (split_str " " str). split; [|split].
  - unfold getTokenScope. erewrite bind_Ok by reflexivity. by rewrite H.
  - apply (split_space_join str EmptyString).
  - by apply split_space_parts.
Qed.

(** [Array.prototype.includes] on an array of strings. *)
Lemma includes_strings parts scope :
  includes (map VStr parts) scope = true <->
  exists x, scope = VStr x /\ In x parts.
Proof.
  unfold includes. rewrite existsb_exists. split.
  - intros (y & Hy & Heq). apply in_map_iff in Hy as (x & <- & Hx).
    destruct scope; try done. simpl in Heq.
    apply String.eqb_eq in Heq as <-. eauto.
  - intros (x & -> & Hx). exists (VStr x). split; [by apply in_map|].
    simpl. apply String.eqb_refl.
Qed.

(** X14. [hasScope(scope)] with a string stored as the scope of the active
    strategy returns a boolean and leaves the world alone: [true] exactly
    when [scope] is a string that is one of the parts of the stored
    string, the parts being the pieces between single spaces (joined by
    spaces they give the stored string, and none has a space in it).  A
    [scope] that itself has a space in it is never found. *)
Theorem hasScope_is_membership env scope w s str :
  active env (data w) = Some s ->
  universal (data w) (scope_key env (s_name s)) = VStr str ->
  exists parts b,
    String.concat " " parts = str /\
    Forall (fun p => has_space p = false) parts /\
    hasScope env scope w = (Ok (VBool b), w) /\
    (b = true <-> exists x, scope = VStr x /\ In x parts) /\
    (forall x, scope = VStr x -> has_space x = true -> b = false).
Proof.
  intros Hs Hstr.
  destruct (getTokenScope_join env (s_name s) w str Hstr)
    as (parts & Hget & Hjoin & Hparts).
  exists parts, (includes (map VStr parts) scope).
  split; [done|]. split; [done|]. split; [|split].
  - unfold hasScope. erewrite bind_Ok by (by apply strategy_dot_active).
    erewrite bind_Ok by exact Hget. reflexivity.
  - apply includes_strings.
  - intros x -> Hx. apply not_true_is_false. intros Hin.
    apply includes_strings in Hin as (y & [= <-] & Hy).
    rewrite Forall_forall in Hparts. apply list_elem_of_In in Hy.
    specialize (Hparts x Hy). congruence.
Qed.

(** X14 on the session of the examples, whose scope is ["read write"]. *)
Lemma hasScope_is_membership_witness :
  exists parts b,
    String.concat " " parts = "read write" /\
    Forall (fun p => has_space p = false) parts /\
    hasScope ex_env (VStr "read") ex_world = (Ok (VBool b), ex_world) /\
    (b = true <-> exists x, VStr "read" = VStr x /\ In x parts) /\
    (forall x, VStr "read" = VStr x -> has_space x = true -> b = false).
Proof.
  apply (hasScope_is_membership ex_env (VStr "read") ex_world ex_strategy
           "read write");
    reflexivity.
Defined.

(** X15. Whenever [hasScope] returns at all, there is an active strategy, its
    stored scope is a string and the result is a boolean: the branches of
    [hasScope] that return [undefined], or look the scope up with
    [getProp], are never taken. *)
Theorem hasScope_returns_boolean env scope w v :
  (hasScope env scope w).1 = Ok v ->
  exists s str b,
    active env (data w) = Some s /\
    universal (data w) (scope_key env (s_name s)) = VStr str /\
    v = VBool b.
Proof.
  unfold hasScope.
  destruct (active env (data w)) as [s|] eqn:Hs.
  - erewrite bind_Ok by (by apply strategy_dot_active).
    unfold getTokenScope. unfold bind at 1. erewrite bind_Ok by reflexivity.
    destruct (universal (data w) (scope_key env (s_name s))) eqn:Hstr;
      try done.
    simpl. intros [= <-]. eauto 10.
  - unfold strategy_dot, bind. rewrite strategy_active, Hs. done.
Qed.

(** X15 on the session of the examples. *)
Lemma hasScope_returns_boolean_witness :
  exists s str b,
    active ex_env (data ex_world) = Some s /\
    universal (data ex_world) (scope_key ex_env (s_name s)) = VStr str /\
    VBool true = VBool b.
Proof.
  apply (hasScope_returns_boolean ex_env (VStr "read") ex_world (VBool true)).
  reflexivity.
Defined.

(** X16. The setters of the token, refresh-token, expiration and scope
    records are read back by their getters, and, for strategies whose
    names differ as strings, writing a record of one leaves the same
    record of the other as it was. *)
Theorem token_records_are_per_strategy env a b v w :
  to_string a <> to_string b ->
  ((getToken env a (setToken env a v w).2).1 = Ok v /\
   (getToken env b (setToken env a v w).2).1 = (getToken env b w).1) /\
  ((getRefreshToken env a (setRefreshToken env a v w).2).1 = Ok v /\
   (getRefreshToken env b (setRefreshToken env a v w).2).1
   = (getRefreshToken env b w).1) /\
  ((getTokenExpiration env a (setTokenExpiration env a v w).2).1 = Ok v /\
   (getTokenExpiration env b (setTokenExpiration env a v w).2).1
   = (getTokenExpiration env b w).1) /\
  (getTokenScope env b (setTokenScope env a v w).2).1
  = (getTokenScope env b w).1.
Proof.
  intros Hab.
  unfold getToken, setToken, getRefreshToken, setRefreshToken,
    getTokenExpiration, setTokenExpiration, getTokenScope, setTokenScope,
    getUniversal, read.
  rewrite !setUniversal_eq. simpl.
  rewrite !universal_written.
  rewrite !universal_written_ne.
  - repeat split; try done. unfold bind. simpl.
    rewrite universal_written_ne.
    + by destruct (split _ _).
    + intros H. by apply Hab, (scope_key_inj env).
  - intros H. by apply Hab, (expiration_key_inj env).
  - intros H. by apply Hab, (refresh_token_key_inj env).
  - intros H. by apply Hab, (token_key_inj env).
Qed.

(** X16 on two strategies of the examples. *)
Lemma token_records_are_per_strategy_witness :
  (getToken ex_env (VStr "social")
     (setToken ex_env (VStr "social") (VStr "Bearer new") ex_world).2).1
    = Ok (VStr "Bearer new") /\
  (getToken ex_env (VStr "local")
     (setToken ex_env (VStr "social") (VStr "Bearer new") ex_world).2).1
    = (getToken ex_env (VStr "local") ex_world).1.
Proof.
  apply (token_records_are_per_strategy ex_env (VStr "social") (VStr "local")
           (VStr "Bearer new") ex_world).
  discriminate.
Defined.

(** X17. The expiration and scope records live under the token prefix: the
    expiration stored for a strategy [n] is what [getToken] returns for
    the name ["expiration." + n], and its scope what [getToken] returns
    for ["scope." + n]. *)
Theorem expiration_and_scope_share_keys_with_tokens env n v w :
  (getToken env (VStr ("expiration." ++ n)%string)
            (setTokenExpiration env (VStr n) v w).2).1 = Ok v /\
  (getToken env (VStr ("scope." ++ n)%string)
            (setTokenScope env (VStr n) v w).2).1 = Ok v.
Proof.
  unfold getToken, setTokenExpiration, setTokenScope, getUniversal, read.
  rewrite !setUniversal_eq. simpl.
  unfold token_key, expiration_key, scope_key. simpl.
  rewrite <- !append_assoc. by rewrite !universal_written.
Qed.

End Records.

(* ===================================================================== *)
(** ** Redirects *)
(* ===================================================================== *)

Module Navigation.
Import JS Machine Engine Script Laws Rules Observe Registry Views Helpers.
Import Examples Scenarios.
Open Scope js_scope.
Open Scope list_scope.

(** [redirect] adds no event other than those of [redirect_event]. *)
Lemma redirect_allowed env name noRouter :
  M_runs (forbid (redirect_event (process_browser env && noRouter))) [] [] any
         (redirect env name noRouter).
Proof. unfold redirect, redirect_target. run. Qed.

(** X18. Whatever its arguments and the configuration, [redirect] navigates
    at most once, and all it does to its collaborators is to write the
    universal key ["redirect"], remove the cookie ["oauth-redirect"] and
    navigate; a full-page replace only happens in the browser and with
    [noRouter] set. *)
Theorem redirect_frame env name noRouter w :
  exists evs,
    trace (redirect env name noRouter w).2 = trace w ++ evs /\
    (length (navigations evs) <= 1)%nat /\
    forallb (redirect_event (process_browser env && noRouter)) evs = true.
Proof.
  destruct (redirect_allowed env name noRouter w) as (evs & Ht & Hok).
  exists evs. split; [exact Ht|]. split.
  - destruct (RedirectPolicy.redirect_target_quiet env name w)
      as (evs1 & Ht1 & Hq).
    assert (Hnav : navigations evs1 = []).
    { destruct ((redirect_target env name w).1);
        [destruct Hq as [Hq _]; by rewrite app_nil_r in Hq
        | by apply prefix_nil_inv]. }
    revert Ht. unfold redirect, bind.
    destruct (redirect_target env name w) as [[[to|]|e] w1]; simpl in *.
    + destruct (isSameURL env to (redirect_from env)); simpl.
      * rewrite Ht1. intros ->%app_inv_head. rewrite Hnav. simpl. lia.
      * assert (Hone : forall e, nav_target e = Some to ->
                  trace w1 ++ [e] = trace w ++ evs ->
                  (length (navigations evs) <= 1)%nat).
        { intros e He. rewrite Ht1, <- app_assoc. intros <-%app_inv_head.
          unfold navigations in *. rewrite omap_app, Hnav. simpl.
          rewrite He. simpl. lia. }
        destruct (process_browser env), noRouter; simpl;
          by apply Hone.
    + rewrite Ht1. intros ->%app_inv_head. rewrite Hnav. simpl. lia.
    + rewrite Ht1. intros ->%app_inv_head. rewrite Hnav. simpl. lia.
  - apply forbid_none.
    destruct ((redirect env name noRouter w).1);
      [destruct Hok as [Hok _]; by rewrite app_nil_r in Hok
      | by apply prefix_nil_inv].
Qed.

(** X19. With rewrites on, [redirect('login')] from a relative location that
    is not the login page navigates to the login page and remembers the
    location under ["redirect"]; a later [redirect('home')] from another
    page goes back to the remembered location, not to the configured home,
    and clears the record. *)
Theorem redirect_login_then_home
    env w noRouter noRouter' path' fullPath' to_login to_home :
  let env' := at_route env path' fullPath' in
  truthy (opt_redirect (options env)) = true ->
  truthy (rewriteRedirects (options env)) = true ->
  get (opt_redirect (options env)) "login" = Ok to_login ->
  get (opt_redirect (options env)) "home" = Ok to_home ->
  truthy to_login = true ->
  truthy to_home = true ->
  truthy (redirect_from env) = true ->
  isRelativeURL env (redirect_from env) = true ->
  isSameURL env to_login (redirect_from env) = false ->
  isSameURL env (redirect_from env) (redirect_from env') = false ->
  let w1 := (redirect env "login" noRouter w).2 in
  let w2 := (redirect env' "home" noRouter' w1).2 in
  navigations (trace w1) = navigations (trace w) ++ [to_login] /\
  universal (data w1) "redirect" = redirect_from env /\
  navigations (trace w2) = navigations (trace w1) ++ [redirect_from env] /\
  universal (data w2) "redirect" = VNull.
Proof.
  intros env' Hmap Hrw Hlogin Hhome Htl Hth Hfrom Hrel Hsame Hsame'.
  set (from := redirect_from env) in *.
  assert (H1 : exists nav,
            nav_target nav = Some to_login /\
            redirect env "login" noRouter w =
            (Ok tt,
             mkWorld (mkData (<["redirect" := from]> (state (data w)))
                             (<["redirect" := from]> (persisted (data w)))
                             (error (data w)) (cookies (data w)))
                     (trace w ++ [EvSetUniversal "redirect" from; nav])
                     (clock_reads w))).
  { unfold redirect, redirect_target. rewrite Hmap. simpl.
    erewrite bind_Ok.
    2:{ erewrite bind_Ok by (unfold lift; by rewrite Hlogin).
        rewrite Htl, Hrw. simpl. fold from. rewrite Hrel, Hsame. simpl.
        erewrite bind_Ok by reflexivity. reflexivity. }
    simpl. fold from. rewrite Hsame.
    destruct (process_browser env), noRouter; simpl;
      eexists; (split; [|unfold emit; simpl; rewrite <- app_assoc;
                         reflexivity]); reflexivity. }
  destruct H1 as (nav & Hnav & H1). intros w1 w2. subst w2 w1.
  rewrite H1. simpl.
  split; [|split].
  - rewrite navigations_app. simpl. by rewrite Hnav.
  - apply universal_written.
  - assert (H2 : forall w1,
              universal (data w1) "redirect" = from ->
              exists nav pre,
                nav_target nav = Some from /\
                navigations pre = [] /\
                trace (redirect env' "home" noRouter' w1).2
                = trace w1 ++ pre ++ [nav] /\
                universal (data (redirect env' "home" noRouter' w1).2)
                          "redirect" = VNull).
    { clear H1. intros w1 Hstored.
      unfold redirect, redirect_target. simpl. rewrite Hmap. simpl.
      erewrite bind_Ok.
      2:{ erewrite bind_Ok by (unfold lift; by rewrite Hhome).
          rewrite Hth, Hrw. simpl.
          erewrite bind_Ok by reflexivity.
          erewrite bind_Ok by (unfold getUniversal, read; by rewrite Hstored).
          erewrite bind_Ok by reflexivity.
          rewrite Hfrom, andb_false_r.
          erewrite bind_Ok by reflexivity.
          erewrite bind_Ok by reflexivity.
          change (isRelativeURL env' from) with (isRelativeURL env from).
          rewrite Hrel. reflexivity. }
      simpl.
      change (isSameURL env' from (redirect_from env'))
        with (isSameURL env from (redirect_from env')).
      rewrite Hsame'.
      destruct (process_browser env), noRouter';
        match goal with
        | |- context [emit ?e] =>
            exists e, [EvSetUniversal "redirect" VNull]
        end;
        simpl; (split; [reflexivity|]); (split; [reflexivity|]);
        (split; [by rewrite <- app_assoc | apply universal_written]). }
    match goal with
    | |- context [redirect env' "home" noRouter' ?w1] =>
        destruct (H2 w1) as (nav' & pre & Hnav' & Hpre & Ht & Hnull);
          [apply universal_written|]
    end.
    split; [|exact Hnull].
    rewrite Ht, !navigations_app, Hpre. simpl.
    rewrite !navigations_app. simpl. by rewrite Hnav, Hnav'.
Qed.

(** X19 for a visitor sent from the profile page to log in. *)
Lemma redirect_login_then_home_witness :
  let env' := at_route ex_page_env (VStr "/login") (VStr "/login") in
  let w1 := (redirect ex_page_env "login" false ex_world).2 in
  let w2 := (redirect env' "home" false w1).2 in
  navigations (trace w1) = [VStr "/login"] /\
  universal (data w1) "redirect" = VStr "/profile" /\
  navigations (trace w2) = [VStr "/login"; VStr "/profile"] /\
  universal (data w2) "redirect" = VNull.
Proof.
  apply (redirect_login_then_home ex_page_env ex_world false false
           (VStr "/login") (VStr "/login") (VStr "/login") (VStr "/"));
    reflexivity.
Defined.

End Navigation.

(* ===================================================================== *)
(** ** Requests *)
(* ===================================================================== *)

Module Dispatching.
Import JS Machine Engine Script Laws Rules Observe Registry Views Helpers.
Import Examples Scenarios.
Open Scope js_scope.
Open Scope list_scope.

(** The synchronous part of [completeRequest] in [lib/core/auth.js] where
    there is no [window]: the request leaves, and the promise rejects with
    the [ReferenceError] of [$loading()] however the transport answers. *)
Lemma core_completeRequest_without_window env endpoint defaults w :
  window_defined env = false ->
  exists p,
    Core.completeRequest env endpoint defaults w =
      (Ok p,
       mkWorld (data w)
               (trace w ++ [EvAxios SiteDispatch (merged endpoint defaults)])
               (clock_reads w)) /\
    forall w', p w' = (Rejected window_error, w').
Proof.
  intros Hw. unfold Core.completeRequest, bind at 1, axios_request, ret.
  simpl. eexists. split; [reflexivity|]. intros w'.
  unfold catch_, then_, Core.loading. rewrite Hw.
  destruct (axios env _ _) as [v|e]; reflexivity.
Qed.

Section WithoutWindow.
Variable env : Env.
Hypothesis Hw : window_defined env = false.

(** Without a [window], [completeRequest] always rejects, and tells no
    listener. *)
Lemma core_completeRequest_fails endpoint defaults :
  MP_fails (forbid not_listener) (Core.completeRequest env endpoint defaults).
Proof.
  intros w.
  destruct (core_completeRequest_without_window env endpoint defaults w Hw)
    as (p & -> & Hp).
  exists [EvAxios SiteDispatch (merged endpoint defaults)]. simpl.
  split; [done|]. split; [done|].
  intros w'. exists []. rewrite Hp, app_nil_r. simpl. eauto.
Qed.

#[local] Hint Resolve core_completeRequest_fails : script.

(** The refresh chain of [request] without a [window]: the part before the
    [catch] fails. *)
Lemma core_request_chain_without_window endpoint defaults w s :
  active env (data w) = Some s ->
  nullish (s_options s) = false ->
  Core.stale env (data w) (clock env (clock_reads w)) s = true ->
  exists req p,
    Core.request env endpoint defaults w =
      (Ok (catch_ p (fun _ => Core.completeRequest env endpoint defaults)),
       mkWorld (data w) (trace w ++ [EvAxios SiteRefresh req])
               (S (clock_reads w))) /\
    P_fails (forbid not_listener) p.
Proof.
  intros Hs Hopts Hst.
  destruct (get_ok (s_options s) "access_token_endpoint" Hopts) as [url Hurl].
  destruct (get_ok (s_options s) "client_id" Hopts) as [cid Hcid].
  unfold Core.request, async at 1.
  erewrite bind_Ok by apply strategy_active. rewrite Hs.
  erewrite bind_Ok by reflexivity.
  erewrite bind_Ok by reflexivity.
  erewrite bind_Ok by reflexivity.
  erewrite bind_Ok by reflexivity.
  erewrite bind_Ok by reflexivity.
  unfold Core.stale in Hst. simpl. rewrite Hst.
  erewrite bind_Ok by reflexivity.
  erewrite bind_Ok by (unfold lift; by rewrite Hurl).
  erewrite bind_Ok by reflexivity.
  erewrite bind_Ok by (unfold lift; by rewrite Hcid).
  erewrite bind_Ok by reflexivity.
  unfold ret. simpl. do 2 eexists. split; [reflexivity|].
  apply P_fails_then; [by intros ?|]. intros response.
  unfold Core.dot_name. run.
Qed.

End WithoutWindow.

(** X20. Where there is no [window] (on the server), every [request] of
    [lib/core/auth.js] is rejected with the [ReferenceError] that
    [$loading()] throws, whatever the transport answers, and no listener
    hears of it. *)
Theorem core_request_without_window env endpoint defaults w s :
  window_defined env = false ->
  active env (data w) = Some s ->
  nullish (s_options s) = false ->
  (await (Core.request env endpoint defaults) w).1
  = Settled (Rejected window_error) /\
  exists evs,
    trace (await (Core.request env endpoint defaults) w).2 = trace w ++ evs /\
    forallb not_listener evs = true.
Proof.
  intros Hw Hs Hopts.
  destruct (Core.stale env (data w) (clock env (clock_reads w)) s) eqn:Hst.
  - destruct (core_request_chain_without_window env Hw endpoint defaults w s
                Hs Hopts Hst) as (req & p & Heq & Hp).
    unfold await. rewrite Heq. unfold catch_.
    match goal with
    | |- context [p ?w1] =>
        destruct (Hp w1) as (evs & Ht & Hsk & e & He);
        destruct (p w1) as [st w2]
    end.
    simpl in Ht, He. subst st. cbn beta iota.
    destruct (core_completeRequest_without_window env endpoint defaults w2 Hw)
      as (q & -> & Hq).
    rewrite Hq. simpl. split; [done|].
    exists (EvAxios SiteRefresh req :: evs
            ++ [EvAxios SiteDispatch (merged endpoint defaults)]).
    split; [rewrite Ht; by rewrite <- !app_assoc|].
    simpl. rewrite forallb_app. simpl. rewrite andb_true_r.
    by apply forbid_none.
  - destruct (Pipeline.core_request_reads env endpoint defaults w s Hs)
      as (k & Heq & _).
    rewrite (await_eq _ _ _ _ Heq), Hst. unfold await, async.
    destruct (core_completeRequest_without_window env endpoint defaults
                (tick w) Hw) as (q & -> & Hq).
    rewrite Hq. simpl. split; [done|].
    by exists [EvAxios SiteDispatch (merged endpoint defaults)].
Qed.

(** X20 on the server. *)
Lemma core_request_without_window_witness :
  (await (Core.request ex_server_env ex_endpoint VUndefined) ex_fresh_world).1
    = Settled (Rejected window_error) /\
  exists evs,
    trace (await (Core.request ex_server_env ex_endpoint VUndefined)
                 ex_fresh_world).2 = trace ex_fresh_world ++ evs /\
    forallb not_listener evs = true.
Proof.
  apply (core_request_without_window ex_server_env ex_endpoint VUndefined
           ex_fresh_world ex_strategy);
    reflexivity.
Defined.

(** X21. A [request] that needs no refresh sends the merged request and
    settles as the transport does.  A response resolves the call with
    [response.data], or with [getProp(response.data, propertyName)] when
    the request has a truthy [propertyName]; a rejection is reported to
    the listeners with payload [{method: 'completeRequest'}] and raised
    again.  The second copy, on the server, does so without a word to the
    loading indicator, and without a [window]; in the browser it calls
    [$loading().finish()] before it resolves and [$loading().fail()]
    before it reports.  [lib/core/auth.js] calls them wherever it runs,
    so the same holds of it where there is a [window]. *)
Theorem request_direct_outcome env endpoint defaults w s :
  active env (data w) = Some s ->
  listeners_return env ->
  let req := merged endpoint defaults in
  let ms := clock env (clock_reads w) in
  let sent := trace w ++ [EvAxios SiteDispatch req] in
  match axios env (requests_sent (trace w)) req with
  | Resolved response =>
      forall body propertyName,
        get response "data" = Ok body ->
        get req "propertyName" = Ok propertyName ->
        (Alt.loading_returns env ->
         Alt.stale env (data w) ms s = false ->
         exists w',
           await (Alt.request env endpoint defaults) w =
             (Settled (Resolved (payload env propertyName body)), w') /\
           trace w' =
             sent ++ (if process_server env then []
                      else [EvLoading "finish"])) /\
        (window_defined env = true ->
         Core.stale env (data w) ms s = false ->
         exists w',
           await (Core.request env endpoint defaults) w =
             (Settled (Resolved (payload env propertyName body)), w') /\
           trace w' = sent ++ [EvLoading "finish"])
  | Rejected err =>
      (Alt.loading_returns env ->
       Alt.stale env (data w) ms s = false ->
       exists w',
         await (Alt.request env endpoint defaults) w =
           (Settled (Rejected err), w') /\
         trace w' =
           sent ++ (if process_server env then []
                    else [EvLoading "fail"])
                ++ notifications env err "completeRequest") /\
      (window_defined env = true ->
       Core.stale env (data w) ms s = false ->
       exists w',
         await (Core.request env endpoint defaults) w =
           (Settled (Rejected err), w') /\
         trace w' =
           sent ++ EvLoading "fail"
                :: notifications env err "completeRequest")
  end.
Proof.
  intros Hs Hl req ms sent.
  assert (Halt : Alt.stale env (data w) ms s = false ->
            exists w0, trace w0 = trace w /\
              await (Alt.request env endpoint defaults) w =
              await (do p <- Alt.completeRequest env endpoint defaults;
                     ret (catch_ p (Alt.report env))) w0).
  { intros Hst.
    destruct (Pipeline.alt_request_direct env endpoint defaults w s Hs Hst)
      as (w0 & Ht & Hd & Heq).
    exists w0. split; [done|]. rewrite (await_eq _ _ _ _ Heq).
    unfold await, async.
    erewrite bind_Ok by apply alt_completeRequest_sync. reflexivity. }
  assert (Hcore : Core.stale env (data w) ms s = false ->
            await (Core.request env endpoint defaults) w =
            await (Core.completeRequest env endpoint defaults) (tick w)).
  { intros Hst.
    destruct (Pipeline.core_request_reads env endpoint defaults w s Hs)
      as (k & Heq & _).
    rewrite (await_eq _ _ _ _ Heq). fold ms. rewrite Hst.
    unfold await, async. by rewrite core_completeRequest_eq. }
  destruct (axios env (requests_sent (trace w)) req) as [response|err] eqn:Hax.
  - intros body propertyName Hbody Hpn. split.
    + intros Hw Hst. destruct (Halt Hst) as (w0 & Ht & ->).
      unfold await. erewrite bind_Ok by apply alt_completeRequest_sync.
      unfold ret, catch_, then_. rewrite Ht. fold req. rewrite Hax.
      unfold Alt.loading_returns in Hw.
      unfold Alt.loading. unfold payload, sent.
      destruct (process_server env); simpl; rewrite ?Hw by reflexivity;
        erewrite bind_Ok by reflexivity;
        erewrite bind_Ok by (unfold lift; by rewrite Hpn);
        destruct (truthy propertyName);
        erewrite bind_Ok by (unfold lift; by rewrite Hbody);
        eexists; (split; [reflexivity|]); simpl;
        by rewrite ?app_nil_r, <- ?app_assoc.
    + intros Hw Hst. rewrite (Hcore Hst). unfold await.
      rewrite core_completeRequest_eq.
      unfold catch_, then_. simpl. fold req. rewrite Hax.
      unfold Core.loading. rewrite Hw. unfold payload, sent.
      erewrite bind_Ok by reflexivity.
      erewrite bind_Ok by (unfold lift; by rewrite Hpn).
      destruct (truthy propertyName);
        erewrite bind_Ok by (unfold lift; by rewrite Hbody);
        eexists; (split; [reflexivity|]); simpl; by rewrite <- app_assoc.
  - split.
    + intros Hw Hst. destruct (Halt Hst) as (w0 & Ht & ->).
      unfold await. erewrite bind_Ok by apply alt_completeRequest_sync.
      unfold ret, catch_, then_. rewrite Ht. fold req. rewrite Hax.
      match goal with
      | |- context [Alt.report env err ?w1] =>
          destruct (Pipeline.alt_report_returns env err w1 Hl Hw)
            as (w' & -> & Ht')
      end.
      exists w'. split; [reflexivity|]. rewrite Ht'. simpl.
      unfold sent, Alt.report_events.
      destruct (process_server env); simpl; by rewrite <- ?app_assoc.
    + intros Hw Hst. rewrite (Hcore Hst). unfold await.
      rewrite core_completeRequest_eq.
      unfold catch_, then_. simpl. fold req. rewrite Hax.
      unfold Core.loading. rewrite Hw.
      erewrite bind_Ok by reflexivity.
      match goal with
      | |- context [bind (callOnError env err "completeRequest") _ ?w1] =>
          destruct (callOnError_returns env err "completeRequest" w1 Hl)
            as (w' & Heq & Ht')
      end.
      erewrite bind_Ok by exact Heq.
      exists w'. split; [reflexivity|]. rewrite Ht'. simpl.
      unfold sent. by rewrite <- !app_assoc.
Qed.

(** X21 on the session of the examples with a token that has not expired:
    the second copy on the server, where there is no [window], and both
    copies in the browser. *)
Lemma request_direct_outcome_witness :
  (exists w',
     await (Alt.request ex_server_env ex_endpoint VUndefined) ex_fresh_world
       = (Settled (Resolved (VStr "payload")), w') /\
     trace w' = [EvAxios SiteDispatch ex_endpoint]) /\
  (exists w',
     await (Alt.request (ex_env_with ex_serving) ex_endpoint VUndefined)
           ex_fresh_world
       = (Settled (Resolved (VStr "payload")), w') /\
     trace w' = [EvAxios SiteDispatch ex_endpoint; EvLoading "finish"]) /\
  (exists w',
     await (Core.request (ex_env_with ex_serving) ex_endpoint VUndefined)
           ex_fresh_world
       = (Settled (Resolved (VStr "payload")), w') /\
     trace w' = [EvAxios SiteDispatch ex_endpoint; EvLoading "finish"]).
Proof.
  destruct (request_direct_outcome ex_server_env ex_endpoint
              VUndefined ex_fresh_world ex_strategy eq_refl
              ltac:(by intros fn ? ? ? [<-|[]])
              (VStr "payload") VUndefined eq_refl eq_refl)
    as [Hserver _].
  destruct (request_direct_outcome (ex_env_with ex_serving) ex_endpoint
              VUndefined ex_fresh_world ex_strategy eq_refl
              ltac:(by intros fn ? ? ? [<-|[]])
              (VStr "payload") VUndefined eq_refl eq_refl)
    as [Halt Hcore].
  split; [|split].
  - apply Hserver; [|reflexivity]. intros Hbrowser. discriminate Hbrowser.
  - apply Halt; [|reflexivity]. intros _. reflexivity.
  - exact (Hcore eq_refl eq_refl).
Defined.

(** X22. The request [completeRequest] sends has every property of the
    endpoint and, of the defaults, those the endpoint does not have: the
    endpoint wins.  Defaults that are not an object are ignored, the
    endpoint is sent as it is. *)
Theorem completeRequest_merges env defaults w e d :
  NoDup (map fst e) ->
  NoDup (map fst d) ->
  (exists req,
     (forall k, get req k =
                Ok (match assoc k e with
                    | Some v => v
                    | None => default VUndefined (assoc k d)
                    end)) /\
     trace (Alt.completeRequest env (VObj e) (VObj d) w).2
       = trace w ++ [EvAxios SiteDispatch req] /\
     trace (Core.completeRequest env (VObj e) (VObj d) w).2
       = trace w ++ [EvAxios SiteDispatch req]) /\
  (typeof_object defaults = false ->
   trace (Alt.completeRequest env (VObj e) defaults w).2
     = trace w ++ [EvAxios SiteDispatch (VObj e)] /\
   trace (Core.completeRequest env (VObj e) defaults w).2
     = trace w ++ [EvAxios SiteDispatch (VObj e)]).
Proof.
  intros He Hd. split.
  - exists (merged (VObj e) (VObj d)).
    split; [|split; reflexivity].
    intros k. unfold merged, assign2. simpl.
    rewrite assoc_fold, rev_app_distr, assoc_app, !assoc_rev by done. simpl.
    by destruct (assoc k e), (assoc k d).
  - intros Hty. rewrite alt_completeRequest_sync, core_completeRequest_eq.
    unfold merged. rewrite Hty. done.
Qed.

(** X22 on an endpoint and defaults that both have a [url]. *)
Lemma completeRequest_merges_witness :
  exists req,
    (forall k,
       get req k =
       Ok (match assoc k [("url", VStr "/me")] with
           | Some v => v
           | None =>
               default VUndefined
                 (assoc k [("method", VStr "get"); ("url", VStr "/default")])
           end)) /\
    trace (Alt.completeRequest ex_env ex_endpoint ex_defaults ex_world).2
      = trace ex_world ++ [EvAxios SiteDispatch req] /\
    trace (Core.completeRequest ex_env ex_endpoint ex_defaults ex_world).2
      = trace ex_world ++ [EvAxios SiteDispatch req].
Proof.
  apply (completeRequest_merges ex_env VUndefined ex_world
           [("url", VStr "/me")]
           [("method", VStr "get"); ("url", VStr "/default")]).
  - apply NoDup_singleton.
  - apply NoDup_cons. split; [|apply NoDup_singleton].
    intros Hin%list_elem_of_singleton. discriminate.
Defined.

(** X23. In the second copy, when the token has expired and the exchange
    fails with an error that has no [response] (the network is down),
    [request] rejects with the [TypeError] of reading [status] of
    [undefined], not with the error: no listener is called, the caller's
    request is not sent, the store is as it was. *)
Theorem alt_request_masks_error_without_response
    env endpoint defaults w s err :
  active env (data w) = Some s ->
  nullish (s_options s) = false ->
  Alt.stale env (data w) (clock env (clock_reads w)) s = true ->
  (forall req, axios env (requests_sent (trace w)) req = Rejected err) ->
  get err "response" = Ok VUndefined ->
  exists req w',
    await (Alt.request env endpoint defaults) w =
    (Settled (Rejected
                (TypeError "Cannot read property 'status' of undefined")),
     w') /\
    trace w' = trace w ++ [EvCall "refreshToken"; EvAxios SiteRefresh req] /\
    data w' = data w.
Proof.
  intros Hs Hopts Hst Hrej Hresp.
  rewrite (await_eq _ _ _ _
             (Pipeline.alt_request_stale env endpoint defaults w s Hs Hst)).
  destruct (Pipeline.alt_refreshToken_sync env (tick w) s Hs Hopts)
    as (req & h & w1 & Hsync & Ht1 & Hd1 & _).
  unfold await, async. erewrite bind_Ok by exact Hsync. unfold ret.
  unfold catch_ at 1, then_ at 1, then_ at 1. simpl in Hrej. rewrite Hrej.
  unfold Alt.on_refresh_error.
  erewrite bind_Ok by (unfold lift; by rewrite Hresp).
  simpl. by exists req, w1.
Qed.

(** X23 with the network down. *)
Lemma alt_request_masks_error_without_response_witness :
  exists req w',
    await (Alt.request (ex_env_with ex_offline) ex_endpoint VUndefined)
          ex_world =
    (Settled (Rejected
                (TypeError "Cannot read property 'status' of undefined")),
     w') /\
    trace w' = trace ex_world
                 ++ [EvCall "refreshToken"; EvAxios SiteRefresh req] /\
    data w' = data ex_world.
Proof.
  apply (alt_request_masks_error_without_response (ex_env_with ex_offline)
           ex_endpoint VUndefined ex_world ex_strategy
           (VObj [("message", VStr "Network Error")]));
    reflexivity.
Defined.

Section AltBound.
Variable env : Env.

#[local] Hint Resolve Pipeline.alt_loading Pipeline.alt_report
  Pipeline.alt_updateUser Pipeline.alt_completeRequest
  Pipeline.alt_refreshToken Pipeline.alt_getDBAuth Pipeline.alt_recovery
  : script.

(** The handler of a failed refresh runs at most the recovery. *)
Lemma alt_on_refresh_error endpoint defaults err :
  MP_runs step_of recovery_script []
          (Alt.on_refresh_error env endpoint defaults err).
Proof.
  unfold Alt.on_refresh_error.
  eapply MP_bind'; [apply M_lift'|]. intros response.
  eapply MP_bind'; [apply M_lift'|]. intros status.
  destruct (loose_eq_num _ _ _).
  - apply Pipeline.alt_recovery.
  - apply MP_runs_of_fails, Pipeline.alt_report.
Qed.

(** The expiry test reads the clock and sends nothing. *)
Lemma alt_expired_quiet a b : M_runs step_of [] [] any (Alt.expired env a b).
Proof. unfold Alt.expired. run. Qed.

(** What one [request] of the second copy adds, in steps. *)
Lemma alt_request_sat endpoint defaults :
  A_sat step_of alt_request_steps (Alt.request env endpoint defaults).
Proof.
  assert (H0 : alt_request_steps []) by (left; apply prefix_nil).
  unfold Alt.request. apply A_sat_async.
  apply A_sat_bind; [done | run |]. intros s1.
  apply A_sat_bind; [done | run |]. intros expiration.
  apply A_sat_bind; [done | run |]. intros s2.
  apply A_sat_bind; [done | run |]. intros refreshToken.
  apply A_sat_bind; [done | apply alt_expired_quiet |]. intros [|].
  - eapply A_sat_weaken; [intros l Hl; right; exact Hl|].
    eapply (A_sat_catch step_of [RefreshCall; Exchange; Dispatch] [Dispatch]).
    + apply Pipeline.alt_refreshToken.
    + intros _. apply Pipeline.alt_completeRequest.
    + apply alt_on_refresh_error.
  - eapply A_sat_weaken; [intros l Hl; left; exact Hl|].
    apply A_sat_of_runs, A_of_MP.
    eapply MP_bind_MP; [apply (Pipeline.alt_completeRequest env [])|].
    intros p r0 Hp. apply MP_ret.
    apply P_catch; [exact Hp|]. intros e. apply Pipeline.alt_report.
Qed.

End AltBound.

(** X24. One [request] of the second copy never loops: whatever the
    transport, the strategy and the store, its steps are a direct
    dispatch, or the refresh protocol and the dispatch followed, at most
    once, by the recovery; so the caller's request is sent at most twice,
    the token endpoint asked at most three times and the stored
    credentials fetched at most once. *)
Theorem alt_request_bounded env endpoint defaults w :
  exists evs,
    trace (await (Alt.request env endpoint defaults) w).2 = trace w ++ evs /\
    alt_request_steps (steps evs) /\
    (occurs Dispatch (steps evs) <= 2)%nat /\
    (occurs Exchange (steps evs) <= 3)%nat /\
    (occurs CredentialFetch (steps evs) <= 1)%nat.
Proof.
  destruct (alt_request_sat env endpoint defaults w) as (evs & Ht & H).
  exists evs. split; [exact Ht|]. split; [exact H|].
  change (Script.skel step_of evs) with (steps evs) in H.
  destruct H as [H | (a & b & -> & Ha & Hb)].
  - pose proof (occurs_prefix Dispatch _ _ H).
    pose proof (occurs_prefix Exchange _ _ H).
    pose proof (occurs_prefix CredentialFetch _ _ H).
    count_steps. lia.
  - rewrite !occurs_app.
    pose proof (occurs_prefix Dispatch _ _ Ha).
    pose proof (occurs_prefix Exchange _ _ Ha).
    pose proof (occurs_prefix CredentialFetch _ _ Ha).
    pose proof (occurs_prefix Dispatch _ _ Hb).
    pose proof (occurs_prefix Exchange _ _ Hb).
    pose proof (occurs_prefix CredentialFetch _ _ Hb).
    count_steps. lia.
Qed.

Section CoreBound.
Variable env : Env.

#[local] Hint Resolve Pipeline.core_loading Pipeline.core_completeRequest
  : script.

(** What one [request] of [lib/core/auth.js] adds, in steps. *)
Lemma core_request_sat endpoint defaults :
  A_sat step_of core_request_steps (Core.request env endpoint defaults).
Proof.
  assert (H0 : core_request_steps []) by (left; apply prefix_nil).
  unfold Core.request, Core.dot_name, Core.dot_options. apply A_sat_async.
  apply A_sat_bind; [done | run |]. intros strategy.
  apply A_sat_bind; [done | run |]. intros name.
  apply A_sat_bind; [done | run |]. intros expiration.
  apply A_sat_bind; [done | run |]. intros name'.
  apply A_sat_bind; [done | run |]. intros refresh_token.
  apply A_sat_bind; [done | run |]. intros ms.
  destruct (Core.expired _ _ _ _).
  - apply A_sat_bind; [done | run |]. intros opts.
    apply A_sat_bind; [done | run |]. intros url.
    apply A_sat_bind; [done | run |]. intros opts'.
    apply A_sat_bind; [done | run |]. intros client_id.
    eapply A_sat_weaken; [intros l Hl; right; exact Hl|].
    eapply (A_sat_catch step_of [Exchange; Dispatch] [Dispatch]).
    + eapply MP_of_M. eapply M_post; [by eapply M_axios_take|].
      intros p Hp. by apply P_silent_runs.
    + intros response. run.
    + intros _. apply Pipeline.core_completeRequest.
  - eapply A_sat_weaken; [intros l Hl; left; exact Hl|].
    apply A_sat_of_runs, A_of_MP, Pipeline.core_completeRequest.
Qed.

End CoreBound.

(** X25. One [request] of [lib/core/auth.js] asks the token endpoint at most
    once and sends the caller's request at most twice: a second time only
    when the first chain, exchange and dispatch, has failed. *)
Theorem core_request_bounded env endpoint defaults w :
  exists evs,
    trace (await (Core.request env endpoint defaults) w).2 = trace w ++ evs /\
    core_request_steps (steps evs) /\
    (occurs Dispatch (steps evs) <= 2)%nat /\
    (occurs Exchange (steps evs) <= 1)%nat.
Proof.
  destruct (core_request_sat env endpoint defaults w) as (evs & Ht & H).
  exists evs. split; [exact Ht|]. split; [exact H|].
  change (Script.skel step_of evs) with (steps evs) in H.
  destruct H as [H | (a & b & -> & Ha & Hb)].
  - pose proof (occurs_prefix Dispatch _ _ H).
    pose proof (occurs_prefix Exchange _ _ H).
    count_steps. lia.
  - rewrite !occurs_app.
    pose proof (occurs_prefix Dispatch _ _ Ha).
    pose proof (occurs_prefix Exchange _ _ Ha).
    pose proof (occurs_prefix Dispatch _ _ Hb).
    pose proof (occurs_prefix Exchange _ _ Hb).
    count_steps. lia.
Qed.

End Dispatching.

(* ===================================================================== *)
(** ** The refresh protocol *)
(* ===================================================================== *)

Module Refreshing.
Import JS Machine Engine Script Laws Rules Observe Registry Views Helpers.
Import Examples Scenarios.
Open Scope js_scope.
Open Scope list_scope.

(** The four records as they read after the four writes of the refresh
    protocol, their keys being apart. *)
Lemma records_written env name token refresh_token expires scope w0 :
  separate_records env name = true ->
  let w4 :=
    written (scope_key env name) scope
      (written (expiration_key env name) expires
         (written (refresh_token_key env name) refresh_token
            (written (token_key env name) token w0))) in
  universal (data w4) (token_key env name) = token /\
  universal (data w4) (refresh_token_key env name) = refresh_token /\
  universal (data w4) (expiration_key env name) = expires /\
  universal (data w4) (scope_key env name) = scope.
Proof.
  intros Hsep w4.
  destruct (separate_records_ne env name Hsep) as (Htr & Hre & Hrs).
  pose proof (token_ne_expiration env name) as Hte.
  pose proof (token_ne_scope env name) as Hts.
  pose proof (expiration_ne_scope env name) as Hes.
  unfold w4. repeat split.
  - rewrite !universal_written_other by done. apply universal_written_eq.
  - rewrite !universal_written_other by done. apply universal_written_eq.
  - rewrite !universal_written_other by done. apply universal_written_eq.
  - apply universal_written_eq.
Qed.

(** The run of [refreshToken] when the exchange is answered. *)
Lemma alt_refreshToken_run env w s f req response fields scp :
  active env (data w) = Some s ->
  prefixed_keys env = true ->
  separate_records env (s_name s) = true ->
  s_setToken s = Some f ->
  (forall t d, f t d = d) ->
  exchange_request env s (universal (data w) (refresh_token_key env (s_name s)))
    = Ok req ->
  axios env (requests_sent (trace w)) req = Resolved response ->
  get response "data" = Ok (VObj fields) ->
  assoc "scope" fields = Some (VStr scp) ->
  let field k := default VUndefined (assoc k fields) in
  let token := bearer env (field "token_type") (field "access_token") in
  let expires :=
    add (string_to_number env)
        (mul (string_to_number env) (field "expires_in") (VNum 1000))
        (VNum (clock env (S (clock_reads w)))) in
  exists profile,
    let w' := refreshed env (s_name s) token (field "refresh_token") expires
                        (VStr scp) req profile w in
    await (Alt.refreshToken env) w = (Settled (Resolved VUndefined), w') /\
    active env (data w') = Some s.
Proof.
  intros Hs Hp Hsep Hhook Hid Hreq Hax Hbody Hscp field token expires.
  set (name := s_name s).
  unfold exchange_request in Hreq.
  destruct (get (s_options s) "access_token_endpoint") as [url|] eqn:Hurl;
    [|done].
  destruct (get (s_options s) "client_id") as [cid|] eqn:Hcid; [|done].
  injection Hreq as <-.
  (* the synchronous part *)
  unfold await, Alt.refreshToken.
  erewrite bind_Ok by reflexivity.
  erewrite bind_Ok by (by apply strategy_dot_active).
  erewrite bind_Ok by (unfold lift; by rewrite Hurl).
  erewrite bind_Ok by (by apply strategy_dot_active).
  erewrite bind_Ok by (unfold lift; by rewrite Hcid).
  erewrite bind_Ok by (by apply strategy_dot_active).
  erewrite bind_Ok by reflexivity.
  erewrite bind_Ok by reflexivity.
  unfold ret, then_. simpl. rewrite requests_sent_app. simpl.
  rewrite Nat.add_0_r, Hax.
  (* the handler *)
  erewrite bind_Ok by reflexivity.
  erewrite bind_Ok by (unfold lift; by rewrite Hbody).
  erewrite bind_Ok by reflexivity.
  erewrite bind_Ok by (unfold lift; by rewrite Hbody).
  erewrite bind_Ok by reflexivity.
  erewrite bind_Ok by (unfold lift; by rewrite Hbody).
  erewrite bind_Ok by reflexivity.
  erewrite bind_Ok by (unfold lift; by rewrite Hbody).
  erewrite bind_Ok by reflexivity.
  erewrite bind_Ok by reflexivity.
  erewrite bind_Ok by (unfold lift; by rewrite Hbody).
  erewrite bind_Ok by reflexivity.
  fold (field "token_type") (field "access_token") (field "refresh_token")
       (field "expires_in").
  fold (bearer env (field "token_type") (field "access_token")). fold token.
  replace (default VUndefined (assoc "scope" fields)) with (VStr scp)
    by (by rewrite Hscp).
  simpl.
  erewrite bind_Ok by (by apply strategy_dot_active).
  erewrite bind_Ok by apply setUniversal_written.
  match goal with
  | |- context [written ?k ?v ?w0] => set (w1 := written k v w0)
  end.
  assert (Hs1 : active env (data w1) = Some s).
  { unfold w1. rewrite active_written_ne; [done|]. by apply token_key_ne. }
  erewrite bind_Ok by (by apply strategy_dot_active).
  erewrite bind_Ok by apply setUniversal_written.
  match goal with
  | |- context [written ?k ?v w1] => set (w2 := written k v w1)
  end.
  assert (Hs2 : active env (data w2) = Some s).
  { unfold w2. rewrite active_written_ne; [done|].
    by apply refresh_token_key_ne. }
  erewrite bind_Ok by (by apply strategy_dot_active).
  erewrite bind_Ok by apply setUniversal_written.
  match goal with
  | |- context [written ?k ?v w2] => set (w3 := written k v w2)
  end.
  assert (Hs3 : active env (data w3) = Some s).
  { unfold w3. rewrite active_written_ne; [done|].
    by apply expiration_key_ne. }
  erewrite bind_Ok by (by apply strategy_dot_active).
  erewrite bind_Ok by apply setUniversal_written.
  match goal with
  | |- context [written ?k ?v w3] => set (w4 := written k v w3)
  end.
  assert (Hs4 : active env (data w4) = Some s).
  { unfold w4. rewrite active_written_ne; [done|]. by apply scope_key_ne. }
  erewrite bind_Ok by (by eapply strategy_setToken_eq).
  erewrite bind_Ok by reflexivity.
  assert (Htok4 : universal (data w4) (token_key env name) = token /\
                  universal (data w4) (scope_key env name) = VStr scp).
  { unfold w4, w3, w2, w1.
    match goal with
    | |- context [written (token_key env _) token ?w0] =>
        destruct (records_written env name token (field "refresh_token")
                    expires (VStr scp) w0 Hsep) as (Ht & _ & _ & Hsc)
    end.
    exact (conj Ht Hsc). }
  destruct Htok4 as [Htok4 Hscp4].
  destruct (add_space_string env (field "token_type") (field "access_token"))
    as [tok Htok].
  fold token in Htok.
  match goal with
  | |- context [bind (Alt.updateUser env ?u) _ ?w5] =>
      destruct (alt_updateUser_sends env u w5 s tok scp)
        as (profile & Hupd & _); [done | by rewrite <- Htok | done |]
  end.
  erewrite bind_Ok by exact Hupd.
  unfold resolved. simpl.
  exists profile. split; [reflexivity | exact Hs4].
Qed.

(** X26. [refreshToken()] of the second copy, when the token endpoint
    answers, with a scope that is a string: the request sent is the
    form-encoded exchange of the stored refresh token; the token
    [token_type + ' ' + access_token], the new refresh token, the
    expiration [expires_in * 1000 + Date.now()] and the scope are written
    in this order, the strategy is given the token, the profile is sent,
    and the call resolves.  The four records then
    read as written and the strategy is still the active one. *)
Theorem refreshToken_stores env w s f req response fields scp :
  active env (data w) = Some s ->
  prefixed_keys env = true ->
  separate_records env (s_name s) = true ->
  s_setToken s = Some f ->
  (forall t d, f t d = d) ->
  exchange_request env s (universal (data w) (refresh_token_key env (s_name s)))
    = Ok req ->
  axios env (requests_sent (trace w)) req = Resolved response ->
  get response "data" = Ok (VObj fields) ->
  assoc "scope" fields = Some (VStr scp) ->
  let field k := default VUndefined (assoc k fields) in
  let token := bearer env (field "token_type") (field "access_token") in
  let expires :=
    add (string_to_number env)
        (mul (string_to_number env) (field "expires_in") (VNum 1000))
        (VNum (clock env (S (clock_reads w)))) in
  let name := s_name s in
  exists w' profile,
    await (Alt.refreshToken env) w = (Settled (Resolved VUndefined), w') /\
    trace w' =
      trace w ++ [EvCall "refreshToken"; EvAxios SiteRefresh req;
                  EvSetUniversal (token_key env name) token;
                  EvSetUniversal (refresh_token_key env name)
                                 (field "refresh_token");
                  EvSetUniversal (expiration_key env name) expires;
                  EvSetUniversal (scope_key env name) (VStr scp);
                  EvSetTokenHook token;
                  EvAxios SiteProfile profile] /\
    universal (data w') (token_key env name) = token /\
    universal (data w') (refresh_token_key env name) = field "refresh_token" /\
    universal (data w') (expiration_key env name) = expires /\
    universal (data w') (scope_key env name) = VStr scp /\
    active env (data w') = Some s.
Proof.
  intros Hs Hp Hsep Hhook Hid Hreq Hax Hbody Hscp field token expires name.
  destruct (alt_refreshToken_run env w s f req response fields scp
              Hs Hp Hsep Hhook Hid Hreq Hax Hbody Hscp)
    as (profile & Hrun & Hactive).
  fold field token expires name in Hrun, Hactive.
  eexists _, profile. split; [exact Hrun|].
  split.
  { unfold refreshed, written. simpl. by rewrite <- !app_assoc. }
  destruct (records_written env name token (field "refresh_token") expires
              (VStr scp)
              (tick (tick (mkWorld (data w)
                 ((trace w ++ [EvCall "refreshToken"])
                    ++ [EvAxios SiteRefresh req]) (clock_reads w))))
              Hsep)
    as (Htok & Href & Hexp & Hscope).
  repeat split; [exact Htok | exact Href | exact Hexp | exact Hscope
                | exact Hactive].
Qed.

(** X26 on the session of the examples and a token endpoint that answers. *)
Lemma refreshToken_stores_witness :
  let env := ex_env_with ex_issuing in
  exists w' profile,
    await (Alt.refreshToken env) ex_world
      = (Settled (Resolved VUndefined), w') /\
    steps (trace w') = [RefreshCall; Exchange] /\
    trace w' = trace ex_world ++
      [EvCall "refreshToken";
       EvAxios SiteRefresh
         (VObj [("method", VStr "post");
                ("url", VStr "https://idp/token");
                ("baseURL", VBool false);
                ("headers",
                 VObj [("Content-Type",
                        VStr "application/x-www-form-urlencoded")]);
                ("data",
                 VObj [("client_id", VStr "cid");
                       ("refresh_token", VStr "r1");
                       ("grant_type", VStr "refresh_token")])]);
       EvSetUniversal "_token.social" (VStr "Bearer fresh");
       EvSetUniversal "_refresh_token.social" (VStr "r2");
       EvSetUniversal "_token.expiration.social" (VNum 3602001);
       EvSetUniversal "_token.scope.social" (VStr "read write");
       EvSetTokenHook (VStr "Bearer fresh");
       EvAxios SiteProfile profile] /\
    universal (data w') "_token.social" = VStr "Bearer fresh" /\
    universal (data w') "_token.expiration.social" = VNum 3602001.
Proof.
  intros env.
  edestruct (refreshToken_stores env ex_world ex_strategy (fun _ d => d))
    as (w' & profile & Hrun & Htrace & Htoken & _ & Hexp & _);
    [reflexivity | reflexivity | reflexivity | reflexivity
    | intros; reflexivity | reflexivity | reflexivity | reflexivity
    | reflexivity |].
  exists w', profile.
  split; [exact Hrun|].
  split; [rewrite Htrace; reflexivity|].
  split; [exact Htrace|].
  split; [exact Htoken | exact Hexp].
Defined.

(** X27. After a refresh of the second copy the stored expiration is the
    lifetime the endpoint gave, in milliseconds, past the time of the
    refresh; a [request] made before that time dispatches at once, with
    no further step of the refresh protocol. *)
Theorem refreshed_token_is_fresh
    env w s f req response fields scp lifetime endpoint defaults :
  active env (data w) = Some s ->
  prefixed_keys env = true ->
  separate_records env (s_name s) = true ->
  s_setToken s = Some f ->
  (forall t d, f t d = d) ->
  exchange_request env s (universal (data w) (refresh_token_key env (s_name s)))
    = Ok req ->
  axios env (requests_sent (trace w)) req = Resolved response ->
  get response "data" = Ok (VObj fields) ->
  assoc "scope" fields = Some (VStr scp) ->
  assoc "expires_in" fields = Some (VNum lifetime) ->
  let w' := (await (Alt.refreshToken env) w).2 in
  let expiry := lifetime * 1000 + clock env (S (clock_reads w)) in
  universal (data w') (expiration_key env (s_name s)) = VNum expiry /\
  (clock env (clock_reads w') < expiry ->
   exists rest,
     trace (await (Alt.request env endpoint defaults) w').2 =
       trace w' ++ EvAxios SiteDispatch (merged endpoint defaults) :: rest /\
     steps rest = []).
Proof.
  intros Hs Hp Hsep Hhook Hid Hreq Hax Hbody Hscp Hlife w' expiry.
  destruct (alt_refreshToken_run env w s f req response fields scp
              Hs Hp Hsep Hhook Hid Hreq Hax Hbody Hscp)
    as (profile & Heq & Hs1).
  match type of Heq with _ = (_, ?x) => set (w1 := x) in * end.
  assert (Hexp : universal (data w1) (expiration_key env (s_name s))
                 = VNum expiry).
  { unfold w1, refreshed.
    match goal with
    | |- context [written (token_key _ _) ?t ?w0] =>
        destruct (records_written env (s_name s) t
                    (default VUndefined (assoc "refresh_token" fields))
                    (add (string_to_number env)
                       (mul (string_to_number env)
                          (default VUndefined (assoc "expires_in" fields))
                          (VNum 1000))
                       (VNum (clock env (S (clock_reads w)))))
                    (VStr scp) w0 Hsep)
          as (_ & _ & He & _)
    end.
    cbn [data] in *. rewrite He, Hlife. reflexivity. }
  subst w'. rewrite Heq. cbn [snd].
  split; [exact Hexp|]. intros Hclock.
  assert (Hst : Alt.stale env (data w1) (clock env (clock_reads w1)) s = false).
  { unfold Alt.stale. rewrite Hexp. apply andb_false_intro2.
    unfold num_ge. simpl. apply Z.leb_gt. exact Hclock. }
  destruct (Pipeline.alt_request_direct env endpoint defaults w1 s Hs1 Hst)
    as (w0 & Ht & _ & Heq0).
  rewrite (await_eq _ _ _ _ Heq0), <- Ht.
  apply Pipeline.alt_dispatch_first.
Qed.

(** X27 on the session of the examples: a lifetime of an hour. *)
Lemma refreshed_token_is_fresh_witness :
  let env := ex_env_with ex_issuing in
  let w' := (await (Alt.refreshToken env) ex_world).2 in
  universal (data w') "_token.expiration.social" = VNum 3602001 /\
  exists rest,
    trace (await (Alt.request env ex_endpoint VUndefined) w').2 =
      trace w' ++ EvAxios SiteDispatch ex_endpoint :: rest /\
    steps rest = [].
Proof.
  intros env w'.
  edestruct (fun req =>
               refreshed_token_is_fresh env ex_world ex_strategy
                 (fun _ d => d) req ex_tokens
                 [("token_type", VStr "Bearer");
                  ("access_token", VStr "fresh");
                  ("refresh_token", VStr "r2");
                  ("expires_in", VNum 3600);
                  ("scope", VStr "read write")]
                 "read write" 3600 ex_endpoint VUndefined)
    as [Hexp Hnext];
    [reflexivity | reflexivity | reflexivity | reflexivity
    | intros; reflexivity | reflexivity | reflexivity | reflexivity
    | reflexivity | reflexivity |].
  split; [exact Hexp|].
  apply Hnext. reflexivity.
Defined.

(** X28. [getDBAuth()] with a user cached and the credential fetch answered:
    the recovered access token and refresh token are stored (the token as
    it comes, without a type in front), the strategy is given the token,
    and the refresh protocol starts with the recovered refresh token in
    its exchange. *)
Theorem getDBAuth_exchanges_recovered_token
    env w s f auth access_token refresh_token xreq :
  active env (data w) = Some s ->
  prefixed_keys env = true ->
  s_setToken s = Some f ->
  (forall t d, f t d = d) ->
  truthy (cached_user (data w)) = true ->
  (forall req, axios env (requests_sent (trace w)) req = Resolved auth) ->
  get auth "access_token" = Ok access_token ->
  get auth "refresh_token" = Ok refresh_token ->
  exchange_request env s refresh_token = Ok xreq ->
  let name := s_name s in
  exists creq rest,
    trace (await (Alt.getDBAuth env) w).2 =
      trace w ++ [EvCall "getDBAuth"; EvAxios SiteCredentials creq;
                  EvSetUniversal (token_key env name) access_token;
                  EvSetUniversal (refresh_token_key env name) refresh_token;
                  EvSetTokenHook access_token;
                  EvCall "refreshToken"; EvAxios SiteRefresh xreq] ++ rest.
Proof.
  intros Hs Hp Hhook Hid Hu Hax Hat Hrt Hreq name.
  unfold exchange_request in Hreq.
  destruct (get (s_options s) "access_token_endpoint") as [url|] eqn:Hurl;
    [|done].
  destruct (get (s_options s) "client_id") as [cid|] eqn:Hcid; [|done].
  injection Hreq as Hx.
  destruct (get_ok _ "user_id" (truthy_not_nullish _ Hu)) as (uid & Huid).
  unfold await, Alt.getDBAuth.
  erewrite bind_Ok by reflexivity.
  erewrite bind_Ok by reflexivity.
  unfold cached_user in Hu, Huid. simpl. rewrite Hu. simpl.
  erewrite bind_Ok by reflexivity.
  erewrite bind_Ok by (unfold lift; simpl; by rewrite Huid).
  erewrite bind_Ok by reflexivity.
  unfold ret, then_ at 1. simpl. rewrite requests_sent_app. simpl.
  rewrite Nat.add_0_r, Hax.
  erewrite bind_Ok by (by apply strategy_dot_active).
  erewrite bind_Ok by (unfold lift; by rewrite Hat).
  erewrite bind_Ok by apply setUniversal_written.
  match goal with
  | |- context [written ?k ?v ?w0] => set (w1 := written k v w0)
  end.
  assert (Hs1 : active env (data w1) = Some s).
  { unfold w1. rewrite active_written_ne; [done|]. by apply token_key_ne. }
  erewrite bind_Ok by (by apply strategy_dot_active).
  erewrite bind_Ok by (unfold lift; by rewrite Hrt).
  erewrite bind_Ok by apply setUniversal_written.
  match goal with
  | |- context [written ?k ?v w1] => set (w2 := written k v w1)
  end.
  assert (Hs2 : active env (data w2) = Some s).
  { unfold w2. rewrite active_written_ne; [done|].
    by apply refresh_token_key_ne. }
  erewrite bind_Ok by (unfold lift; by rewrite Hat).
  erewrite bind_Ok by (by eapply strategy_setToken_eq).
  match goal with
  | |- context [bind (Alt.refreshToken env) _ ?w3] =>
      assert (Hsync : exists p,
                Alt.refreshToken env w3 =
                (Ok p, mkWorld (data w3)
                         (trace w3 ++ [EvCall "refreshToken";
                                       EvAxios SiteRefresh xreq])
                         (clock_reads w3)) /\
                P_runs nothing [] [] p);
      [|destruct Hsync as (p & Hsync & Hp'); erewrite bind_Ok by exact Hsync]
  end.
  { pose proof (fun c => Pipeline.alt_refreshToken env c) as Hrun.
    match goal with
    | |- context [Alt.refreshToken env ?w3] => specialize (Hrun [] w3)
    end.
    revert Hrun. unfold Alt.refreshToken.
    erewrite bind_Ok by reflexivity.
    erewrite bind_Ok by (by apply strategy_dot_active).
    erewrite bind_Ok by (unfold lift; by rewrite Hurl).
    erewrite bind_Ok by (by apply strategy_dot_active).
    erewrite bind_Ok by (unfold lift; by rewrite Hcid).
    erewrite bind_Ok by (by apply strategy_dot_active).
    erewrite bind_Ok
      by (apply getRefreshToken_eq;
          exact (universal_written_eq _ refresh_token w1)).
    erewrite bind_Ok by reflexivity.
    unfold ret. rewrite Hx. simpl. intros (evs & Ht & r1 & Hr1 & Hp').
    eexists. split.
    - apply (f_equal2 pair); [reflexivity|]. f_equal.
      by rewrite <- !app_assoc.
    - eapply P_grows. exact Hp'. }
  unfold then_ at 1.
  match goal with
  | |- context [p ?w4] =>
      destruct (P_grows_trace p w4 Hp') as (rest & Hrest);
      destruct (p w4) as [[v|e] w5]
  end.
  - simpl in *. eexists. exists rest. rewrite Hrest. simpl.
    by rewrite <- !app_assoc.
  - simpl in *. eexists. exists rest. rewrite Hrest. simpl.
    by rewrite <- !app_assoc.
Qed.

(** X28 on the session of the examples. *)
Lemma getDBAuth_exchanges_recovered_token_witness :
  exists creq xreq rest,
    get xreq "data" =
      Ok (VObj [("client_id", VStr "cid");
                ("refresh_token", VStr "rdb");
                ("grant_type", VStr "refresh_token")]) /\
    trace (await (Alt.getDBAuth (ex_env_with ex_granting)) ex_world).2 =
      trace ex_world ++
      [EvCall "getDBAuth"; EvAxios SiteCredentials creq;
       EvSetUniversal "_token.social" (VStr "Bearer db");
       EvSetUniversal "_refresh_token.social" (VStr "rdb");
       EvSetTokenHook (VStr "Bearer db");
       EvCall "refreshToken"; EvAxios SiteRefresh xreq] ++ rest.
Proof.
  edestruct (getDBAuth_exchanges_recovered_token (ex_env_with ex_granting)
               ex_world ex_strategy (fun _ d => d))
    as (creq & rest & Htrace);
    [reflexivity | reflexivity | reflexivity | intros; reflexivity
    | reflexivity | intros; reflexivity | reflexivity | reflexivity
    | reflexivity |].
  eexists creq, _, rest.
  split; [|exact Htrace]. reflexivity.
Defined.



End Refreshing.

(* ===================================================================== *)
(** ** The deprecated accessors *)
(* ===================================================================== *)

Module Accessors.
Import JS Machine Engine Compat.
Open Scope list_scope.

(** The flags and the console after a sequence of accesses, from any flags. *)
Lemma access_invariant w accs : forall fl,
  let fl' := fold_left (access w) accs fl in
  _state_warn_shown fl' = _state_warn_shown fl || existsb is_ReadState accs /\
  _get_state_warn_shown fl' =
    _get_state_warn_shown fl || existsb is_GetState accs /\
  exists added,
    console fl' = console fl ++ added /\
    NoDup added /\
    (forall m, In m added <->
       (m = state_warning /\ _state_warn_shown fl = false
        /\ existsb is_ReadState accs = true) \/
       (m = getState_warning /\ _get_state_warn_shown fl = false
        /\ existsb is_GetState accs = true)).
Proof.
  induction accs as [|a accs IH]; intros fl.
  - simpl. rewrite !orb_false_r. split; [done|]. split; [done|].
    exists []. rewrite app_nil_r. split; [done|]. split; [constructor|].
    intros m. split; [done|]. intros [(_ & _ & ?) | (_ & _ & ?)]; done.
  - simpl. specialize (IH (access w fl a)).
    destruct IH as (Hs & Hg & added & Hc & Hnd & Hin).
    destruct a as [|key]; cbn in *.
    + destruct (_state_warn_shown fl) eqn:Hfl; simpl in *.
      * rewrite Hs, Hg, ?Hfl. simpl. split; [done|]. split; [done|].
        exists added. split; [done|]. split; [done|].
        intros m. rewrite Hin, ?Hfl. clear. intuition congruence.
      * rewrite Hs, Hg. simpl. split; [done|]. split; [done|].
        exists (state_warning :: added).
        split; [by rewrite Hc, <- app_assoc|].
        split.
        -- apply NoDup_cons. split; [|done]. intros Hm%list_elem_of_In.
           apply Hin in Hm as [(_ & ? & _) | (? & _)]; done.
        -- intros m. simpl. rewrite Hin. clear. intuition congruence.
    + destruct (_get_state_warn_shown fl) eqn:Hfl; simpl in *.
      * rewrite Hs, Hg, ?Hfl. simpl. split; [done|]. split; [done|].
        exists added. split; [done|]. split; [done|].
        intros m. rewrite Hin, ?Hfl. clear. intuition congruence.
      * rewrite Hs, Hg. simpl. split; [done|]. split; [done|].
        exists (getState_warning :: added).
        split; [by rewrite Hc, <- app_assoc|].
        split.
        -- apply NoDup_cons. split; [|done]. intros Hm%list_elem_of_In.
           apply Hin in Hm as [(? & _) | (_ & ? & _)]; done.
        -- intros m. simpl. rewrite Hin. clear. intuition congruence.
Qed.

(** X30. Over any sequence of uses of the deprecated accessors [state] and
    [getState] on a new engine, each of the two warnings is written to the
    console at most once, and it is written exactly when its accessor has
    been used; the accessors themselves return [$state] and
    [$storage.getState(key)] and leave the world alone. *)
Theorem deprecation_warnings_once w accs key :
  let fl := fold_left (access w) accs fresh in
  NoDup (console fl) /\
  (In state_warning (console fl) <-> existsb is_ReadState accs = true) /\
  (In getState_warning (console fl) <-> existsb is_GetState accs = true) /\
  (exists fl', get_state fl w = (Ok (state (data w), fl'), w)) /\
  (exists fl', Compat.getState key fl w =
                 (Ok (default VUndefined (state (data w) !! key), fl'), w)).
Proof.
  destruct (access_invariant w accs fresh) as (_ & _ & added & Hc & Hnd & Hin).
  simpl in *. rewrite Hc. split; [done|].
  split; [|split; [|split; eexists; reflexivity]].
  - rewrite Hin. split.
    + intros [(_ & _ & ?) | (? & _)]; done.
    + intros H. left. done.
  - rewrite Hin. split.
    + intros [(? & _) | (_ & _ & ?)]; done.
    + intros H. right. done.
Qed.

End Accessors.
